(** * Reelify: highlight timeline extraction, chunk splitting, transcription
      and workspace cleanup of [app.py], embedded in Rocq.

    Python values are modelled as follows.
    - [str] is a list of Unicode code points ([N]); [len] and slice indices
      are [nat].
    - Python [int] is [Z]; [//] and [divmod] by a positive constant are
      [Z.div] and [Z.modulo] (both round towards minus infinity).
    - Exceptions are values of [exn]; code that can raise or that talks to an
      external service runs in the state-and-exception monad [M]. *)

From Stdlib Require Import String Ascii DecimalString.
From Stdlib Require Import List ZArith NArith Lia Bool Arith.
From Stdlib Require Import Sorted Permutation.
Import ListNotations.

Set Implicit Arguments.
Set Warnings "-notation-for-abbreviation,-register-all".

(** ** Python strings *)

Definition char := N.
Definition str := list char.

(** A literal of the source, as code points. *)
Definition lit (s : string) : str :=
  map N_of_ascii (list_ascii_of_string s).

(** [s[i:j]] for [0 <= i <= j]: indices past the end are clipped. *)
Definition py_slice {A : Type} (s : list A) (i j : nat) : list A :=
  firstn (j - i) (skipn i s).

(** [s[:n]] for [0 <= n]. *)
Definition py_prefix {A : Type} (s : list A) (n : nat) : list A :=
  py_slice s 0 n.

(** [range(start, stop, step)] for a positive [step]: the loop that Python's
    range iterator runs, [i = start; while i < stop: yield i; i += step].
    [fuel] bounds the number of iterations. *)
Fixpoint range_loop (fuel i stop step : nat) : list nat :=
  match fuel with
  | O => []
  | S fuel' =>
      if i <? stop then i :: range_loop fuel' (i + step) stop step else []
  end.

(** With [step >= 1] the loop stops within [stop - start] iterations
    (lemma [range_loop_closed] below). *)
Definition py_range (start stop step : nat) : list nat :=
  range_loop (stop - start) start stop step.

(** ** get_reel_segments, line 45: the windows *)

Definition WINDOW : nat := 1000.

(** [[transcript[i:i+1000] for i in range(0, len(transcript), 1000)]] *)
Definition chunks_of (transcript : str) : list str :=
  map (fun i => py_slice transcript i (i + WINDOW))
      (py_range 0 (length transcript) WINDOW).

(** [ceil(a / b)] on naturals. *)
Definition ceil_div (a b : nat) : nat := (a + b - 1) / b.

(** ** More of Python's built-ins *)

Definition str_eqb (a b : str) : bool :=
  if list_eq_dec N.eq_dec a b then true else false.

Arguments str_eqb : simpl never.

(** [str.isspace] for one code point: the characters [str.strip()] removes. *)
Definition py_isspace (c : char) : bool :=
  ((9 <=? c) && (c <=? 13) || (28 <=? c) && (c <=? 32) ||
   (c =? 133) || (c =? 160) || (c =? 5760) ||
   (8192 <=? c) && (c <=? 8202) || (c =? 8232) || (c =? 8233) ||
   (c =? 8239) || (c =? 8287) || (c =? 12288))%N.

Fixpoint py_lstrip (s : str) : str :=
  match s with
  | c :: s' => if py_isspace c then py_lstrip s' else s
  | [] => []
  end.

Definition py_rstrip (s : str) : str := rev (py_lstrip (rev s)).

(** [s.strip()] *)
Definition py_strip (s : str) : str := py_rstrip (py_lstrip s).

(** Decimal digits of a natural number. *)
Definition decimal (n : N) : str :=
  lit (NilZero.string_of_uint (N.to_uint n)).

(** [str(z)], which is also what [f"{z}"] prints. *)
Definition py_str_int (z : Z) : str :=
  if (z <? 0)%Z then lit "-" ++ decimal (Z.to_N (- z))
  else decimal (Z.to_N z).

(** [f"{z:0w}"]: zero padding to width [w], the sign counted in the width
    and written before the zeros. *)
Definition py_format_zero (w : nat) (z : Z) : str :=
  let digits := decimal (Z.to_N (Z.abs z)) in
  if (z <? 0)%Z
  then lit "-" ++ repeat 48%N (w - 1 - List.length digits) ++ digits
  else repeat 48%N (w - List.length digits) ++ digits.

(** [divmod(a, b)] for [b > 0]. *)
Definition py_divmod (a b : Z) : Z * Z := ((a / b)%Z, (a mod b)%Z).

(** [enumerate(l, start)] *)
Fixpoint py_enumerate {A : Type} (l : list A) (start : Z) : list (Z * A) :=
  match l with
  | [] => []
  | x :: l' => (start, x) :: py_enumerate l' (start + 1)%Z
  end.

(** A dict with string keys, in insertion order. *)
Definition dict (V : Type) := list (str * V).

Fixpoint dict_get {V : Type} (d : dict V) (k : str) : option V :=
  match d with
  | [] => None
  | (k', v) :: d' => if str_eqb k k' then Some v else dict_get d' k
  end.

(** ** format_timestamp, lines 39-42 *)

Definition format_timestamp (seconds : Z) : str :=
  let '(m, s) := py_divmod seconds 60 in
  let '(h, m) := py_divmod m 60 in
  py_format_zero 2 h ++ lit ":" ++ py_format_zero 2 m ++ lit ":" ++
  py_format_zero 2 s.

(** ** The file tree under TEMP_DIR *)

(** A file is either removable or locked: [os.remove] on a locked file raises
    PermissionError.  A directory lists its entries in the order in which
    [os.scandir] reports them. *)
Inductive node : Type :=
| File (locked : bool)
| Dir (entries : list (str * node)).

Notation directory := (list (str * node)) (only parsing).

Definition is_dir (n : node) : bool :=
  match n with Dir _ => true | File _ => false end.

Fixpoint lookup (d : directory) (name : str) : option node :=
  match d with
  | [] => None
  | (k, n) :: d' => if str_eqb name k then Some n else lookup d' name
  end.

Definition unlink (d : directory) (name : str) : directory :=
  filter (fun e => negb (str_eqb name (fst e))) d.

(** ** Exceptions *)

(** What [ffmpeg.Error] carries. *)
Record ffmpeg_error := { stderr : option str; message : str }.

Inductive exn : Type :=
| ServiceError (msg : str)        (* raised inside whisper or transformers *)
| FfmpegError (e : ffmpeg_error)  (* ffmpeg.Error *)
| IndexError
| KeyError (key : str)
| ValueError
| ZeroDivisionError
| PermissionError (path : str)
| FileNotFoundError (path : str)
| IsADirectoryError (path : str)
| NotADirectoryError (path : str)
| DirectoryNotEmpty (path : str)  (* OSError, errno ENOTEMPTY *)
| StopException.                  (* st.stop(); derives from BaseException *)

(** [except Exception] *)
Definition is_Exception (e : exn) : bool :=
  match e with StopException => false | _ => true end.

(** [except OSError] *)
Definition is_OSError (e : exn) : bool :=
  match e with
  | PermissionError _ | FileNotFoundError _ | IsADirectoryError _
  | NotADirectoryError _ | DirectoryNotEmpty _ => true
  | _ => false
  end.

(** [except PermissionError] *)
Definition is_PermissionError (e : exn) : bool :=
  match e with PermissionError _ => true | _ => false end.

(** [except ffmpeg.Error] *)
Definition is_FfmpegError (e : exn) : bool :=
  match e with FfmpegError _ => true | _ => false end.

(** [str(e)] *)
Definition exn_str (e : exn) : str :=
  match e with
  | ServiceError msg => msg
  | FfmpegError fe => message fe
  | IndexError => lit "list index out of range"
  | KeyError k => lit "'" ++ k ++ lit "'"
  | ValueError => lit "max() arg is an empty sequence"
  | ZeroDivisionError => lit "integer division or modulo by zero"
  | PermissionError p => lit "[Errno 13] Permission denied: '" ++ p ++ lit "'"
  | FileNotFoundError p =>
      lit "[Errno 2] No such file or directory: '" ++ p ++ lit "'"
  | IsADirectoryError p => lit "[Errno 21] Is a directory: '" ++ p ++ lit "'"
  | NotADirectoryError p => lit "[Errno 20] Not a directory: '" ++ p ++ lit "'"
  | DirectoryNotEmpty p => lit "[Errno 39] Directory not empty: '" ++ p ++ lit "'"
  | StopException => []
  end.

(** [a // b] on integers. *)
Definition py_floordiv (a b : Z) : exn + Z :=
  if (b =? 0)%Z then inl ZeroDivisionError else inr (a / b)%Z.

(** [l[i]] for [i >= 0]. *)
Definition py_index {A : Type} (l : list A) (i : nat) : exn + A :=
  match nth_error l i with Some x => inr x | None => inl IndexError end.

(** [d[k]] *)
Definition py_getitem {V : Type} (d : dict V) (k : str) : exn + V :=
  match dict_get d k with Some v => inr v | None => inl (KeyError k) end.

(** ** Requests to the external services *)

(** [summarizer(text, max_length=, min_length=, do_sample=)] *)
Record summary_request := {
  text : str;
  max_length : Z;
  min_length : Z;
  do_sample : bool
}.

(** [ffmpeg.input(i).output(o, **kwargs).run(overwrite_output=)] *)
Record ffmpeg_request := {
  input : str;
  output : str;
  kwargs : dict str;
  overwrite_output : bool
}.

(** [model.transcribe(path, language=, fp16=)] *)
Record transcribe_request := {
  audio_path : str;
  language : str;
  fp16 : bool
}.

(** The services are opaque: each call sees and updates a state [ext] of the
    outside world, and either returns or raises with a message.  ffmpeg also
    sees and updates the files under TEMP_DIR ([None]: the directory does not
    exist).  [os_makedirs_fault] tells whether creating TEMP_DIR would fail. *)
Class Services (ext : Type) := {
  audio : Type;
  mel : Type;
  prob : Type;
  prob_ltb : prob -> prob -> bool;
  summarizer : summary_request -> ext -> ext * (str + list (dict str));
  ffmpeg_run : ffmpeg_request -> ext -> option directory ->
               ext * option directory * (ffmpeg_error + unit);
  load_audio : str -> ext -> ext * (str + audio);
  pad_or_trim : audio -> ext -> ext * (str + audio);
  log_mel_spectrogram : audio -> ext -> ext * (str + mel);
  detect_language : mel -> ext -> ext * (str + dict prob);
  transcribe : transcribe_request -> ext -> ext * (str + dict str);
  os_makedirs_fault : ext -> bool
}.

(** Everything the application does to the outside, in order. *)
Inductive event : Type :=
| st_info (body : str)
| st_success (body : str)
| st_warning (body : str)
| st_error (body : str)
| st_text (body : str)
| st_text_area (label value : str)
| st_download_button (label data file_name : str)
| st_video (path : str)
| slot_empty
| summarizer_called (req : summary_request)
| ffmpeg_called (req : ffmpeg_request)
| load_audio_called (path : str)
| detect_language_called
| transcribe_called (req : transcribe_request)
| file_written (name : str).

Record world (ext : Type) := {
  outside : ext;
  temp : option directory;
  trace : list event
}.

(** ** The state-and-exception monad *)

Definition M (ext A : Type) : Type := world ext -> world ext * (exn + A).

Definition ret {ext A : Type} (x : A) : M ext A := fun w => (w, inr x).

Definition raise {ext A : Type} (e : exn) : M ext A := fun w => (w, inl e).

Definition bind {ext A B : Type} (m : M ext A) (k : A -> M ext B) : M ext B :=
  fun w =>
    match m w with
    | (w', inr x) => k x w'
    | (w', inl e) => (w', inl e)
    end.

Definition lift {ext A : Type} (r : exn + A) : M ext A := fun w => (w, r).

(** [try: body  except <class> as e: handler e] *)
Definition try_except {ext A : Type} (body : M ext A) (class : exn -> bool)
  (handler : exn -> M ext A) : M ext A :=
  fun w =>
    match body w with
    | (w', inl e) => if class e then handler e w' else (w', inl e)
    | r => r
    end.

Definition emit {ext : Type} (e : event) : M ext unit :=
  fun w => ({| outside := outside w; temp := temp w;
               trace := trace w ++ [e] |}, inr tt).

Declare Scope monad_scope.
Delimit Scope monad_scope with monad.
Notation "x <- m ;; k" := (bind m (fun x => k))
  (at level 61, m at next level, right associativity) : monad_scope.
Notation "m ;; k" := (bind m (fun _ => k))
  (at level 61, right associativity) : monad_scope.
Open Scope monad_scope.

(** * The application *)

Section App.

Context {ext : Type} `{Svc : Services ext}.

(** A fault raised inside a service reaches the caller as an exception. *)
Definition service_result {A : Type} (r : str + A) : exn + A :=
  match r with inl msg => inl (ServiceError msg) | inr x => inr x end.

(** ** get_reel_segments, lines 44-62 *)

Definition call_summarizer (req : summary_request) : M ext (list (dict str)) :=
  fun w =>
    let '(o, r) := summarizer req (outside w) in
    ({| outside := o; temp := temp w;
        trace := trace w ++ [summarizer_called req] |}, service_result r).

(** The arguments of the call of line 49. *)
Definition summary_request_of (chunk : str) : summary_request :=
  {| text := chunk; max_length := 100; min_length := 30;
     do_sample := false |}.

(** Lines 48-50: one summary per window, appended to [highlights]. *)
Fixpoint summarize_chunks (chunks : list str) (highlights : list str)
  : M ext (list str) :=
  match chunks with
  | [] => ret highlights
  | chunk :: rest =>
      summary <- call_summarizer (summary_request_of chunk) ;;
      first <- lift (py_index summary 0) ;;
      point <- lift (py_getitem first (lit "summary_text")) ;;
      summarize_chunks rest (highlights ++ [point])
  end.

(** One entry of the timeline: the values that line 59 prints. *)
Record HighlightPoint := {
  ordinal : Z;
  start_offset : Z;
  end_offset : Z;
  summary_text : str
}.

(** The line that the f-string of line 59 builds. *)
Definition format_point (p : HighlightPoint) : str :=
  py_str_int (ordinal p) ++ lit ". " ++
  format_timestamp (start_offset p) ++ lit " - " ++
  format_timestamp (end_offset p) ++ lit ": " ++
  summary_text p ++ [10%N].

(** The variables of the loop of lines 57-60; [timeline] records the points
    in the order in which they are printed. *)
Record loop_state := {
  start_time : Z;
  formatted : str;
  timeline : list HighlightPoint
}.

(** Lines 58-60. *)
Definition loop_body (time_step : Z) (st : loop_state) (ip : Z * str)
  : loop_state :=
  let '(i, point) := ip in
  let end_time := (start_time st + 30)%Z in
  let p := {| ordinal := i; start_offset := start_time st;
              end_offset := end_time; summary_text := py_strip point |} in
  {| start_time := (start_time st + time_step)%Z;
     formatted := formatted st ++ format_point p;
     timeline := timeline st ++ [p] |}.

(** Lines 45-60, up to the final state of the loop. *)
Definition reel_loop (transcript : str) (video_duration_secs : Z)
  : M ext loop_state :=
  let chunks := chunks_of transcript in
  highlights <- summarize_chunks chunks [] ;;
  let total_segments := Nat.min 5 (List.length highlights) in
  time_step <- lift (py_floordiv video_duration_secs
                       (Z.of_nat total_segments + 1)) ;;
  ret (fold_left (loop_body time_step)
         (py_enumerate (py_prefix highlights total_segments) 1)
         {| start_time := time_step; formatted := []; timeline := [] |}).

Definition get_reel_segments (transcript : str) (video_duration_secs : Z)
  : M ext str :=
  st <- reel_loop transcript video_duration_secs ;;
  ret (formatted st).

(** The ordered HighlightPoint sequence of the same run. *)
Definition get_reel_points (transcript : str) (video_duration_secs : Z)
  : M ext (list HighlightPoint) :=
  st <- reel_loop transcript video_duration_secs ;;
  ret (timeline st).

(** Lines 188-195: the call with the default duration, and its handler. *)
Definition extract_highlights (transcript : str) : M ext unit :=
  emit (st_info ([10024%N] ++
          lit " Analyzing transcript for engaging reel segments...")) ;;
  try_except
    (highlights <- get_reel_segments transcript 600 ;;
     emit (st_success ([9989%N] ++ lit " Highlighted Moments Extracted:")) ;;
     emit (st_text_area ([127775%N] ++ lit " Reel-Worthy Moments")
             highlights))
    is_Exception
    (fun e =>
       emit (st_error ([10060%N] ++
               lit " Failed to extract highlight moments.")) ;;
       emit (st_text (exn_str e))).

End App.

(** ** Files below TEMP_DIR *)

(** A path below TEMP_DIR is given by its name relative to TEMP_DIR;
    [in_temp] is the path the source builds with [os.path.join]. *)
Definition TEMP_DIR : str := lit "temp".
Definition in_temp (name : str) : str := TEMP_DIR ++ lit "/" ++ name.

Definition VERTICAL_NAME : str := lit "vertical_output.mp4".
Definition VERTICAL_VIDEO : str := in_temp VERTICAL_NAME.
Definition CHUNK_PATTERN : str := in_temp (lit "chunk_%03d.mp4").
Definition CHUNK_GLOB : str := lit "chunk_*.mp4".

(** [os.remove] of an entry of directory [d]. *)
Definition remove_entry (d : directory) (name : str) : exn + directory :=
  match lookup d name with
  | None => inl (FileNotFoundError name)
  | Some (Dir _) => inl (IsADirectoryError name)
  | Some (File true) => inl (PermissionError name)
  | Some (File false) => inr (unlink d name)
  end.

(** [os.rmdir] of an entry of directory [d]. *)
Definition rmdir_entry (d : directory) (name : str) : exn + directory :=
  match lookup d name with
  | None => inl (FileNotFoundError name)
  | Some (File _) => inl (NotADirectoryError name)
  | Some (Dir []) => inr (unlink d name)
  | Some (Dir (_ :: _)) => inl (DirectoryNotEmpty name)
  end.

(** Replace the entry [name] of [d]. *)
Fixpoint replace_entry (d : directory) (name : str) (n : node) : directory :=
  match d with
  | [] => []
  | (k, m) :: d' =>
      if str_eqb name k then (k, n) :: d'
      else (k, m) :: replace_entry d' name n
  end.

(** [fnmatch] for a pattern made of literal characters and [*]. *)
Fixpoint fnmatch (pat : str) : str -> bool :=
  match pat with
  | [] => fun name => match name with [] => true | _ :: _ => false end
  | c :: pat' =>
      if (c =? 42)%N then
        fix star (name : str) : bool :=
          fnmatch pat' name ||
          match name with [] => false | _ :: name' => star name' end
      else
        fun name =>
          match name with
          | [] => false
          | x :: name' => (c =? x)%N && fnmatch pat' name'
          end
  end.

(** Python's order on strings: lexicographic on code points. *)
Fixpoint str_leb (a b : str) : bool :=
  match a, b with
  | [], _ => true
  | _ :: _, [] => false
  | x :: a', y :: b' =>
      if (x <? y)%N then true
      else if (y <? x)%N then false
      else str_leb a' b'
  end.

Fixpoint insert_sorted (x : str) (l : list str) : list str :=
  match l with
  | [] => [x]
  | y :: l' => if str_leb x y then x :: l else y :: insert_sorted x l'
  end.

(** [sorted(l)] *)
Definition py_sorted (l : list str) : list str :=
  fold_right insert_sorted [] l.

Section Files.

Context {ext : Type} `{Svc : Services ext}.

Definition set_temp (t : option directory) : M ext unit :=
  fun w => ({| outside := outside w; temp := t; trace := trace w |}, inr tt).

Definition get_temp : M ext (option directory) :=
  fun w => (w, inr (temp w)).

(** [for x in l: body x] *)
Fixpoint for_each {A : Type} (l : list A) (body : A -> M ext unit)
  : M ext unit :=
  match l with
  | [] => ret tt
  | x :: l' => body x ;; for_each l' body
  end.

(** [os.path.exists(os.path.join(TEMP_DIR, name))] *)
Definition os_path_exists (name : str) : M ext bool :=
  t <- get_temp ;;
  ret match t with
      | Some d => match lookup d name with Some _ => true | None => false end
      | None => false
      end.

(** [glob.glob(os.path.join(TEMP_DIR, pattern))], as names. *)
Definition glob (pattern : str) : M ext (list str) :=
  t <- get_temp ;;
  ret match t with
      | Some d => filter (fnmatch pattern) (map fst d)
      | None => []
      end.

(** Run a directory operation on TEMP_DIR. *)
Definition on_temp (op : directory -> exn + directory) (name : str)
  : M ext unit :=
  t <- get_temp ;;
  match t with
  | None => raise (FileNotFoundError name)
  | Some d => d' <- lift (op d) ;; set_temp (Some d')
  end.

(** [os.remove(os.path.join(<current root>, name))] *)
Definition os_remove (name : str) : M ext unit :=
  on_temp (fun d => remove_entry d name) name.

(** [os.rmdir(os.path.join(<current root>, name))] *)
Definition os_rmdir (name : str) : M ext unit :=
  on_temp (fun d => rmdir_entry d name) name.

(** [with open(os.path.join(TEMP_DIR, name), "w") as f: f.write(...)];
    the contents of files are not modelled. *)
Definition write_file (name : str) : M ext unit :=
  t <- get_temp ;;
  match t with
  | None => raise (FileNotFoundError name)
  | Some d =>
      match lookup d name with
      | None => set_temp (Some (d ++ [(name, File false)]))
      | Some (File false) => ret tt
      | Some (File true) => raise (PermissionError name)
      | Some (Dir _) => raise (IsADirectoryError name)
      end ;;
      emit (file_written name)
  end.

Definition call_ffmpeg (req : ffmpeg_request) : M ext unit :=
  fun w =>
    let '(o, t, r) := ffmpeg_run req (outside w) (temp w) in
    ({| outside := o; temp := t; trace := trace w ++ [ffmpeg_called req] |},
     match r with inl e => inl (FfmpegError e) | inr _ => inr tt end).

(** ** The chunk button, lines 125-155 *)

(** [e.stderr.decode('utf-8') if e.stderr else str(e)]: empty output counts
    as none. *)
Definition ffmpeg_error_text (e : exn) : str :=
  match e with
  | FfmpegError {| stderr := Some (c :: err) |} => c :: err
  | _ => exn_str e
  end.

(** The ffmpeg call of lines 139-144. *)
Definition split_request : ffmpeg_request :=
  {| input := VERTICAL_VIDEO;
     output := CHUNK_PATTERN;
     kwargs := [(lit "f", lit "segment");
                (lit "segment_time", lit "30");
                (lit "c", lit "copy")];
     overwrite_output := true |}.

Definition chunk_handler : M ext unit :=
  emit (st_info ([9986%N] ++
          lit " Splitting vertical video into 30-second chunks...")) ;;
  present <- os_path_exists VERTICAL_NAME ;;
  (if negb present then
     emit (st_error ([10060%N] ++ lit " Reel format video not found. Please run 'Extract Audio & Convert Video to Reel Format' first.")) ;;
     raise StopException
   else ret tt) ;;
  try_except
    (old <- glob CHUNK_GLOB ;;
     for_each old (fun f =>
       try_except (os_remove f) is_Exception (fun _ => ret tt)) ;;
     call_ffmpeg split_request ;;
     found <- glob CHUNK_GLOB ;;
     let chunks := py_sorted found in
     emit (st_success ([9989%N] ++ lit " Created " ++
             py_str_int (Z.of_nat (List.length chunks)) ++
             lit " chunks.")) ;;
     for_each chunks (fun chunk => emit (st_video (in_temp chunk))))
    is_FfmpegError
    (fun e =>
       emit (st_error ([10060%N] ++ lit " Chunking failed:")) ;;
       emit (st_text (ffmpeg_error_text e))).

(** ** safe_delete_dir, lines 16-31 *)

(** Run [m] on the subdirectory [name] of the current root and put the
    subdirectory it leaves back in place: the recursive call of [os.walk].
    A name that is not a directory is skipped, as [os.walk] ignores the
    error of [os.scandir]. *)
Definition in_subdir (name : str) (m : M ext unit) : M ext unit :=
  fun w =>
    match temp w with
    | Some d =>
        match lookup d name with
        | Some (Dir sub) =>
            let '(w', r) :=
              m {| outside := outside w; temp := Some sub;
                   trace := trace w |} in
            ({| outside := outside w';
                temp := Some (replace_entry d name
                                (Dir match temp w' with
                                     | Some sub' => sub'
                                     | None => []
                                     end));
                trace := trace w' |}, r)
        | _ => (w, inr tt)
        end
    | None => (w, inr tt)
    end.

Definition file_names (d : directory) : list str :=
  map fst (filter (fun e => negb (is_dir (snd e))) d).

Definition dir_names (d : directory) : list str :=
  map fst (filter (fun e => is_dir (snd e)) d).

(** Lines 18-27 for one [(root, dirs, files)] of the walk. *)
Definition delete_in_root (dirs files : list str) : M ext unit :=
  for_each files (fun name =>
    try_except (os_remove name) is_PermissionError
      (fun _ => emit (st_warning ([9888%N] ++ lit " Skipped locked file: "
                                    ++ name)))) ;;
  for_each dirs (fun name =>
    try_except (os_rmdir name) is_OSError (fun _ => ret tt)).

(** Lines 17-27.  [os.walk(path, topdown=False)] lists a directory, walks
    its subdirectories, and only then yields the directory itself; the body
    of the loop runs at each yield.  [d] is the listing of the current
    root. *)
Fixpoint walk_delete_node (n : node) : M ext unit :=
  match n with
  | File _ => ret tt
  | Dir d =>
      (fix subdirs (es : directory) : M ext unit :=
         match es with
         | [] => ret tt
         | (name, c) :: es' =>
             match c with
             | Dir _ => in_subdir name (walk_delete_node c)
             | File _ => ret tt
             end ;;
             subdirs es'
         end) d ;;
      delete_in_root (dir_names d) (file_names d)
  end.

Definition walk_delete (d : directory) : M ext unit :=
  walk_delete_node (Dir d).

Definition safe_delete_dir : M ext unit :=
  t <- get_temp ;;
  match t with
  | Some d => walk_delete d
  | None => ret tt
  end ;;
  try_except
    (t <- get_temp ;;
     match t with
     | Some [] => set_temp None
     | Some (_ :: _) => raise (DirectoryNotEmpty TEMP_DIR)
     | None => raise (FileNotFoundError TEMP_DIR)
     end)
    is_OSError (fun _ => ret tt).

(** [os.makedirs(TEMP_DIR, exist_ok=True)] *)
Definition os_makedirs_temp : M ext unit :=
  t <- get_temp ;;
  match t with
  | Some _ => ret tt
  | None =>
      fun w =>
        if os_makedirs_fault (outside w)
        then (w, inl (PermissionError TEMP_DIR))
        else set_temp (Some []) w
  end.

(** ** The clean button, lines 201-211.  [time.sleep] has no effect here. *)
Definition clean_handler (chunk_video_slots : nat) : M ext unit :=
  emit slot_empty ;;
  for_each (repeat tt chunk_video_slots) (fun _ => emit slot_empty) ;;
  try_except
    (safe_delete_dir ;;
     os_makedirs_temp ;;
     emit (st_success ([129529%N] ++ lit " Temporary files cleaned.")))
    is_Exception
    (fun e =>
       emit (st_error ([10060%N] ++ lit " Failed to clean temp files: "
                         ++ exn_str e))).

(** ** The transcription loop, lines 162-199 *)

(** A call of a whisper function that leaves no mark but its result. *)
Definition call_service {A : Type} (ev : list event)
  (f : ext -> ext * (str + A)) : M ext A :=
  fun w =>
    let '(o, r) := f (outside w) in
    ({| outside := o; temp := temp w; trace := trace w ++ ev |},
     service_result r).

Fixpoint max_from (best : str * prob) (rest : dict prob) : str :=
  match rest with
  | [] => fst best
  | (k, v) :: rest' =>
      if prob_ltb (snd best) v then max_from (k, v) rest'
      else max_from best rest'
  end.

(** [max(probs, key=probs.get)] *)
Definition py_max_key (probs : dict prob) : exn + str :=
  match probs with
  | [] => inl ValueError
  | kv :: rest => inr (max_from kv rest)
  end.

(** The arguments of the call of line 178. *)
Definition transcribe_request_of (file_path : str) : transcribe_request :=
  {| audio_path := file_path; language := lit "en"; fp16 := false |}.

(** Lines 163-199 for one uploaded audio file, named [name]. *)
Definition transcribe_audio (name : str) : M ext unit :=
  let file_path := in_temp name in
  write_file name ;;
  emit (st_info ([128221%N] ++ lit " Transcribing " ++ name ++
                   lit " using Whisper...")) ;;
  try_except
    (emit (st_info ([127760%N] ++ lit " Detecting language...")) ;;
     audio_loaded <- call_service [load_audio_called file_path]
                       (load_audio file_path) ;;
     audio_loaded <- call_service [] (pad_or_trim audio_loaded) ;;
     mel <- call_service [] (log_mel_spectrogram audio_loaded) ;;
     probs <- call_service [detect_language_called] (detect_language mel) ;;
     detected_lang <- lift (py_max_key probs) ;;
     emit (st_success ([9989%N] ++ lit " Detected Language: " ++
                         detected_lang)) ;;
     let req := transcribe_request_of file_path in
     result <- call_service [transcribe_called req] (transcribe req) ;;
     transcript <- lift (py_getitem result (lit "text")) ;;
     write_file (name ++ lit ".txt") ;;
     emit (st_success ([9989%N] ++ lit " Transcript for " ++ name ++
                         lit " generated.")) ;;
     emit (st_download_button
             ([11015%N] ++ lit " Download Transcript (" ++ name ++ lit ")")
             transcript (name ++ lit ".txt")) ;;
     emit (st_text_area
             ([128220%N] ++ lit " Transcript Preview: " ++ name)
             transcript) ;;
     extract_highlights transcript)
    is_Exception
    (fun e =>
       emit (st_error ([10060%N] ++ lit " Failed to transcribe " ++ name)) ;;
       emit (st_text (exn_str e))).

(** [for audio in uploaded_audios: ...] *)
Definition transcribe_all (uploaded_audios : list str) : M ext unit :=
  for_each uploaded_audios transcribe_audio.

End Files.

(** * Vocabulary of the properties *)

Definition is_ZeroDivisionError (e : exn) : bool :=
  match e with ZeroDivisionError => true | _ => false end.

(** The exceptions that lines 49-50 can raise. *)
Definition from_summary (e : exn) : bool :=
  match e with
  | ServiceError _ | IndexError | KeyError _ => true
  | _ => false
  end.

Definition is_summarizer_call (ev : event) : bool :=
  match ev with summarizer_called _ => true | _ => false end.

Definition is_ffmpeg_call (ev : event) : bool :=
  match ev with ffmpeg_called _ => true | _ => false end.

Definition is_text_area (ev : event) : bool :=
  match ev with st_text_area _ _ => true | _ => false end.

Definition is_warning (ev : event) : bool :=
  match ev with st_warning _ => true | _ => false end.

Definition is_transcribe_call (ev : event) : bool :=
  match ev with transcribe_called _ => true | _ => false end.

(** A transcription, if the event is one, is requested in English. *)
Definition transcribes_in_english (ev : event) : Prop :=
  match ev with
  | transcribe_called req => language req = lit "en"
  | _ => True
  end.

(** [os.remove] succeeds on this node. *)
Definition is_removable (n : node) : bool :=
  match n with File false => true | _ => false end.

(** TEMP_DIR without its removable entries that match the chunk pattern. *)
Definition cleared (d : directory) : directory :=
  filter (fun e => negb (fnmatch CHUNK_GLOB (fst e) && is_removable (snd e)))
         d.

(** [m] only appends to the trace, and every event it appends satisfies
    [P]. *)
Definition adds_only {ext A : Type} (P : event -> Prop) (m : M ext A)
  : Prop :=
  forall w, exists evs, trace (fst (m w)) = trace w ++ evs /\ Forall P evs.

Definition strictly_increasing (l : list Z) : Prop :=
  forall i j, i < j < List.length l -> (nth i l 0 < nth j l 0)%Z.

(** The points that the loop of lines 57-60 produces from the summaries [l],
    counting from ordinal [i] and start offset [s]. *)
Fixpoint points_from (time_step : Z) (l : list str) (i s : Z)
  : list HighlightPoint :=
  match l with
  | [] => []
  | point :: l' =>
      {| ordinal := i; start_offset := s; end_offset := s + 30;
         summary_text := py_strip point |}
      :: points_from time_step l' (i + 1) (s + time_step)
  end.

(** The state in which the loop ends when the summaries are [highlights]. *)
Definition final_state (highlights : list str) (video_duration_secs : Z)
  : loop_state :=
  let total_segments := Nat.min 5 (List.length highlights) in
  let time_step := (video_duration_secs / (Z.of_nat total_segments + 1))%Z in
  {| start_time := time_step + Z.of_nat total_segments * time_step;
     formatted := concat (map format_point
                    (points_from time_step
                       (py_prefix highlights total_segments) 1 time_step));
     timeline := points_from time_step
                   (py_prefix highlights total_segments) 1 time_step |}.

Section Faults.

Context {ext : Type} `{Svc : Services ext}.

(** The message of the first fault of the summarization service when it is
    called on the windows one after the other, from the outside state [o]. *)
Fixpoint first_fault (chunks : list str) (o : ext) : option str :=
  match chunks with
  | [] => None
  | chunk :: rest =>
      match summarizer (summary_request_of chunk) o with
      | (_, inl msg) => Some msg
      | (o', inr _) => first_fault rest o'
      end
  end.

(** Every window gets an answer from which line 50 can take the summary. *)
Fixpoint all_summarized (chunks : list str) (o : ext) : bool :=
  match chunks with
  | [] => true
  | chunk :: rest =>
      match summarizer (summary_request_of chunk) o with
      | (o', inr summary) =>
          match py_index summary 0 with
          | inr first =>
              match py_getitem first (lit "summary_text") with
              | inr _ => all_summarized rest o'
              | inl _ => false
              end
          | inl _ => false
          end
      | (_, inl _) => false
      end
  end.

End Faults.

(** What is left of a tree once every removable file and every directory
    that became empty is deleted. *)
Fixpoint survivors_node (n : node) : node :=
  match n with
  | File l => File l
  | Dir d =>
      Dir ((fix go (es : directory) : directory :=
              match es with
              | [] => []
              | (name, c) :: es' =>
                  match survivors_node c with
                  | File false | Dir [] => go es'
                  | c' => (name, c') :: go es'
                  end
              end) d)
  end.

Definition survivors (d : directory) : directory :=
  match survivors_node (Dir d) with Dir d' => d' | File _ => [] end.

(** ** Vocabulary of the cleanup *)

Definition is_empty_dir (n : node) : bool :=
  match n with Dir [] => true | _ => false end.

(** The files directly in [d], with their lock. *)
Definition own_files (d : directory) : list (str * bool) :=
  flat_map (fun e => match snd e with
                     | File l => [(fst e, l)]
                     | Dir _ => []
                     end) d.

(** The files of a tree in the order in which the walk meets them. *)
Fixpoint all_files_node (n : node) : list (str * bool) :=
  match n with
  | File _ => []
  | Dir d =>
      (fix below (es : directory) : list (str * bool) :=
         match es with
         | [] => []
         | (_, c) :: es' => all_files_node c ++ below es'
         end) d ++ own_files d
  end.

Definition all_files (d : directory) : list (str * bool) :=
  all_files_node (Dir d).

Definition all_files_below (es : directory) : list (str * bool) :=
  flat_map (fun e => all_files_node (snd e)) es.

(** The names of the locked files of a tree, in the same order. *)
Definition locked_files (d : directory) : list str :=
  map fst (filter snd (all_files d)).

(** In every directory of the tree the names are distinct. *)
Fixpoint well_formed_node (n : node) : Prop :=
  match n with
  | File _ => True
  | Dir d =>
      NoDup (map fst d) /\
      (fix each (es : directory) : Prop :=
         match es with
         | [] => True
         | (_, c) :: es' => well_formed_node c /\ each es'
         end) d
  end.

Definition well_formed (d : directory) : Prop := well_formed_node (Dir d).

(** A directory whose subdirectories have been walked. *)
Definition children_done (d : directory) : directory :=
  map (fun e => (fst e, survivors_node (snd e))) d.

Definition keep_files (d : directory) : directory :=
  filter (fun e => negb (is_removable (snd e))) d.

Definition keep_dirs (d : directory) : directory :=
  filter (fun e => negb (is_empty_dir (snd e))) d.

(** The warning of line 22. *)
Definition skipped_warning (name : str) : event :=
  st_warning ([9888%N] ++ lit " Skipped locked file: " ++ name).

(** Induction on trees: a property of the entries gives it for the
    directory. *)
Fixpoint node_induction (P : node -> Prop)
  (HF : forall l, P (File l))
  (HD : forall d, Forall (fun e => P (snd e)) d -> P (Dir d))
  (n : node) : P n :=
  match n with
  | File l => HF l
  | Dir d =>
      HD d ((fix each (es : directory) : Forall (fun e => P (snd e)) es :=
               match es with
               | [] => Forall_nil _
               | (name, c) :: es' =>
                   Forall_cons (name, c) (node_induction P HF HD c) (each es')
               end) d)
  end.

Section WalkParts.

Context {ext : Type} `{Svc : Services ext}.

(** The walk of the subdirectories listed in [es]. *)
Fixpoint walk_subdirs (es : directory) : M ext unit :=
  match es with
  | [] => ret tt
  | (name, c) :: es' =>
      match c with
      | Dir _ => in_subdir name (walk_delete_node c)
      | File _ => ret tt
      end ;;
      walk_subdirs es'
  end.

(** What the walk does to a well-formed tree: it leaves the survivors,
    warns once per locked file, and raises nothing. *)
Definition walk_spec (n : node) : Prop :=
  match n with
  | File _ => True
  | Dir d =>
      forall w : world ext,
        temp w = Some d ->
        walk_delete_node (Dir d) w =
        ({| outside := outside w;
            temp := Some (survivors d);
            trace := trace w ++ map skipped_warning (locked_files d) |},
         inr tt)
  end.

End WalkParts.

(** ** A test double for the services *)

Module Stub.

(** The summarizer refuses a window that starts with an exclamation mark
    and otherwise answers with the first three characters of the window
    between blanks; ffmpeg always fails and touches nothing; whisper
    detects French. *)
#[global] Instance services : Services unit := {|
  audio := unit;
  mel := unit;
  prob := N;
  prob_ltb := N.ltb;
  summarizer := fun req o =>
    match text req with
    | 33%N :: _ => (o, inl (lit "model failure"))
    | t => (o, inr [[(lit "summary_text",
                       lit "  " ++ firstn 3 t ++ lit " ")]])
    end;
  ffmpeg_run := fun _ o t =>
    (o, t, inl {| stderr := Some (lit "Invalid data found");
                  message := lit "ffmpeg error" |});
  load_audio := fun _ o => (o, inr tt);
  pad_or_trim := fun a o => (o, inr a);
  log_mel_spectrogram := fun _ o => (o, inr tt);
  detect_language := fun _ o => (o, inr [(lit "en", 1%N); (lit "fr", 9%N)]);
  transcribe := fun _ o => (o, inr [(lit "text", lit "bonjour")]);
  os_makedirs_fault := fun _ => false
|}.

Definition world_of (t : option directory) : world unit :=
  {| outside := tt; temp := t; trace := [] |}.

End Stub.

(** * The rest of the script *)

(** The calls that only set up the page ([st.title], [st.header], the two
    [st.file_uploader] and [st.empty]) leave no event. *)

(** ** The extract button, lines 94-123 *)

Definition AUDIO_WAV_NAME : str := lit "audio.wav".
Definition AUDIO_MP3_NAME : str := lit "audio.mp3".
Definition AUDIO_WAV : str := in_temp AUDIO_WAV_NAME.
Definition AUDIO_MP3 : str := in_temp AUDIO_MP3_NAME.

(** [ffmpeg.input(input_path).output(out, **{'q:a': 0, 'map': 'a'})] *)
Definition audio_request (input_path out : str) : ffmpeg_request :=
  {| input := input_path;
     output := out;
     kwargs := [(lit "q:a", lit "0"); (lit "map", lit "a")];
     overwrite_output := true |}.

(** The ffmpeg call of lines 115-118. *)
Definition vertical_request (input_path : str) : ffmpeg_request :=
  {| input := input_path;
     output := VERTICAL_VIDEO;
     kwargs := [(lit "vf",
                 lit "scale=1080:-2,pad=1080:1920:(ow-iw)/2:(oh-ih)/2")];
     overwrite_output := true |}.

(** The models that the script loads: the summarization pipeline of line 37
    and the whisper model of line 160. *)
Class Loaders (ext : Type) := {
  load_summarizer : ext -> ext * (str + unit);
  load_model : str -> ext -> ext * (str + unit)
}.

Section Script.

Context {ext : Type} `{Svc : Services ext} `{Ld : Loaders ext}.

(** [open(os.path.join(TEMP_DIR, name), "rb")]: a file can be read whether
    or not it can be removed. *)
Definition open_read (name : str) : M ext unit :=
  t <- get_temp ;;
  match t with
  | None => raise (FileNotFoundError name)
  | Some d =>
      match lookup d name with
      | None => raise (FileNotFoundError name)
      | Some (Dir _) => raise (IsADirectoryError name)
      | Some (File _) => ret tt
      end
  end.

(** Lines 94-123, for the uploaded video saved at [input_path].  The data
    of the download button is the open file, given by its path. *)
Definition extract_handler (input_path : str) : M ext unit :=
  emit (st_info ([128266%N] ++ lit " Extracting audio (.wav)...")) ;;
  try_except
    (call_ffmpeg (audio_request input_path AUDIO_WAV) ;;
     emit (st_success ([9989%N] ++ lit " Audio extracted: audio.wav")))
    is_FfmpegError
    (fun e =>
       emit (st_error ([10060%N] ++ lit " WAV extraction failed:")) ;;
       emit (st_text (ffmpeg_error_text e))) ;;
  emit (st_info ([128266%N] ++
          lit " Extracting audio (.mp3) for Whisper...")) ;;
  try_except
    (call_ffmpeg (audio_request input_path AUDIO_MP3) ;;
     emit (st_success ([9989%N] ++ lit " Audio ready: audio.mp3")) ;;
     open_read AUDIO_MP3_NAME ;;
     emit (st_download_button ([11015%N] ++ lit " Download MP3") AUDIO_MP3
             (lit "audio.mp3")))
    is_FfmpegError
    (fun e =>
       emit (st_error ([10060%N] ++ lit " MP3 extraction failed:")) ;;
       emit (st_text (ffmpeg_error_text e))) ;;
  emit (st_info ([127909%N] ++
          lit " Converting to vertical (Reel) format 1080x1920...")) ;;
  try_except
    (call_ffmpeg (vertical_request input_path) ;;
     emit (st_success ([9989%N] ++
             lit " Reel format created: vertical_output.mp4")) ;;
     emit (st_video VERTICAL_VIDEO))
    is_FfmpegError
    (fun e =>
       emit (st_error ([10060%N] ++ lit " Reel conversion failed:")) ;;
       emit (st_text (ffmpeg_error_text e))).

(** Lines 125-155 once more, returning how many slots the handler appended
    to [chunk_video_slots]. *)
Definition chunk_handler_slots : M ext nat :=
  emit (st_info ([9986%N] ++
          lit " Splitting vertical video into 30-second chunks...")) ;;
  present <- os_path_exists VERTICAL_NAME ;;
  (if negb present then
     emit (st_error ([10060%N] ++ lit " Reel format video not found. Please run 'Extract Audio & Convert Video to Reel Format' first.")) ;;
     raise StopException
   else ret tt) ;;
  try_except
    (old <- glob CHUNK_GLOB ;;
     for_each old (fun f =>
       try_except (os_remove f) is_Exception (fun _ => ret tt)) ;;
     call_ffmpeg split_request ;;
     found <- glob CHUNK_GLOB ;;
     let chunks := py_sorted found in
     emit (st_success ([9989%N] ++ lit " Created " ++
             py_str_int (Z.of_nat (List.length chunks)) ++
             lit " chunks.")) ;;
     for_each chunks (fun chunk => emit (st_video (in_temp chunk))) ;;
     ret (List.length chunks))
    is_FfmpegError
    (fun e =>
       emit (st_error ([10060%N] ++ lit " Chunking failed:")) ;;
       emit (st_text (ffmpeg_error_text e)) ;;
       ret 0).

(** Lines 88-155: the upload is saved, then the button that was pressed
    runs. *)
Definition upload_block (name : str) (extract_pressed chunk_pressed : bool)
  : M ext nat :=
  write_file name ;;
  emit (st_success ([9989%N] ++ lit " File uploaded successfully.")) ;;
  (if extract_pressed then extract_handler (in_temp name) else ret tt) ;;
  (if chunk_pressed then chunk_handler_slots else ret 0).

(** Lines 157-199. *)
Definition audio_section (uploaded_audios : list str) : M ext unit :=
  match uploaded_audios with
  | [] => ret tt
  | _ :: _ =>
      call_service [] (load_model (lit "tiny")) ;;
      transcribe_all uploaded_audios
  end.

(** One run of the script: what was uploaded and which button is pressed
    are its inputs. *)
Definition script (uploaded_file : option str) (uploaded_audios : list str)
  (extract_pressed chunk_pressed clean_pressed : bool) : M ext unit :=
  call_service [] load_summarizer ;;
  os_makedirs_temp ;;
  chunk_video_slots <- match uploaded_file with
                       | Some name =>
                           upload_block name extract_pressed chunk_pressed
                       | None => ret 0
                       end ;;
  audio_section uploaded_audios ;;
  (if clean_pressed then clean_handler chunk_video_slots else ret tt).

End Script.

(** ** Vocabulary of the further properties *)

(** [m] raises nothing but exceptions that satisfy [P]. *)
Definition raises_only {ext A : Type} (P : exn -> Prop) (m : M ext A)
  : Prop :=
  forall w w' e, m w = (w', inl e) -> P e.

(** [m] keeps the property [I] of TEMP_DIR, whether it returns or raises. *)
Definition keeps {ext A : Type} (I : option directory -> Prop) (m : M ext A)
  : Prop :=
  forall w, I (temp w) -> I (temp (fst (m w))).

(** TEMP_DIR exists and holds nothing but removable files, under distinct
    names. *)
Definition only_plain_files (t : option directory) : Prop :=
  exists d, t = Some d /\ NoDup (map fst d) /\
            Forall (fun e => snd e = File false) d.

(** TEMP_DIR holds the removable file [name]. *)
Definition holds_file (name : str) (t : option directory) : Prop :=
  exists d, t = Some d /\ lookup d name = Some (File false).

Definition is_whisper_call (ev : event) : bool :=
  match ev with
  | load_audio_called _ | detect_language_called | transcribe_called _ => true
  | _ => false
  end.

(** The first character of [s], if any, is not a blank. *)
Definition starts_clean (s : str) : Prop :=
  match s with [] => True | c :: _ => py_isspace c = false end.

(** [i]-th point ends before the next one starts. *)
Definition disjoint_in_time (tl : list HighlightPoint) : Prop :=
  forall k, S k < List.length tl ->
    (nth k (map end_offset tl) 0 <= nth (S k) (map start_offset tl) 0)%Z.

(** The slots of chunk videos: [st.video] calls in a trace, and a
    computation whose result counts the ones it adds. *)
Definition is_video (e : event) : bool :=
  match e with st_video _ => true | _ => false end.

Definition videos_shown (tr : list event) : nat :=
  List.length (filter is_video tr).

Definition counts_videos {ext : Type} (m : M ext nat) : Prop :=
  forall w,
    videos_shown (trace (fst (m w))) =
    videos_shown (trace w) +
    match snd (m w) with inr n => n | inl _ => 0 end.

(** [m] is [m'] without its result. *)
Definition same_effect {ext A : Type} (m : M ext unit) (m' : M ext A)
  : Prop :=
  forall w,
    m w = (fst (m' w),
           match snd (m' w) with inl e => inl e | inr _ => inr tt end).

(** A second test double: ffmpeg succeeds, and the split leaves two chunks
    in TEMP_DIR, the later one listed first; the conversions leave
    audio.wav, audio.mp3 and the vertical video. *)
Definition splitting_services : Services unit := {|
  audio := unit;
  mel := unit;
  prob := N;
  prob_ltb := N.ltb;
  summarizer := fun req o => (o, inr [[(lit "summary_text", text req)]]);
  ffmpeg_run := fun req o t =>
    (o,
     option_map
       (fun d =>
          if str_eqb (output req) CHUNK_PATTERN
          then d ++ [(lit "chunk_001.mp4", File false);
                     (lit "chunk_000.mp4", File false)]
          else if str_eqb (output req) AUDIO_WAV
          then d ++ [(AUDIO_WAV_NAME, File false)]
          else if str_eqb (output req) AUDIO_MP3
          then d ++ [(AUDIO_MP3_NAME, File false)]
          else d ++ [(VERTICAL_NAME, File false)]) t,
     inr tt);
  load_audio := fun _ o => (o, inr tt);
  pad_or_trim := fun a o => (o, inr a);
  log_mel_spectrogram := fun _ o => (o, inr tt);
  detect_language := fun _ o => (o, inr [(lit "en", 9%N)]);
  transcribe := fun _ o => (o, inr [(lit "text", lit "hello")]);
  os_makedirs_fault := fun _ => false
|}.

(** A third test double: ffmpeg reports success and writes nothing. *)
Definition idle_services : Services unit := {|
  audio := unit;
  mel := unit;
  prob := N;
  prob_ltb := N.ltb;
  summarizer := fun req o => (o, inr [[(lit "summary_text", text req)]]);
  ffmpeg_run := fun _ o t => (o, t, inr tt);
  load_audio := fun _ o => (o, inr tt);
  pad_or_trim := fun a o => (o, inr a);
  log_mel_spectrogram := fun _ o => (o, inr tt);
  detect_language := fun _ o => (o, inr [(lit "en", 9%N)]);
  transcribe := fun _ o => (o, inr [(lit "text", lit "hello")]);
  os_makedirs_fault := fun _ => false
|}.

(** The models load. *)
#[global] Instance stub_loaders : Loaders unit := {|
  load_summarizer := fun o => (o, inr tt);
  load_model := fun _ o => (o, inr tt)
|}.

(** No model can be loaded. *)
Definition offline_loaders : Loaders unit := {|
  load_summarizer := fun o => (o, inl (lit "offline"));
  load_model := fun _ o => (o, inl (lit "offline"))
|}.

(** The summarization pipeline loads, the whisper model does not. *)
Definition no_whisper_loaders : Loaders unit := {|
  load_summarizer := fun o => (o, inr tt);
  load_model := fun _ o => (o, inl (lit "offline"))
|}.

(** * The built-ins on small inputs *)

Example format_timestamp_zero : format_timestamp 0 = lit "00:00:00".
Proof. reflexivity. Qed.

Example format_timestamp_3661 : format_timestamp 3661 = lit "01:01:01".
Proof. reflexivity. Qed.

Example format_timestamp_long : format_timestamp 360000 = lit "100:00:00".
Proof. reflexivity. Qed.

Example format_timestamp_negative :
  format_timestamp (-100) = lit "-1:58:20".
Proof. reflexivity. Qed.

Example py_strip_blanks :
  py_strip (lit "  two words " ++ [10%N]) = lit "two words".
Proof. reflexivity. Qed.

Example py_range_steps : py_range 0 2500 1000 = [0; 1000; 2000].
Proof. reflexivity. Qed.

Example chunks_of_small :
  map (@List.length char) (chunks_of (repeat 120%N 2500)) = [1000; 1000; 500].
Proof. vm_compute. reflexivity. Qed.

Example fnmatch_chunk : fnmatch CHUNK_GLOB (lit "chunk_012.mp4") = true.
Proof. reflexivity. Qed.

Example fnmatch_vertical : fnmatch CHUNK_GLOB VERTICAL_NAME = false.
Proof. reflexivity. Qed.

Example py_sorted_chunks :
  py_sorted [lit "chunk_010.mp4"; lit "chunk_002.mp4"; lit "chunk_001.mp4"] =
  [lit "chunk_001.mp4"; lit "chunk_002.mp4"; lit "chunk_010.mp4"].
Proof. reflexivity. Qed.

Example survivors_small :
  survivors [(lit "clips", Dir [(lit "a.mp4", File true);
                                (lit "b.mp4", File false)]);
             (lit "old", Dir [])] =
  [(lit "clips", Dir [(lit "a.mp4", File true)])].
Proof. reflexivity. Qed.

(** * Properties of the windows *)

Section Range.

Variable step : nat.
Hypothesis step_pos : 0 < step.

Lemma ceil_div_0 : ceil_div 0 step = 0.
Proof. unfold ceil_div. apply Nat.div_small. lia. Qed.

Lemma ceil_div_step (d : nat) :
  0 < d -> ceil_div d step = S (ceil_div (d - step) step).
Proof.
  intros Hd. unfold ceil_div.
  destruct (Nat.le_gt_cases step d) as [Hle|Hlt].
  - replace (d + step - 1) with ((d - step + step - 1) + 1 * step) by lia.
    rewrite Nat.div_add by lia. lia.
  - replace (d - step) with 0 by lia. simpl.
    rewrite (Nat.div_small (step - 1)) by lia.
    replace (d + step - 1) with ((d - 1) + 1 * step) by lia.
    rewrite Nat.div_add by lia. rewrite Nat.div_small by lia. reflexivity.
Qed.

(** [ceil_div d step] is the least number of steps that cover [d]. *)
Lemma ceil_div_covers (d : nat) : d <= ceil_div d step * step.
Proof.
  induction d as [d IH] using lt_wf_ind.
  destruct d as [|d]; [lia|].
  rewrite ceil_div_step by lia.
  specialize (IH (S d - step)). rewrite Nat.mul_succ_l. lia.
Qed.

Lemma ceil_div_tight (d : nat) :
  0 < d -> (ceil_div d step - 1) * step < d.
Proof.
  induction d as [d IH] using lt_wf_ind. intros Hd.
  rewrite ceil_div_step by lia.
  replace (S (ceil_div (d - step) step) - 1)
    with (ceil_div (d - step) step) by lia.
  destruct (Nat.eq_dec (d - step) 0) as [Hz|Hp].
  - rewrite Hz, ceil_div_0. simpl. lia.
  - assert (H1 : (ceil_div (d - step) step - 1) * step < d - step)
      by (apply IH; lia).
    assert (H2 : ceil_div (d - step) step =
                 S (ceil_div (d - step) step - 1)).
    { rewrite (ceil_div_step (d := d - step)) by lia. lia. }
    rewrite H2, Nat.mul_succ_l. lia.
Qed.

(** The range loop never stops for lack of fuel, and enumerates
    [i, i + step, i + 2 step, ...]. *)
Lemma range_loop_closed (stop fuel i : nat) :
  stop - i <= fuel ->
  range_loop fuel i stop step =
  map (fun k => i + k * step) (seq 0 (ceil_div (stop - i) step)).
Proof.
  revert i. induction fuel as [|fuel IH]; intros i Hf.
  - replace (stop - i) with 0 by lia. now rewrite ceil_div_0.
  - simpl. destruct (i <? stop) eqn:E.
    + apply Nat.ltb_lt in E.
      rewrite ceil_div_step by lia. simpl.
      rewrite Nat.add_0_r. f_equal.
      rewrite IH by lia.
      rewrite <- seq_shift, map_map.
      replace (stop - (i + step)) with (stop - i - step) by lia.
      apply map_ext. intros k. simpl. lia.
    + apply Nat.ltb_ge in E.
      replace (stop - i) with 0 by lia. now rewrite ceil_div_0.
Qed.

Lemma py_range_closed (stop : nat) :
  py_range 0 stop step =
  map (fun k => k * step) (seq 0 (ceil_div stop step)).
Proof.
  unfold py_range. rewrite range_loop_closed by lia.
  rewrite Nat.sub_0_r. reflexivity.
Qed.

End Range.

Lemma firstn_seq (k a n : nat) : firstn k (seq a n) = seq a (Nat.min k n).
Proof.
  revert a n. induction k as [|k IH]; intros a [|n]; simpl; try reflexivity.
  now rewrite IH.
Qed.

Section Slices.

Context {A : Type}.

Lemma firstn_skipn_app (s : list A) (a b : nat) :
  firstn a s ++ firstn b (skipn a s) = firstn (a + b) s.
Proof.
  revert s. induction a as [|a IH]; intros s; [reflexivity|].
  destruct s as [|x s]; simpl.
  - now rewrite firstn_nil.
  - now rewrite IH.
Qed.

(** Consecutive windows of width [w] glue back to a prefix. *)
Lemma concat_windows (s : list A) (w n : nat) :
  concat (map (fun k => py_slice s (k * w) (k * w + w)) (seq 0 n)) =
  firstn (n * w) s.
Proof.
  induction n as [|n IH]; [reflexivity|].
  rewrite seq_S, map_app, concat_app, IH. simpl.
  rewrite app_nil_r. unfold py_slice.
  replace (n * w + w - n * w) with w by lia.
  rewrite firstn_skipn_app. f_equal. lia.
Qed.

Lemma nth_map_seq (f : nat -> A) (n k : nat) (d : A) :
  k < n -> nth k (map f (seq 0 n)) d = f k.
Proof.
  intros Hk. rewrite nth_indep with (d' := f 0)
    by now rewrite length_map, length_seq.
  rewrite (map_nth f (seq 0 n) 0 k), seq_nth by assumption. reflexivity.
Qed.

Lemma py_slice_length (s : list A) (i j : nat) :
  List.length (py_slice s i j) = Nat.min (j - i) (List.length s - i).
Proof. unfold py_slice. now rewrite length_firstn, length_skipn. Qed.

End Slices.

Lemma chunks_of_closed (transcript : str) :
  chunks_of transcript =
  map (fun k => py_slice transcript (k * WINDOW) (k * WINDOW + WINDOW))
      (seq 0 (ceil_div (List.length transcript) WINDOW)).
Proof.
  unfold chunks_of. rewrite py_range_closed by (unfold WINDOW; lia).
  now rewrite map_map.
Qed.

Lemma chunks_of_length (transcript : str) :
  List.length (chunks_of transcript) = ceil_div (List.length transcript) WINDOW.
Proof. now rewrite chunks_of_closed, length_map, length_seq. Qed.

Lemma chunks_of_nth (transcript : str) (k : nat) :
  k < List.length (chunks_of transcript) ->
  nth k (chunks_of transcript) [] =
  py_slice transcript (k * WINDOW) (k * WINDOW + WINDOW).
Proof.
  rewrite chunks_of_length. intros Hk. rewrite chunks_of_closed.
  now rewrite nth_map_seq.
Qed.

Lemma chunks_of_concat (transcript : str) :
  concat (chunks_of transcript) = transcript.
Proof.
  rewrite chunks_of_closed, concat_windows.
  apply firstn_all2. apply ceil_div_covers. unfold WINDOW; lia.
Qed.

(** C1. The windows of a transcript of length L: there are ceil(L / 1000) of
    them; every window but the last has exactly 1000 characters and the last
    has between 1 and 1000; window k is the text at offsets
    [1000 k, 1000 k + 1000), so the windows follow one another in text order
    without gap or overlap; and their concatenation is the transcript. *)
Theorem C1_windows_partition (transcript : str) :
  let ws := chunks_of transcript in
  List.length ws = ceil_div (List.length transcript) 1000 /\
  (forall k, S k < List.length ws -> List.length (nth k ws []) = 1000) /\
  (forall k, S k = List.length ws ->
     1 <= List.length (nth k ws []) <= 1000) /\
  (forall k, k < List.length ws ->
     nth k ws [] = firstn 1000 (skipn (1000 * k) transcript) /\
     List.length (concat (firstn k ws)) = 1000 * k) /\
  concat ws = transcript.
Proof.
  cbv zeta. fold WINDOW.
  assert (HW : 0 < WINDOW) by (unfold WINDOW; lia).
  pose proof (chunks_of_length transcript) as HL.
  pose proof (ceil_div_covers HW (List.length transcript)) as Hcov.
  split; [exact HL|].
  split; [|split; [|split; [|apply chunks_of_concat]]].
  - intros k Hk. rewrite chunks_of_nth by lia.
    rewrite py_slice_length.
    assert (Ht : (ceil_div (List.length transcript) WINDOW - 1) * WINDOW
                 < List.length transcript).
    { apply ceil_div_tight; [assumption|].
      destruct (List.length transcript); [|lia].
      rewrite ceil_div_0 in HL by assumption. lia. }
    rewrite <- HL in Ht.
    assert (S k * WINDOW <= (List.length (chunks_of transcript) - 1) * WINDOW)
      by (apply Nat.mul_le_mono_r; lia).
    rewrite Nat.mul_succ_l in *. lia.
  - intros k Hk. rewrite chunks_of_nth by lia.
    rewrite py_slice_length.
    assert (Ht : (ceil_div (List.length transcript) WINDOW - 1) * WINDOW
                 < List.length transcript).
    { apply ceil_div_tight; [assumption|].
      destruct (List.length transcript); [|lia].
      rewrite ceil_div_0 in HL by assumption. lia. }
    rewrite <- HL, <- Hk in Ht.
    replace (S k - 1) with k in Ht by lia. lia.
  - intros k Hk. split.
    + rewrite chunks_of_nth by assumption. unfold py_slice.
      replace (k * WINDOW + WINDOW - k * WINDOW) with WINDOW by lia.
      now rewrite (Nat.mul_comm WINDOW k).
    + rewrite chunks_of_closed.
      rewrite firstn_map, firstn_seq, concat_windows, length_firstn.
      rewrite HL in Hk.
      assert (Ht : (ceil_div (List.length transcript) WINDOW - 1) * WINDOW
                   < List.length transcript).
      { apply ceil_div_tight; [assumption|].
        destruct (List.length transcript); [|lia].
        rewrite ceil_div_0 in Hk by assumption. lia. }
      replace (Nat.min k (ceil_div (List.length transcript) WINDOW))
        with k by lia.
      assert (k * WINDOW <= (ceil_div (List.length transcript) WINDOW - 1) * WINDOW)
        by (apply Nat.mul_le_mono_r; lia).
      lia.
Qed.

Lemma C1_windows_partition_witness :
  let t := repeat 97%N 2500 in
  List.length (chunks_of t) = 3 /\
  List.length (nth 0 (chunks_of t) []) = 1000 /\
  1 <= List.length (nth 2 (chunks_of t) []) <= 1000 /\
  nth 1 (chunks_of t) [] = firstn 1000 (skipn 1000 t) /\
  concat (chunks_of t) = t.
Proof.
  intros t.
  destruct (C1_windows_partition t) as (Hn & Hfull & Hlast & Hpos & Hcat).
  assert (H3 : List.length (chunks_of t) = 3) by (vm_compute; reflexivity).
  split; [exact H3|].
  split; [apply Hfull; rewrite H3; lia|].
  split; [apply Hlast; rewrite H3; reflexivity|].
  split; [|exact Hcat].
  apply (Hpos 1). rewrite H3. lia.
Defined.

(** * Properties of the highlight timeline *)

Section Loop.

Lemma points_from_length ts l i s :
  List.length (points_from ts l i s) = List.length l.
Proof. revert i s. induction l; intros; simpl; auto. Qed.

Lemma points_from_ordinals ts l i s :
  map ordinal (points_from ts l i s) =
  map (fun k => (i + Z.of_nat k)%Z) (seq 0 (List.length l)).
Proof.
  revert i s. induction l as [|p l IH]; intros i s; [reflexivity|].
  simpl. rewrite Z.add_0_r. f_equal.
  rewrite IH, <- seq_shift, map_map. apply map_ext. intros k. lia.
Qed.

Lemma points_from_starts ts l i s :
  map start_offset (points_from ts l i s) =
  map (fun k => (s + Z.of_nat k * ts)%Z) (seq 0 (List.length l)).
Proof.
  revert i s. induction l as [|p l IH]; intros i s; [reflexivity|].
  simpl. rewrite Z.add_0_r. f_equal.
  rewrite IH, <- seq_shift, map_map. apply map_ext. intros k. lia.
Qed.

Lemma points_from_ends ts l i s :
  Forall (fun p => end_offset p = (start_offset p + 30)%Z)
         (points_from ts l i s).
Proof.
  revert i s. induction l as [|p l IH]; intros i s; simpl; constructor;
    auto.
Qed.

(** The loop of lines 57-60, in closed form. *)
Lemma loop_closed ts l i st :
  fold_left (loop_body ts) (py_enumerate l i) st =
  {| start_time := start_time st + Z.of_nat (List.length l) * ts;
     formatted := formatted st ++
                  concat (map format_point
                            (points_from ts l i (start_time st)));
     timeline := timeline st ++ points_from ts l i (start_time st) |}.
Proof.
  revert i st. induction l as [|p l IH]; intros i st.
  - simpl. rewrite Z.add_0_r, !app_nil_r. now destruct st.
  - cbn [py_enumerate fold_left]. rewrite IH.
    cbn [loop_body start_time formatted timeline points_from map concat
         List.length].
    rewrite <- !app_assoc. cbn [app]. f_equal. lia.
Qed.

End Loop.

Lemma py_prefix_length {A : Type} (l : list A) (n : nat) :
  List.length (py_prefix l n) = Nat.min n (List.length l).
Proof.
  unfold py_prefix. rewrite py_slice_length. lia.
Qed.

Section Extractor.

Context {ext : Type} `{Svc : Services ext}.

(** The division of line 53 never has a zero divisor. *)
Lemma time_step_defined (video_duration_secs : Z) (total_segments : nat) :
  py_floordiv video_duration_secs (Z.of_nat total_segments + 1) =
  inr (video_duration_secs / (Z.of_nat total_segments + 1))%Z.
Proof.
  unfold py_floordiv.
  destruct (Z.eqb_spec (Z.of_nat total_segments + 1) 0); [lia|reflexivity].
Qed.

(** Lines 48-50 either collect one summary per window, calling the service
    once per window, or stop at the first exception. *)
Lemma summarize_chunks_spec (chunks : list str) :
  forall (acc : list str) (w : world ext),
    match summarize_chunks chunks acc w with
    | (w', inr hs) =>
        (exists pts, hs = acc ++ pts /\
                     List.length pts = List.length chunks) /\
        temp w' = temp w /\
        trace w' = trace w ++
                   map (fun c => summarizer_called (summary_request_of c))
                       chunks
    | (w', inl e) =>
        from_summary e = true /\
        temp w' = temp w /\
        exists k, k < List.length chunks /\
          trace w' = trace w ++
                     map (fun c => summarizer_called (summary_request_of c))
                         (firstn (S k) chunks)
    end.
Proof.
  induction chunks as [|c rest IH]; intros acc w.
  - simpl. split; [exists []; now rewrite app_nil_r|].
    now rewrite app_nil_r.
  - cbn [summarize_chunks]. unfold bind at 1. unfold call_summarizer.
    destruct (summarizer (summary_request_of c) (outside w)) as [o [msg|v]].
    + cbn. repeat split. exists 0. split; [simpl; lia|reflexivity].
    + cbn [service_result]. unfold bind at 1, lift at 1.
      destruct (py_index v 0) as [e|first] eqn:E1.
      { unfold py_index in E1. destruct (nth_error v 0); inversion E1.
        cbn. repeat split. exists 0. split; [simpl; lia|reflexivity]. }
      unfold bind at 1, lift at 1.
      destruct (py_getitem first (lit "summary_text")) as [e|point] eqn:E2.
      { unfold py_getitem in E2.
        destruct (dict_get first (lit "summary_text")); inversion E2.
        cbn. repeat split. exists 0. split; [simpl; lia|reflexivity]. }
      match goal with
      | |- context [summarize_chunks rest ?a ?w0] =>
          specialize (IH a w0);
          destruct (summarize_chunks rest a w0) as [w' [e|hs]]
      end.
      * destruct IH as (He & Ht & k & Hk & Htr). cbn in Ht, Htr.
        repeat split; try assumption.
        exists (S k). split; [simpl; lia|].
        rewrite Htr. cbn [firstn map]. now rewrite <- app_assoc.
      * destruct IH as ((pts & Hpts & Hlen) & Ht & Htr). cbn in Ht, Htr.
        repeat split; try assumption.
        -- exists (point :: pts). rewrite Hpts, <- app_assoc.
           split; [reflexivity|simpl; lia].
        -- rewrite Htr. cbn [map]. now rewrite <- app_assoc.
Qed.

Lemma reel_loop_spec (transcript : str) (video_duration_secs : Z)
  (w : world ext) :
  reel_loop transcript video_duration_secs w =
  match summarize_chunks (chunks_of transcript) [] w with
  | (w', inr hs) => (w', inr (final_state hs video_duration_secs))
  | (w', inl e) => (w', inl e)
  end.
Proof.
  unfold reel_loop, bind.
  destruct (summarize_chunks (chunks_of transcript) [] w) as [w' [e|hs]];
    [reflexivity|].
  rewrite time_step_defined. unfold lift, ret. f_equal. f_equal.
  rewrite loop_closed. unfold final_state.
  cbn [start_time formatted timeline app].
  rewrite py_prefix_length.
  replace (Nat.min (Nat.min 5 (List.length hs)) (List.length hs))
    with (Nat.min 5 (List.length hs)) by lia.
  reflexivity.
Qed.

Lemma get_reel_segments_spec (transcript : str) (video_duration_secs : Z)
  (w : world ext) :
  get_reel_segments transcript video_duration_secs w =
  match summarize_chunks (chunks_of transcript) [] w with
  | (w', inr hs) =>
      (w', inr (formatted (final_state hs video_duration_secs)))
  | (w', inl e) => (w', inl e)
  end.
Proof.
  unfold get_reel_segments, bind at 1. rewrite reel_loop_spec.
  now destruct (summarize_chunks (chunks_of transcript) [] w) as [? [?|?]].
Qed.

Lemma get_reel_points_spec (transcript : str) (video_duration_secs : Z)
  (w : world ext) :
  get_reel_points transcript video_duration_secs w =
  match summarize_chunks (chunks_of transcript) [] w with
  | (w', inr hs) =>
      (w', inr (timeline (final_state hs video_duration_secs)))
  | (w', inl e) => (w', inl e)
  end.
Proof.
  unfold get_reel_points, bind at 1. rewrite reel_loop_spec.
  now destruct (summarize_chunks (chunks_of transcript) [] w) as [? [?|?]].
Qed.

(** When the windows are summarised to [hs], there are as many summaries
    as windows. *)
Lemma summaries_count (transcript : str) (w w' : world ext)
  (hs : list str) :
  summarize_chunks (chunks_of transcript) [] w = (w', inr hs) ->
  List.length hs = List.length (chunks_of transcript).
Proof.
  intros H. pose proof (summarize_chunks_spec (chunks_of transcript) [] w)
    as S. rewrite H in S. destruct S as ((pts & -> & Hl) & _). exact Hl.
Qed.

Lemma first_fault_raises (chunks : list str) :
  forall (acc : list str) (w : world ext) (msg : str),
    first_fault chunks (outside w) = Some msg ->
    exists w' e, summarize_chunks chunks acc w = (w', inl e).
Proof.
  induction chunks as [|c rest IH]; intros acc w msg H; [discriminate|].
  cbn [first_fault] in H. cbn [summarize_chunks].
  unfold bind at 1, call_summarizer.
  destruct (summarizer (summary_request_of c) (outside w)) as [o [m|v]].
  - cbn. eauto.
  - cbn [service_result]. unfold bind at 1, lift at 1.
    destruct (py_index v 0) as [e|first]; [eauto|].
    unfold bind at 1, lift at 1.
    destruct (py_getitem first (lit "summary_text")) as [e|point];
      [eauto|].
    eapply IH. cbn. exact H.
Qed.

Lemma all_summarized_returns (chunks : list str) :
  forall (acc : list str) (w : world ext),
    all_summarized chunks (outside w) = true ->
    exists w' hs, summarize_chunks chunks acc w = (w', inr hs).
Proof.
  induction chunks as [|c rest IH]; intros acc w H.
  - exists w, acc. reflexivity.
  - cbn [all_summarized] in H. cbn [summarize_chunks].
    unfold bind at 1, call_summarizer.
    destruct (summarizer (summary_request_of c) (outside w)) as [o [m|v]];
      [discriminate|].
    cbn [service_result]. unfold bind at 1, lift at 1.
    destruct (py_index v 0) as [e|first]; [discriminate|].
    unfold bind at 1, lift at 1.
    destruct (py_getitem first (lit "summary_text")) as [e|point];
      [discriminate|].
    apply IH. exact H.
Qed.

Lemma from_summary_is_Exception (e : exn) :
  from_summary e = true -> is_Exception e = true.
Proof. now destruct e. Qed.

End Extractor.

Section Timeline.

Context {ext : Type} `{Svc : Services ext}.

Lemma final_timeline_length (hs : list str) (dur : Z) :
  List.length (timeline (final_state hs dur)) =
  Nat.min 5 (List.length hs).
Proof.
  unfold final_state. cbn [timeline].
  rewrite points_from_length, py_prefix_length. lia.
Qed.

Lemma final_formatted (hs : list str) (dur : Z) :
  formatted (final_state hs dur) =
  concat (map format_point (timeline (final_state hs dur))).
Proof. reflexivity. Qed.

(** C2. When extraction returns, the timeline it prints has exactly
    min(5, window_count) entries, numbered 1, 2, ..., len without gaps; it
    does return when the service answers every window; for the empty
    transcript extraction returns the empty timeline and leaves the world as
    it was, so the summarization service is not called. *)
Theorem C2_timeline_entries (transcript : str) (dur : Z) (w : world ext) :
  (forall w' out,
      get_reel_segments transcript dur w = (w', inr out) ->
      exists tl,
        get_reel_points transcript dur w = (w', inr tl) /\
        out = concat (map format_point tl) /\
        List.length tl = Nat.min 5 (List.length (chunks_of transcript)) /\
        map ordinal tl = map Z.of_nat (seq 1 (List.length tl))) /\
  (all_summarized (chunks_of transcript) (outside w) = true ->
   exists w' out, get_reel_segments transcript dur w = (w', inr out)) /\
  (transcript = [] ->
   get_reel_segments transcript dur w = (w, inr []) /\
   get_reel_points transcript dur w = (w, inr []) /\
   forallb (fun ev => negb (is_summarizer_call ev))
     (skipn (List.length (trace w))
        (trace (fst (get_reel_segments transcript dur w)))) = true).
Proof.
  split; [|split].
  - intros w' out H.
    rewrite get_reel_segments_spec in H. rewrite get_reel_points_spec.
    destruct (summarize_chunks (chunks_of transcript) [] w)
      as [w1 [e|hs]] eqn:E; [discriminate|].
    inversion H; subst w1 out; clear H.
    exists (timeline (final_state hs dur)).
    split; [reflexivity|]. split; [apply final_formatted|].
    rewrite final_timeline_length.
    split; [now rewrite (summaries_count _ _ E)|].
    unfold final_state. cbn [timeline].
    rewrite points_from_ordinals, py_prefix_length.
    replace (Nat.min (Nat.min 5 (List.length hs)) (List.length hs))
      with (Nat.min 5 (List.length hs)) by lia.
    rewrite <- seq_shift, map_map. apply map_ext. intros k. lia.
  - intros H.
    destruct (all_summarized_returns _ [] w H) as (w' & hs & E).
    rewrite get_reel_segments_spec, E. eauto.
  - intros ->. cbn. rewrite skipn_all. repeat split.
Qed.

(** C3. With the default duration of 600 seconds and at least five
    windows, total_segments is 5, the time step is 600 // 6 = 100, the
    start offsets are 100, 200, 300, 400, 500, every end offset is its
    start offset plus 30, and the output begins with the line
    "1. 00:01:40 - 00:02:10: " followed by the first summary stripped of
    its leading and trailing whitespace. *)
Theorem C3_default_duration (transcript : str) (w w' : world ext)
  (highlights : list str) :
  5 <= List.length (chunks_of transcript) ->
  summarize_chunks (chunks_of transcript) [] w = (w', inr highlights) ->
  let total_segments := Nat.min 5 (List.length highlights) in
  total_segments = 5 /\
  py_floordiv 600 (Z.of_nat total_segments + 1) = inr 100%Z /\
  exists tl rest,
    get_reel_points transcript 600 w = (w', inr tl) /\
    map start_offset tl = [100; 200; 300; 400; 500]%Z /\
    Forall (fun p => end_offset p = (start_offset p + 30)%Z) tl /\
    get_reel_segments transcript 600 w =
    (w', inr (lit "1. 00:01:40 - 00:02:10: " ++
              py_strip (hd [] highlights) ++ [10%N] ++ rest)).
Proof.
  intros H5 E. cbv zeta.
  pose proof (summaries_count _ _ E) as Hlen.
  assert (Ht : Nat.min 5 (List.length highlights) = 5) by lia.
  rewrite Ht. split; [reflexivity|]. split; [reflexivity|].
  rewrite get_reel_points_spec, get_reel_segments_spec, E.
  unfold final_state. rewrite Ht. cbn [timeline formatted].
  change (600 / (Z.of_nat 5 + 1))%Z with 100%Z.
  destruct highlights as [|h1 [|h2 [|h3 [|h4 [|h5 hs]]]]];
    try (simpl in Hlen; lia).
  eexists. eexists. split; [reflexivity|].
  split; [reflexivity|]. split.
  - apply points_from_ends.
  - cbn [py_prefix py_slice skipn firstn Nat.sub points_from map concat hd].
    unfold format_point at 1.
    cbn [ordinal start_offset end_offset summary_text].
    change (py_str_int 1 ++ lit ". " ++ format_timestamp 100 ++ lit " - " ++
            format_timestamp (100 + 30) ++ lit ": " ++ py_strip h1 ++
            [10%N])
      with (lit "1. 00:01:40 - 00:02:10: " ++ py_strip h1 ++ [10%N]).
    rewrite <- !app_assoc. reflexivity.
Qed.

(** C4 (amended). Every HighlightPoint ends exactly 30 seconds after it
    starts, whatever the time step; the first start is the time step
    [dur // (total_segments + 1)] and each later start is the previous
    start plus the time step; the starts are strictly increasing as soon
    as the duration is at least total_segments + 1, that is when the time
    step is at least 1. *)
Theorem C4_start_offsets (transcript : str) (dur : Z) (w w' : world ext)
  (tl : list HighlightPoint) :
  get_reel_points transcript dur w = (w', inr tl) ->
  let time_step := (dur / (Z.of_nat (List.length tl) + 1))%Z in
  let starts := map start_offset tl in
  Forall (fun p => end_offset p = (start_offset p + 30)%Z) tl /\
  (forall k, k < List.length tl ->
     nth k starts 0%Z = (time_step + Z.of_nat k * time_step)%Z) /\
  (forall k, S k < List.length tl ->
     nth (S k) starts 0%Z = (nth k starts 0 + time_step)%Z) /\
  ((Z.of_nat (List.length tl) + 1 <= dur)%Z ->
   strictly_increasing starts).
Proof.
  intros H. rewrite get_reel_points_spec in H.
  destruct (summarize_chunks (chunks_of transcript) [] w)
    as [w1 [e|hs]] eqn:E; [discriminate|].
  assert (Htl : tl = timeline (final_state hs dur)) by congruence.
  subst tl. clear H. cbv zeta.
  rewrite final_timeline_length.
  unfold final_state. cbn [timeline].
  set (n := Nat.min 5 (List.length hs)).
  set (ts := (dur / (Z.of_nat n + 1))%Z).
  rewrite points_from_starts, py_prefix_length.
  replace (Nat.min n (List.length hs)) with n by lia.
  assert (Hnth : forall k, k < n ->
            nth k (map (fun k0 => (ts + Z.of_nat k0 * ts)%Z) (seq 0 n)) 0%Z
            = (ts + Z.of_nat k * ts)%Z).
  { intros k Hk. now rewrite nth_map_seq. }
  split; [apply points_from_ends|].
  split; [exact Hnth|]. split.
  - intros k Hk. rewrite !Hnth by lia. lia.
  - intros Hd i j Hij. rewrite length_map, length_seq in Hij.
    rewrite !Hnth by lia.
    assert (0 < ts)%Z by (apply Z.div_str_pos; lia).
    nia.
Qed.

(** C5. If the summarization service fails on some window, extraction
    raises, for any duration, and returns no timeline at all; at the call
    site the exception is caught, and what is shown after the calls of the
    service is the error and its text, never a text area with highlight
    lines. *)
Theorem C5_no_partial_timeline (transcript : str) (w : world ext)
  (msg : str) :
  first_fault (chunks_of transcript) (outside w) = Some msg ->
  (forall dur, exists w' e,
      get_reel_segments transcript dur w = (w', inl e) /\
      get_reel_points transcript dur w = (w', inl e) /\
      is_Exception e = true) /\
  exists w' e calls,
    extract_highlights transcript w = (w', inr tt) /\
    forallb is_summarizer_call calls = true /\
    trace w' =
    trace w ++
    [st_info ([10024%N] ++
       lit " Analyzing transcript for engaging reel segments...")] ++
    calls ++
    [st_error ([10060%N] ++ lit " Failed to extract highlight moments.");
     st_text (exn_str e)].
Proof.
  intros F. split.
  - intros dur.
    destruct (first_fault_raises _ [] w F) as (w' & e & E).
    exists w', e. rewrite get_reel_segments_spec, get_reel_points_spec, E.
    repeat split. apply from_summary_is_Exception.
    pose proof (summarize_chunks_spec (chunks_of transcript) [] w) as S.
    rewrite E in S. apply S.
  - unfold extract_highlights, bind at 1, emit at 1.
    set (w1 := {| outside := outside w; temp := temp w; trace := _ |}).
    destruct (first_fault_raises _ [] w1 F) as (w' & e & E).
    pose proof (summarize_chunks_spec (chunks_of transcript) [] w1) as S.
    rewrite E in S. destruct S as (He & _ & k & _ & Htr).
    unfold try_except, bind at 1.
    rewrite get_reel_segments_spec, E.
    rewrite (from_summary_is_Exception _ He).
    eexists. exists e.
    exists (map (fun c => summarizer_called (summary_request_of c))
              (firstn (S k) (chunks_of transcript))).
    split; [reflexivity|]. split.
    + rewrite forallb_forall. intros ev Hin.
      apply in_map_iff in Hin. now destruct Hin as (c & <- & _).
    + cbn. rewrite Htr. unfold w1. cbn [trace].
      now rewrite <- !app_assoc.
Qed.

(** C10. Whatever the transcript and the duration, the divisor of line 53,
    total_segments + 1 with total_segments = min(5, number of summaries),
    is at least 1, the division is defined, and extraction never raises
    ZeroDivisionError. *)
Theorem C10_no_division_by_zero (transcript : str) (dur : Z)
  (w : world ext) :
  (forall highlights : list str,
      let total_segments := Nat.min 5 (List.length highlights) in
      (1 <= Z.of_nat total_segments + 1)%Z /\
      py_floordiv dur (Z.of_nat total_segments + 1) =
      inr (dur / (Z.of_nat total_segments + 1))%Z) /\
  match snd (get_reel_segments transcript dur w) with
  | inl e => is_ZeroDivisionError e = false
  | inr _ => True
  end.
Proof.
  split.
  - intros hs. cbv zeta. split; [lia|apply time_step_defined].
  - rewrite get_reel_segments_spec.
    pose proof (summarize_chunks_spec (chunks_of transcript) [] w) as S.
    destruct (summarize_chunks (chunks_of transcript) [] w)
      as [w' [e|hs]]; cbn; [|exact I].
    destruct S as (He & _). now destruct e.
Qed.

End Timeline.

(** ** The timeline on concrete transcripts *)

Lemma C2_timeline_entries_witness :
  let t := repeat 97%N 1001 in
  let w := Stub.world_of None in
  (exists w' out tl,
      get_reel_segments t 600 w = (w', inr out) /\
      get_reel_points t 600 w = (w', inr tl) /\
      out = concat (map format_point tl) /\
      List.length tl = 2 /\
      map ordinal tl = [1; 2]%Z) /\
  get_reel_segments [] 600 w = (w, inr []).
Proof.
  intros t w. split.
  - set (r := get_reel_segments t 600 w).
    assert (A : all_summarized (chunks_of t) (outside w) = true)
      by (vm_compute; reflexivity).
    destruct (proj1 (proj2 (C2_timeline_entries t 600 w)) A)
      as (w0 & out0 & E0).
    assert (E : r = (fst r, inr match snd r with
                                | inr out => out
                                | inl _ => []
                                end))
      by (unfold r; rewrite E0; reflexivity).
    destruct (proj1 (C2_timeline_entries t 600 w) _ _ E)
      as (tl & Hp & Hout & Hlen & Hord).
    eexists. eexists. exists tl.
    split; [exact E|]. split; [exact Hp|]. split; [exact Hout|].
    assert (Hl : List.length tl = 2) by (rewrite Hlen; vm_compute; reflexivity).
    split; [exact Hl|]. rewrite Hord, Hl. reflexivity.
  - exact (proj1 (proj2 (proj2 (C2_timeline_entries [] 600 w)) eq_refl)).
Defined.

Lemma C3_default_duration_witness :
  let t := repeat 97%N 4001 in
  let w := Stub.world_of None in
  exists w' tl rest,
    get_reel_points t 600 w = (w', inr tl) /\
    map start_offset tl = [100; 200; 300; 400; 500]%Z /\
    get_reel_segments t 600 w =
    (w', inr (lit "1. 00:01:40 - 00:02:10: aaa" ++ [10%N] ++ rest)).
Proof.
  intros t w.
  set (r := summarize_chunks (chunks_of t) [] w).
  assert (E : r = (fst r, inr match snd r with
                              | inr hs => hs
                              | inl _ => []
                              end))
    by (vm_compute; reflexivity).
  assert (H5 : 5 <= List.length (chunks_of t)) by (vm_compute; lia).
  destruct (C3_default_duration t w H5 E)
    as (_ & _ & tl & rest & Hp & Hs & _ & Hout).
  exists (fst r), tl, rest.
  split; [exact Hp|]. split; [exact Hs|]. exact Hout.
Defined.

Lemma C4_start_offsets_witness :
  let t := repeat 97%N 1001 in
  let w := Stub.world_of None in
  exists w' tl,
    get_reel_points t 600 w = (w', inr tl) /\
    map start_offset tl = [200; 400]%Z /\
    map end_offset tl = [230; 430]%Z /\
    strictly_increasing (map start_offset tl).
Proof.
  intros t w.
  set (r := get_reel_points t 600 w).
  assert (E : r = (fst r, inr match snd r with
                              | inr tl => tl
                              | inl _ => []
                              end))
    by (vm_compute; reflexivity).
  destruct (C4_start_offsets t 600 w E) as (_ & _ & _ & Hinc).
  eexists. eexists. split; [exact E|].
  split; [vm_compute; reflexivity|]. split; [vm_compute; reflexivity|].
  apply Hinc. vm_compute. discriminate.
Defined.

(** With a duration of 2 seconds and two windows the time step is
    2 // 3 = 0 and both highlights start at 0: the starts do not increase. *)
Lemma C4_counterexample :
  let t := repeat 97%N 1001 in
  let w := Stub.world_of None in
  exists w' tl,
    get_reel_points t 2 w = (w', inr tl) /\
    map start_offset tl = [0; 0]%Z /\
    ~ strictly_increasing (map start_offset tl).
Proof.
  intros t w.
  set (r := get_reel_points t 2 w).
  set (tl := match snd r with inr tl => tl | inl _ => [] end).
  assert (E : r = (fst r, inr tl)) by (vm_compute; reflexivity).
  assert (Hs : map start_offset tl = [0; 0]%Z) by (vm_compute; reflexivity).
  exists (fst r), tl. split; [exact E|]. split; [exact Hs|].
  rewrite Hs. intros Hinc.
  specialize (Hinc 0 1). simpl in Hinc. lia.
Qed.

Lemma C5_no_partial_timeline_witness :
  let t := repeat 97%N 1000 ++ [33%N; 98%N] in
  let w := Stub.world_of None in
  exists w' e,
    get_reel_segments t 600 w = (w', inl e) /\
    is_Exception e = true.
Proof.
  intros t w.
  assert (F : first_fault (chunks_of t) (outside w) =
              Some (lit "model failure"))
    by (vm_compute; reflexivity).
  destruct (proj1 (C5_no_partial_timeline t w F) 600%Z)
    as (w' & e & H1 & _ & H2).
  exists w', e. split; assumption.
Defined.

(** * Properties of the chunk button *)

Lemma str_eqb_eq (a b : str) : str_eqb a b = true <-> a = b.
Proof. unfold str_eqb. destruct (list_eq_dec N.eq_dec a b); split; congruence. Qed.

Lemma str_eqb_refl (a : str) : str_eqb a a = true.
Proof. now apply str_eqb_eq. Qed.

Lemma str_eqb_neq (a b : str) : str_eqb a b = false <-> a <> b.
Proof. unfold str_eqb. destruct (list_eq_dec N.eq_dec a b); split; congruence. Qed.

Lemma lookup_not_in (d : directory) (name : str) :
  ~ In name (map fst d) -> lookup d name = None.
Proof.
  induction d as [|[k m] d IH]; intros H; [reflexivity|].
  simpl in *. destruct (str_eqb name k) eqn:E.
  - apply str_eqb_eq in E. subst. tauto.
  - apply IH. tauto.
Qed.

Lemma unlink_not_in (d : directory) (name : str) :
  ~ In name (map fst d) -> unlink d name = d.
Proof.
  induction d as [|[k m] d IH]; intros H; [reflexivity|].
  simpl in *. destruct (str_eqb name k) eqn:E.
  - apply str_eqb_eq in E. subst. tauto.
  - simpl. f_equal. apply IH. tauto.
Qed.

Lemma filter_not_in (d : directory) (name : str) (p : node -> bool) :
  ~ In name (map fst d) ->
  filter (fun e => negb (str_eqb name (fst e) && p (snd e))) d = d.
Proof.
  induction d as [|[k m] d IH]; intros H; [reflexivity|].
  simpl in *. destruct (str_eqb name k) eqn:E.
  - apply str_eqb_eq in E. subst. tauto.
  - simpl. f_equal. apply IH. tauto.
Qed.

(** One pass of the loop of lines 133-137: the entry is gone if it was a
    removable file, and the directory is as before otherwise. *)
Lemma remove_entry_filter (d : directory) (name : str) :
  NoDup (map fst d) ->
  match remove_entry d name with inr d' => d' | inl _ => d end =
  filter (fun e => negb (str_eqb name (fst e) && is_removable (snd e))) d.
Proof.
  induction d as [|[k m] d IH]; intros ND; [reflexivity|].
  inversion ND as [|? ? Hk ND']; subst.
  unfold remove_entry in *. cbn [lookup filter fst snd unlink].
  destruct (str_eqb name k) eqn:E.
  - apply str_eqb_eq in E. subst k.
    rewrite filter_not_in by assumption.
    destruct m as [[|]|es]; cbn; try reflexivity.
    now apply unlink_not_in.
  - cbn [andb negb]. specialize (IH ND').
    destruct (lookup d name) as [[[|]|es]|]; cbn [negb];
      now rewrite <- IH.
Qed.

Lemma filter_twice {A : Type} (p q : A -> bool) (l : list A) :
  filter p (filter q l) = filter (fun x => q x && p x) l.
Proof.
  induction l as [|x l IH]; [reflexivity|].
  simpl. destruct (q x); simpl; [destruct (p x)|]; now rewrite IH.
Qed.

Lemma NoDup_filter_names (d : directory) (p : str * node -> bool) :
  NoDup (map fst d) -> NoDup (map fst (filter p d)).
Proof.
  induction d as [|e d IH]; intros ND; [constructor|].
  inversion ND as [|? ? Hk ND']; subst. simpl.
  destruct (p e); [|auto]. simpl. constructor; [|auto].
  intros Hin. apply Hk. apply in_map_iff in Hin.
  destruct Hin as (x & Hx & Hin). apply filter_In in Hin.
  apply in_map_iff. exists x. tauto.
Qed.

Section ChunkSplit.

Context {ext : Type} `{Svc : Services ext}.

(** The loop of lines 133-137 leaves exactly the entries that are not both
    named in [names] and removable; it raises nothing and touches neither the
    trace nor the services. *)
Lemma remove_loop (names : list str) :
  forall (w : world ext) (d : directory),
    temp w = Some d -> NoDup (map fst d) ->
    for_each names
      (fun f => try_except (os_remove f) is_Exception (fun _ => ret tt)) w =
    ({| outside := outside w;
        temp := Some (filter (fun e =>
                  negb (existsb (fun n => str_eqb n (fst e)) names &&
                        is_removable (snd e))) d);
        trace := trace w |}, inr tt).
Proof.
  induction names as [|n names IH]; intros w d Ht ND.
  - cbn.
    assert (F : filter (fun _ : str * node => true) d = d)
      by (clear; induction d; simpl; congruence).
    rewrite F. unfold ret. destruct w; cbn in *. now subst.
  - cbn [for_each]. unfold bind at 1.
    pose proof (remove_entry_filter d n ND) as Hstep.
    set (d1 := filter (fun e => negb (str_eqb n (fst e) &&
                                      is_removable (snd e))) d) in *.
    assert (E : try_except (os_remove n) is_Exception (fun _ => ret tt) w =
                ({| outside := outside w; temp := Some d1;
                    trace := trace w |}, inr tt)).
    { unfold try_except, os_remove, on_temp, bind, get_temp, ret, lift,
        set_temp. rewrite Ht.
      destruct (remove_entry d n) as [e|d'] eqn:R.
      - assert (is_Exception e = true).
        { unfold remove_entry in R.
          destruct (lookup d n) as [[[|]|]|]; inversion R; reflexivity. }
        rewrite H. unfold ret. rewrite <- Hstep.
        destruct w; cbn in *. subst temp0. reflexivity.
      - now rewrite <- Hstep. }
    rewrite E.
    rewrite (IH _ d1);
      [|reflexivity|apply NoDup_filter_names; assumption].
    cbn [outside trace]. f_equal. f_equal. f_equal.
    unfold d1. rewrite filter_twice. apply filter_ext. intros e.
    cbn [existsb].
    now destruct (str_eqb n (fst e)), (is_removable (snd e)),
      (existsb (fun n0 => str_eqb n0 (fst e)) names).
Qed.

Lemma existsb_glob (d : directory) (pat : str) (e : str * node) :
  In e d ->
  existsb (fun n => str_eqb n (fst e)) (filter (fnmatch pat) (map fst d)) =
  fnmatch pat (fst e).
Proof.
  intros Hin. destruct (fnmatch pat (fst e)) eqn:F.
  - apply existsb_exists. exists (fst e). split; [|apply str_eqb_refl].
    apply filter_In. split; [now apply in_map|assumption].
  - destruct (existsb _ _) eqn:X; [|reflexivity].
    apply existsb_exists in X. destruct X as (n & Hn & Heq).
    apply str_eqb_eq in Heq. subst n. apply filter_In in Hn.
    destruct Hn as [_ Hn]. congruence.
Qed.

Lemma emit_loop (l : list str) (f : str -> event) :
  forall w : world ext,
    for_each l (fun x => emit (f x)) w =
    ({| outside := outside w; temp := temp w;
        trace := trace w ++ map f l |}, inr tt).
Proof.
  induction l as [|x l IH]; intros w.
  - cbn. rewrite app_nil_r. now destruct w.
  - cbn [for_each]. unfold bind at 1, emit at 1. rewrite IH.
    cbn [outside temp trace map]. now rewrite <- app_assoc.
Qed.

(** C6. When the vertical video does not exist, the chunk button shows the
    "not found, run the conversion first" error and stops: the media
    transform service is not invoked, and the files of TEMP_DIR are as they
    were, so no chunk file is produced. *)
Theorem C6_split_requires_vertical (w : world ext) :
  match temp w with
  | Some d => lookup d VERTICAL_NAME
  | None => None
  end = None ->
  exists w',
    chunk_handler w = (w', inl StopException) /\
    outside w' = outside w /\
    temp w' = temp w /\
    trace w' =
    trace w ++
    [st_info ([9986%N] ++
       lit " Splitting vertical video into 30-second chunks...");
     st_error ([10060%N] ++ lit " Reel format video not found. Please run 'Extract Audio & Convert Video to Reel Format' first.")] /\
    forallb (fun ev => negb (is_ffmpeg_call ev)) (trace w') =
    forallb (fun ev => negb (is_ffmpeg_call ev)) (trace w).
Proof.
  intros H. unfold chunk_handler.
  unfold bind at 1, emit at 1. unfold bind at 1.
  unfold os_path_exists, bind at 1, get_temp at 1, ret at 1.
  cbn [temp].
  assert (P : match temp w with
              | Some d => match lookup d VERTICAL_NAME with
                          | Some _ => true
                          | None => false
                          end
              | None => false
              end = false).
  { destruct (temp w); [now rewrite H|reflexivity]. }
  rewrite P. cbn [negb]. unfold bind at 1, bind at 1, emit at 1, raise.
  eexists. split; [reflexivity|]. cbn [outside temp trace].
  repeat split.
  - now rewrite <- app_assoc.
  - rewrite <- app_assoc, forallb_app. cbn. now rewrite andb_true_r.
Qed.

(** C7 (amended). With the vertical video present, the chunk button first
    tries to delete every entry of TEMP_DIR that matches the chunk pattern
    and ignores the deletions that fail; the media transform service is then
    invoked once, on a TEMP_DIR from which exactly the removable matching
    files are gone; the files and the service state the button leaves are
    those the service left; if the service fails, the error and its text are
    shown. *)
Theorem C7_chunks_cleared_before_split (w : world ext) (d : directory)
  (v : node) (o : ext) (t : option directory) (r : ffmpeg_error + unit) :
  temp w = Some d ->
  NoDup (map fst d) ->
  lookup d VERTICAL_NAME = Some v ->
  ffmpeg_run split_request (outside w) (Some (cleared d)) = (o, t, r) ->
  Forall (fun e => fnmatch CHUNK_GLOB (fst e) && is_removable (snd e) = false)
         (cleared d) /\
  (forall e, In e d ->
             fnmatch CHUNK_GLOB (fst e) && is_removable (snd e) = false ->
             In e (cleared d)) /\
  exists w' shown,
    chunk_handler w = (w', inr tt) /\
    outside w' = o /\
    temp w' = t /\
    trace w' =
    trace w ++
    [st_info ([9986%N] ++
       lit " Splitting vertical video into 30-second chunks...");
     ffmpeg_called split_request] ++ shown /\
    forallb (fun ev => negb (is_ffmpeg_call ev)) shown = true /\
    (forall e, r = inl e ->
       shown = [st_error ([10060%N] ++ lit " Chunking failed:");
                st_text (ffmpeg_error_text (FfmpegError e))]).
Proof.
  intros Ht ND Hv Hff. split; [|split].
  - apply Forall_forall. intros e He. apply filter_In in He.
    destruct He as [_ He]. now apply negb_true_iff in He.
  - intros e He Hk. apply filter_In. split; [assumption|].
    now apply negb_true_iff.
  - unfold chunk_handler.
    unfold bind at 1, emit at 1. unfold bind at 1.
    unfold os_path_exists, bind at 1, get_temp at 1, ret at 1.
    cbn [temp]. rewrite Ht, Hv. cbn [negb].
    unfold bind at 1, ret at 1.
    set (w1 := {| outside := outside w; temp := Some d; trace := _ |}).
    unfold try_except.
    unfold bind at 1, glob at 1, bind at 1, get_temp at 1, ret at 1.
    cbn [temp w1]. fold w1. unfold bind at 1.
    rewrite (remove_loop _ w1 (d := d) eq_refl ND).
    assert (Hc : filter (fun e : str * node =>
                   negb (existsb (fun n => str_eqb n (fst e))
                           (filter (fnmatch CHUNK_GLOB) (map fst d)) &&
                         is_removable (snd e))) d = cleared d).
    { unfold cleared. apply filter_ext_in. intros e He.
      now rewrite existsb_glob. }
    rewrite Hc. unfold bind at 1, call_ffmpeg at 1.
    cbn [outside temp trace w1]. rewrite Hff.
    destruct r as [e|[]].
    + cbn [is_FfmpegError]. unfold bind at 1, emit at 1, emit at 1.
      cbn [outside temp trace].
      eexists. eexists. split; [reflexivity|]. cbn [outside temp trace].
      split; [reflexivity|]. split; [reflexivity|].
      split; [rewrite <- !app_assoc; cbn [app]; reflexivity|].
      split; [reflexivity|].
      intros e' He'. inversion He'; subst e'. reflexivity.
    + unfold bind at 1, glob at 1, bind at 1, get_temp at 1, ret at 1.
      unfold bind at 1, emit at 1. rewrite emit_loop.
      cbn [outside temp trace].
      eexists. eexists. split; [reflexivity|]. cbn [outside temp trace].
      split; [reflexivity|]. split; [reflexivity|].
      split; [rewrite <- !app_assoc; cbn [app]; reflexivity|].
      split; [|discriminate].
      cbn [forallb is_ffmpeg_call negb andb].
      apply forallb_forall. intros ev Hin. apply in_map_iff in Hin.
      now destruct Hin as (c & <- & _).
Qed.

End ChunkSplit.

(** ** The chunk button on concrete workspaces *)

Lemma C6_split_requires_vertical_witness :
  let w := Stub.world_of (Some [(lit "chunk_000.mp4", File false)]) in
  exists w',
    chunk_handler w = (w', inl StopException) /\
    temp w' = temp w /\
    forallb (fun ev => negb (is_ffmpeg_call ev)) (trace w') = true.
Proof.
  intros w.
  destruct (C6_split_requires_vertical w eq_refl)
    as (w' & H & _ & Ht & _ & Hq).
  exists w'. split; [exact H|]. split; [exact Ht|]. exact Hq.
Defined.

Lemma C7_chunks_cleared_before_split_witness :
  let d := [(VERTICAL_NAME, File false);
            (lit "chunk_000.mp4", File false);
            (lit "chunk_001.mp4", File true);
            (lit "audio.mp3", File false)] in
  let w := Stub.world_of (Some d) in
  cleared d = [(VERTICAL_NAME, File false);
               (lit "chunk_001.mp4", File true);
               (lit "audio.mp3", File false)] /\
  exists w',
    chunk_handler w = (w', inr tt) /\
    temp w' = Some (cleared d).
Proof.
  intros d w. split; [vm_compute; reflexivity|].
  assert (ND : NoDup (map fst d)).
  { repeat constructor; cbv; intuition discriminate. }
  assert (Hff : ffmpeg_run split_request (outside w) (Some (cleared d)) =
                (tt, Some (cleared d),
                 inl {| stderr := Some (lit "Invalid data found");
                        message := lit "ffmpeg error" |}))
    by reflexivity.
  destruct (C7_chunks_cleared_before_split w (d := d) (v := File false)
              eq_refl ND eq_refl Hff)
    as (_ & _ & w' & shown & H & _ & Ht & _).
  exists w'. split; [exact H|exact Ht].
Defined.

(** A locked chunk of an earlier run is still there after a run in which
    the service failed. *)
Lemma C7_counterexample :
  let stale := lit "chunk_000.mp4" in
  let d := [(VERTICAL_NAME, File false); (stale, File true);
            (lit "chunk_001.mp4", File false)] in
  let w := Stub.world_of (Some d) in
  fnmatch CHUNK_GLOB stale = true /\
  lookup d stale = Some (File true) /\
  exists w',
    chunk_handler w = (w', inr tt) /\
    In (st_error ([10060%N] ++ lit " Chunking failed:")) (trace w') /\
    temp w' = Some [(VERTICAL_NAME, File false); (stale, File true)].
Proof.
  intros stale d w. split; [reflexivity|]. split; [reflexivity|].
  exists (fst (chunk_handler w)).
  split; [vm_compute; reflexivity|].
  split; [vm_compute; tauto|vm_compute; reflexivity].
Qed.

(** * What a computation adds to the trace *)

Create HintDb trace discriminated.
Create HintDb effects discriminated.

Section Trace.

Context {ext : Type} `{Svc : Services ext}.

Variable P : event -> Prop.

Lemma adds_ret {A : Type} (x : A) : adds_only P (ret (ext := ext) x).
Proof. intros w. exists []. cbn. now rewrite app_nil_r. Qed.

Lemma adds_raise {A : Type} (e : exn) :
  adds_only P (raise (ext := ext) (A := A) e).
Proof. intros w. exists []. cbn. now rewrite app_nil_r. Qed.

Lemma adds_lift {A : Type} (r : exn + A) : adds_only P (lift (ext := ext) r).
Proof. intros w. exists []. cbn. now rewrite app_nil_r. Qed.

Lemma adds_get_temp : adds_only P (get_temp (ext := ext)).
Proof. intros w. exists []. cbn. now rewrite app_nil_r. Qed.

Lemma adds_set_temp (t : option directory) :
  adds_only P (set_temp (ext := ext) t).
Proof. intros w. exists []. cbn. now rewrite app_nil_r. Qed.

Lemma adds_emit (e : event) : P e -> adds_only P (emit (ext := ext) e).
Proof. intros H w. exists [e]. cbn. auto. Qed.

Lemma adds_bind {A B : Type} (m : M ext A) (k : A -> M ext B) :
  adds_only P m -> (forall x, adds_only P (k x)) -> adds_only P (bind m k).
Proof.
  intros Hm Hk w. unfold bind. destruct (Hm w) as (e1 & H1 & F1).
  destruct (m w) as [w1 [e|x]]; cbn in *.
  - exists e1. auto.
  - destruct (Hk x w1) as (e2 & H2 & F2). exists (e1 ++ e2).
    rewrite H2, H1, app_assoc. split; [reflexivity|].
    apply Forall_app. auto.
Qed.

Lemma adds_try {A : Type} (body : M ext A) (class : exn -> bool)
  (handler : exn -> M ext A) :
  adds_only P body -> (forall e, adds_only P (handler e)) ->
  adds_only P (try_except body class handler).
Proof.
  intros Hb Hh w. unfold try_except. destruct (Hb w) as (e1 & H1 & F1).
  destruct (body w) as [w1 [e|x]]; cbn in *.
  - destruct (class e); [|exists e1; auto].
    destruct (Hh e w1) as (e2 & H2 & F2). exists (e1 ++ e2).
    rewrite H2, H1, app_assoc. split; [reflexivity|].
    apply Forall_app. auto.
  - exists e1. auto.
Qed.

Lemma adds_for_each {A : Type} (l : list A) (body : A -> M ext unit) :
  (forall x, adds_only P (body x)) -> adds_only P (for_each l body).
Proof.
  intros Hb. induction l as [|x l IH]; cbn [for_each].
  - apply adds_ret.
  - apply adds_bind; auto.
Qed.

Lemma adds_call_service {A : Type} (ev : list event)
  (f : ext -> ext * (str + A)) :
  Forall P ev -> adds_only P (call_service ev f).
Proof.
  intros H w. exists ev. unfold call_service.
  destruct (f (outside w)) as [o r]. cbn. auto.
Qed.

Lemma adds_call_summarizer (req : summary_request) :
  P (summarizer_called req) -> adds_only P (call_summarizer req).
Proof.
  intros H w. exists [summarizer_called req]. unfold call_summarizer.
  destruct (summarizer req (outside w)) as [o r]. cbn. auto.
Qed.

End Trace.

#[global] Hint Resolve adds_ret adds_raise adds_lift adds_get_temp
  adds_set_temp adds_emit adds_call_service adds_call_summarizer : trace.

(** Break a computation down to its primitive steps. *)
Ltac adds_steps :=
  repeat first
    [ apply adds_bind; [|intros]
    | apply adds_try; [|intros]
    | apply adds_for_each; intros
    | match goal with
      | |- adds_only _ (match ?x with _ => _ end) => destruct x
      | |- adds_only _ (if ?x then _ else _) => destruct x
      end ].

Section TraceOf.

Context {ext : Type} `{Svc : Services ext}.

Variable P : event -> Prop.

Lemma adds_write_file (name : str) :
  P (file_written name) -> adds_only P (write_file (ext := ext) name).
Proof. intros H. unfold write_file. adds_steps; auto with trace. Qed.

Lemma adds_summarize_chunks (chunks : list str) :
  (forall req, P (summarizer_called req)) ->
  forall acc, adds_only P (summarize_chunks chunks acc).
Proof.
  intros H. induction chunks as [|c rest IH]; intros acc;
    cbn [summarize_chunks]; adds_steps; auto with trace.
Qed.

Lemma adds_get_reel_segments (transcript : str) (dur : Z) :
  (forall req, P (summarizer_called req)) ->
  adds_only P (get_reel_segments transcript dur).
Proof.
  intros H. unfold get_reel_segments, reel_loop. adds_steps;
    auto using adds_summarize_chunks with trace.
Qed.

Lemma adds_extract_highlights (transcript : str) :
  (forall req, P (summarizer_called req)) ->
  (forall s, P (st_info s)) -> (forall s, P (st_success s)) ->
  (forall s, P (st_error s)) -> (forall s, P (st_text s)) ->
  (forall a b, P (st_text_area a b)) ->
  adds_only P (extract_highlights transcript).
Proof.
  intros. unfold extract_highlights. adds_steps;
    auto using adds_summarize_chunks with trace.
Qed.

End TraceOf.

(** * Properties of the transcription loop *)

(** Close a primitive step whose events satisfy the predicate by
    computation. *)
Ltac adds_leaf :=
  first
    [ apply adds_emit; cbn; first [exact I | reflexivity]
    | apply adds_call_service; repeat constructor; cbn;
      first [exact I | reflexivity]
    | apply adds_summarize_chunks; intros; cbn; exact I
    | auto with trace ].

Section Transcription.

Context {ext : Type} `{Svc : Services ext}.

Lemma bind_ok {A B : Type} (m : M ext A) (k : A -> M ext B)
  (w w1 : world ext) (x : A) :
  m w = (w1, inr x) -> bind m k w = k x w1.
Proof. intros H. unfold bind. now rewrite H. Qed.

Lemma try_bind_ok {A B : Type} (m : M ext A) (k : A -> M ext B)
  (class : exn -> bool) (handler : exn -> M ext B)
  (w w1 : world ext) (x : A) :
  m w = (w1, inr x) ->
  try_except (bind m k) class handler w = try_except (k x) class handler w1.
Proof. intros H. unfold try_except, bind. now rewrite H. Qed.

Lemma call_service_ok {A : Type} (ev : list event)
  (f : ext -> ext * (str + A)) (w : world ext) (o : ext) (x : A) :
  f (outside w) = (o, inr x) ->
  call_service ev f w =
  ({| outside := o; temp := temp w; trace := trace w ++ ev |}, inr x).
Proof. intros H. unfold call_service. now rewrite H. Qed.

Lemma adds_transcribe_audio (name : str) :
  adds_only transcribes_in_english (transcribe_audio name).
Proof.
  unfold transcribe_audio. adds_steps; adds_leaf.
Qed.

Lemma adds_anything_after (name : str) (result : dict str) :
  adds_only (fun _ => True)
    (transcript <- lift (py_getitem result (lit "text")) ;;
     write_file (ext := ext) (name ++ lit ".txt") ;;
     emit (st_success ([9989%N] ++ lit " Transcript for " ++ name ++
                         lit " generated.")) ;;
     emit (st_download_button
             ([11015%N] ++ lit " Download Transcript (" ++ name ++ lit ")")
             transcript (name ++ lit ".txt")) ;;
     emit (st_text_area
             ([128220%N] ++ lit " Transcript Preview: " ++ name)
             transcript) ;;
     extract_highlights transcript).
Proof.
  adds_steps; adds_leaf.
Qed.

(** C8. Whatever audio files are uploaded, every transcription that the loop
    requests is requested with language "en"; and when the detection step of
    a file has identified a language, whichever it is, the next thing the
    loop does after reporting it is to request the transcription of that
    file with language "en". *)
Theorem C8_transcription_in_english (uploaded_audios : list str)
  (name : str) (w : world ext) :
  (exists evs,
      trace (fst (transcribe_all uploaded_audios w)) = trace w ++ evs /\
      Forall transcribes_in_english evs) /\
  forall (w1 : world ext) (o2 o3 o4 o5 : ext) (a a' : audio) (m : mel)
         (probs : dict prob) (detected : str),
    write_file name w = (w1, inr tt) ->
    load_audio (in_temp name) (outside w1) = (o2, inr a) ->
    pad_or_trim a o2 = (o3, inr a') ->
    log_mel_spectrogram a' o3 = (o4, inr m) ->
    detect_language m o4 = (o5, inr probs) ->
    py_max_key probs = inr detected ->
    exists pre post,
      trace (fst (transcribe_audio name w)) =
      pre ++
      [st_success ([9989%N] ++ lit " Detected Language: " ++ detected);
       transcribe_called {| audio_path := in_temp name;
                            language := lit "en"; fp16 := false |}] ++
      post.
Proof.
  split.
  - apply (adds_for_each (P := transcribes_in_english)).
    apply adds_transcribe_audio.
  - intros w1 o2 o3 o4 o5 a a' m probs detected Hw Hl Hp Hm Hd Hk.
    unfold transcribe_audio.
    erewrite bind_ok; [|exact Hw].
    unfold bind at 1, emit at 1.
    erewrite try_bind_ok; [|reflexivity].
    erewrite try_bind_ok; [|apply call_service_ok; exact Hl].
    erewrite try_bind_ok; [|apply call_service_ok; exact Hp].
    erewrite try_bind_ok; [|apply call_service_ok; exact Hm].
    erewrite try_bind_ok; [|apply call_service_ok; exact Hd].
    unfold lift at 1. rewrite Hk.
    erewrite try_bind_ok; [|reflexivity].
    erewrite try_bind_ok; [|reflexivity].
    cbn [outside temp trace].
    match goal with
    | |- context [try_except _ _ _ ?w0] => set (wt := w0)
    end.
    exists (removelast (trace wt)). unfold transcribe_request_of.
    set (req := {| audio_path := in_temp name; language := lit "en";
                   fp16 := false |}).
    assert (Hwt : trace wt =
                  removelast (trace wt) ++
                  [st_success ([9989%N] ++ lit " Detected Language: " ++
                                 detected)]).
    { unfold wt. cbn [trace]. now rewrite removelast_last. }
    destruct (transcribe req (outside wt)) as [o6 [msg|result]] eqn:Ht.
    + unfold try_except, bind at 1, call_service at 1. rewrite Ht.
      cbn [service_result is_Exception].
      unfold bind, emit. cbn [fst trace].
      eexists. rewrite Hwt at 1. rewrite <- !app_assoc. cbn [app].
      reflexivity.
    + erewrite try_bind_ok; [|apply call_service_ok; exact Ht].
      match goal with
      | |- context [try_except ?b ?c ?h ?w0] =>
          destruct (@adds_try ext (fun _ => True) _ b c h
                      (adds_anything_after name result)
                      (fun e => ltac:(adds_steps; adds_leaf)) w0)
            as (post & Hpost & _)
      end.
      exists post. rewrite Hpost. cbn [trace]. rewrite Hwt at 1.
      rewrite <- !app_assoc. reflexivity.
Qed.

End Transcription.

Lemma C8_transcription_in_english_witness :
  let name := lit "talk.mp3" in
  let w := Stub.world_of (Some []) in
  py_max_key (Svc := Stub.services) [(lit "en", 1%N); (lit "fr", 9%N)] =
  inr (lit "fr") /\
  exists pre post,
    trace (fst (transcribe_audio name w)) =
    pre ++
    [st_success ([9989%N] ++ lit " Detected Language: fr");
     transcribe_called {| audio_path := in_temp name;
                          language := lit "en"; fp16 := false |}] ++
    post.
Proof.
  intros name w. split; [reflexivity|].
  exact (proj2 (C8_transcription_in_english [] name w)
           (fst (write_file name w)) tt tt tt tt tt tt tt
           [(lit "en", 1%N); (lit "fr", 9%N)] (lit "fr")
           eq_refl eq_refl eq_refl eq_refl eq_refl eq_refl).
Defined.

(** * Properties of the cleanup *)

Section Entries.

Lemma lookup_skip (a b : directory) (name : str) :
  ~ In name (map fst a) -> lookup (a ++ b) name = lookup b name.
Proof.
  induction a as [|[k m] a IH]; intros H; [reflexivity|].
  simpl in *. destruct (str_eqb name k) eqn:E.
  - apply str_eqb_eq in E. subst. tauto.
  - apply IH. tauto.
Qed.

Lemma lookup_here (b : directory) (name : str) (c : node) :
  lookup ((name, c) :: b) name = Some c.
Proof. simpl. now rewrite str_eqb_refl. Qed.

Lemma unlink_middle (a b : directory) (name : str) (c : node) :
  ~ In name (map fst a) -> ~ In name (map fst b) ->
  unlink (a ++ (name, c) :: b) name = a ++ b.
Proof.
  intros Ha Hb. unfold unlink. rewrite filter_app. cbn [filter fst].
  rewrite str_eqb_refl. cbn [negb].
  fold (unlink a name). fold (unlink b name).
  now rewrite !unlink_not_in.
Qed.

Lemma replace_middle (a b : directory) (name : str) (c n : node) :
  ~ In name (map fst a) ->
  replace_entry (a ++ (name, c) :: b) name n = a ++ (name, n) :: b.
Proof.
  induction a as [|[k m] a IH]; intros H.
  - simpl. now rewrite str_eqb_refl.
  - simpl in *. destruct (str_eqb name k) eqn:E.
    + apply str_eqb_eq in E. subst. tauto.
    + f_equal. apply IH. tauto.
Qed.

Lemma names_children_done (d : directory) :
  map fst (children_done d) = map fst d.
Proof. unfold children_done. rewrite map_map. now apply map_ext. Qed.

Lemma names_filter (p : str * node -> bool) (d : directory) (name : str) :
  ~ In name (map fst d) -> ~ In name (map fst (filter p d)).
Proof.
  intros H Hin. apply H. apply in_map_iff in Hin.
  destruct Hin as (e & He & Hin). apply filter_In in Hin.
  apply in_map_iff. exists e. tauto.
Qed.

Lemma NoDup_middle (a b : directory) (name : str) (c : node) :
  NoDup (map fst (a ++ (name, c) :: b)) ->
  ~ In name (map fst a) /\ ~ In name (map fst b).
Proof.
  rewrite map_app. cbn [map fst]. intros ND.
  apply NoDup_remove_2 in ND. rewrite in_app_iff in ND. tauto.
Qed.

Lemma survivors_filter (d : directory) :
  survivors d = keep_dirs (keep_files (children_done d)).
Proof.
  unfold survivors. cbn [survivors_node].
  induction d as [|[name c] d IH]; [reflexivity|].
  rewrite IH. unfold keep_dirs, keep_files, children_done.
  cbn [map filter fst snd].
  destruct (survivors_node c) as [[|]|[|x sub]]; reflexivity.
Qed.

Lemma all_files_split (d : directory) :
  all_files d = all_files_below d ++ own_files d.
Proof.
  unfold all_files. cbn [all_files_node]. f_equal.
  induction d as [|[name c] d IH]; [reflexivity|].
  unfold all_files_below in *. cbn [flat_map snd]. now rewrite IH.
Qed.

Lemma well_formed_split (d : directory) :
  well_formed d <->
  NoDup (map fst d) /\ Forall (fun e => well_formed_node (snd e)) d.
Proof.
  unfold well_formed. cbn [well_formed_node].
  assert (H : (fix each (es : directory) : Prop :=
                 match es with
                 | [] => True
                 | (_, c) :: es' => well_formed_node c /\ each es'
                 end) d <-> Forall (fun e => well_formed_node (snd e)) d).
  { induction d as [|[name c] d IH].
    - split; constructor.
    - split.
      + intros [Hc Hd]. constructor; [exact Hc|now apply IH].
      + intros HF. inversion HF; subst. split; [assumption|now apply IH]. }
  tauto.
Qed.

End Entries.

Section Cleanup.

Context {ext : Type} `{Svc : Services ext}.

Lemma walk_delete_node_Dir (d : directory) :
  walk_delete_node (ext := ext) (Dir d) =
  (walk_subdirs d ;; delete_in_root (dir_names d) (file_names d)).
Proof.
  reflexivity.
Qed.

(** The loop of lines 18-22 over the files of [es], when the directory is
    [keep_files pre ++ es]: the removable files go, each locked file gets
    its warning, nothing is raised. *)
Lemma files_loop (es : directory) :
  forall (pre : directory) (w : world ext),
    NoDup (map fst (pre ++ es)) ->
    temp w = Some (keep_files pre ++ es) ->
    for_each (file_names es)
      (fun name =>
         try_except (os_remove name) is_PermissionError
           (fun _ => emit (st_warning ([9888%N] ++
                             lit " Skipped locked file: " ++ name)))) w =
    ({| outside := outside w;
        temp := Some (keep_files pre ++ keep_files es);
        trace := trace w ++
                 map skipped_warning (map fst (filter snd (own_files es))) |},
     inr tt).
Proof.
  induction es as [|[name c] es IH]; intros pre w ND Ht.
  - cbn. rewrite !app_nil_r in *. rewrite <- Ht. now destruct w.
  - destruct (NoDup_middle _ _ _ _ ND) as [Hpre Hes].
    assert (Hkeep : ~ In name (map fst (keep_files pre)))
      by now apply names_filter.
    assert (ND' : NoDup (map fst ((pre ++ [(name, c)]) ++ es)))
      by now rewrite <- app_assoc.
    destruct c as [[|]|sub].
    + (* a locked file *)
      unfold file_names. cbn [filter snd is_dir negb map fst for_each].
      fold (file_names es). unfold bind at 1.
      assert (E : try_except (os_remove name) is_PermissionError
                    (fun _ => emit (skipped_warning name)) w =
                  ({| outside := outside w;
                      temp := Some (keep_files pre ++
                                    (name, File true) :: es);
                      trace := trace w ++ [skipped_warning name] |},
                   inr tt)).
      { unfold try_except, os_remove, on_temp, bind, get_temp, ret, lift.
        rewrite Ht. unfold remove_entry.
        rewrite lookup_skip, lookup_here by assumption.
        cbn [is_PermissionError]. unfold emit. now rewrite Ht. }
      unfold skipped_warning in E at 1. rewrite E.
      rewrite (IH (pre ++ [(name, File true)])); [|exact ND'|].
      * cbn [outside temp trace own_files flat_map snd fst app filter map].
        unfold keep_files. rewrite filter_app.
        cbn [filter snd is_removable negb].
        rewrite <- !app_assoc. reflexivity.
      * cbn [temp]. unfold keep_files. rewrite filter_app.
        cbn [filter snd is_removable negb]. now rewrite <- app_assoc.
    + (* a removable file *)
      unfold file_names. cbn [filter snd is_dir negb map fst for_each].
      fold (file_names es). unfold bind at 1.
      assert (E : try_except (os_remove name) is_PermissionError
                    (fun _ => emit (skipped_warning name)) w =
                  ({| outside := outside w;
                      temp := Some (keep_files pre ++ es);
                      trace := trace w |}, inr tt)).
      { unfold try_except, os_remove, on_temp, bind, get_temp, ret, lift,
          set_temp.
        rewrite Ht. unfold remove_entry.
        rewrite lookup_skip, lookup_here by assumption.
        now rewrite unlink_middle. }
      unfold skipped_warning in E at 1. rewrite E.
      rewrite (IH (pre ++ [(name, File false)])); [|exact ND'|].
      * cbn [outside temp trace own_files flat_map snd fst app filter map].
        unfold keep_files. rewrite filter_app.
        cbn [filter snd is_removable negb]. now rewrite app_nil_r.
      * cbn [temp]. unfold keep_files. rewrite filter_app.
        cbn [filter snd is_removable negb]. now rewrite app_nil_r.
    + (* a directory: not in the list of files *)
      unfold file_names. cbn [filter snd is_dir negb].
      fold (file_names es).
      rewrite (IH (pre ++ [(name, Dir sub)])); [|exact ND'|].
      * cbn [own_files flat_map snd app].
        unfold keep_files. rewrite filter_app.
        cbn [filter snd is_removable negb]. now rewrite <- !app_assoc.
      * rewrite Ht. unfold keep_files. rewrite filter_app.
        cbn [filter snd is_removable negb]. now rewrite <- app_assoc.
Qed.

(** The loop of lines 23-27 over the directories of [es]: the empty ones
    go, the others stay, nothing is raised or shown. *)
Lemma dirs_loop (es : directory) :
  forall (pre : directory) (w : world ext),
    NoDup (map fst (pre ++ es)) ->
    temp w = Some (keep_dirs pre ++ es) ->
    for_each (dir_names es)
      (fun name => try_except (os_rmdir name) is_OSError (fun _ => ret tt))
      w =
    ({| outside := outside w;
        temp := Some (keep_dirs pre ++ keep_dirs es);
        trace := trace w |}, inr tt).
Proof.
  induction es as [|[name c] es IH]; intros pre w ND Ht.
  - cbn. rewrite !app_nil_r in *. rewrite <- Ht. now destruct w.
  - destruct (NoDup_middle _ _ _ _ ND) as [Hpre Hes].
    assert (Hkeep : ~ In name (map fst (keep_dirs pre)))
      by now apply names_filter.
    assert (ND' : NoDup (map fst ((pre ++ [(name, c)]) ++ es)))
      by now rewrite <- app_assoc.
    destruct c as [l|[|x sub]].
    + (* a file: not in the list of directories *)
      unfold dir_names. cbn [filter snd is_dir]. fold (dir_names es).
      rewrite (IH (pre ++ [(name, File l)])); [|exact ND'|].
      * unfold keep_dirs. rewrite filter_app.
        cbn [filter snd is_empty_dir negb]. now rewrite <- !app_assoc.
      * rewrite Ht. unfold keep_dirs. rewrite filter_app.
        cbn [filter snd is_empty_dir negb]. now rewrite <- app_assoc.
    + (* an empty directory *)
      unfold dir_names. cbn [filter snd is_dir map fst for_each].
      fold (dir_names es). unfold bind at 1.
      assert (E : try_except (os_rmdir name) is_OSError (fun _ => ret tt) w =
                  ({| outside := outside w;
                      temp := Some (keep_dirs pre ++ es);
                      trace := trace w |}, inr tt)).
      { unfold try_except, os_rmdir, on_temp, bind, get_temp, ret, lift,
          set_temp.
        rewrite Ht. unfold rmdir_entry.
        rewrite lookup_skip, lookup_here by assumption.
        now rewrite unlink_middle. }
      rewrite E. rewrite (IH (pre ++ [(name, Dir [])])); [|exact ND'|].
      * cbn [outside temp trace]. unfold keep_dirs. rewrite filter_app.
        cbn [filter snd is_empty_dir negb]. now rewrite app_nil_r.
      * cbn [temp]. unfold keep_dirs. rewrite filter_app.
        cbn [filter snd is_empty_dir negb]. now rewrite app_nil_r.
    + (* a directory that is not empty *)
      unfold dir_names. cbn [filter snd is_dir map fst for_each].
      fold (dir_names es). unfold bind at 1.
      assert (E : try_except (os_rmdir name) is_OSError (fun _ => ret tt) w =
                  (w, inr tt)).
      { unfold try_except, os_rmdir, on_temp, bind, get_temp, ret, lift.
        rewrite Ht. unfold rmdir_entry.
        now rewrite lookup_skip, lookup_here by assumption. }
      rewrite E. rewrite (IH (pre ++ [(name, Dir (x :: sub))])); [|exact ND'|].
      * unfold keep_dirs. rewrite filter_app.
        cbn [filter snd is_empty_dir negb]. now rewrite <- !app_assoc.
      * rewrite Ht. unfold keep_dirs. rewrite filter_app.
        cbn [filter snd is_empty_dir negb]. now rewrite <- app_assoc.
Qed.

Lemma file_names_children_done (d : directory) :
  file_names (children_done d) = file_names d.
Proof.
  unfold file_names, children_done.
  induction d as [|[name c] d IH]; [reflexivity|].
  cbn [map filter fst snd].
  destruct c as [l|sub]; cbn [survivors_node is_dir negb map fst];
    now rewrite IH.
Qed.

Lemma own_files_children_done (d : directory) :
  own_files (children_done d) = own_files d.
Proof.
  unfold own_files, children_done.
  induction d as [|[name c] d IH]; [reflexivity|].
  cbn [map flat_map fst snd].
  destruct c as [l|sub]; cbn [survivors_node]; now rewrite IH.
Qed.

Lemma dir_names_kept (d : directory) :
  dir_names (keep_files (children_done d)) = dir_names d.
Proof.
  unfold dir_names, keep_files, children_done.
  induction d as [|[name c] d IH]; [reflexivity|].
  cbn [map filter fst snd].
  destruct c as [[|]|sub];
    cbn [survivors_node is_removable negb filter snd is_dir map fst];
    now rewrite IH.
Qed.

(** The walk of the subdirectories of [es], when the directory is
    [children_done pre ++ es]. *)
Lemma subdirs_loop (es : directory) :
  Forall (fun e => well_formed_node (snd e) ->
                   walk_spec (ext := ext) (snd e)) es ->
  Forall (fun e => well_formed_node (snd e)) es ->
  forall (pre : directory) (w : world ext),
    NoDup (map fst (pre ++ es)) ->
    temp w = Some (children_done pre ++ es) ->
    walk_subdirs es w =
    ({| outside := outside w;
        temp := Some (children_done pre ++ children_done es);
        trace := trace w ++
                 map skipped_warning
                   (map fst (filter snd (all_files_below es))) |},
     inr tt).
Proof.
  induction es as [|[name c] es IH]; intros HI HW pre w ND Ht.
  - cbn. rewrite !app_nil_r in *. rewrite <- Ht. now destruct w.
  - inversion HI as [|? ? Hc HI']; subst.
    inversion HW as [|? ? Wc HW']; subst. cbn [snd] in *.
    destruct (NoDup_middle _ _ _ _ ND) as [Hpre Hes].
    assert (Hdone : ~ In name (map fst (children_done pre)))
      by now rewrite names_children_done.
    assert (ND' : NoDup (map fst ((pre ++ [(name, c)]) ++ es)))
      by now rewrite <- app_assoc.
    assert (Hcd : children_done (pre ++ [(name, c)]) =
                  children_done pre ++ [(name, survivors_node c)]).
    { unfold children_done. now rewrite map_app. }
    cbn [walk_subdirs]. unfold bind at 1.
    destruct c as [l|sub].
    + unfold ret at 1.
      rewrite (IH HI' HW' (pre ++ [(name, File l)])); [|exact ND'|].
      * rewrite Hcd. cbn [survivors_node].
        unfold all_files_below, children_done.
        cbn [flat_map snd all_files_node app map fst].
        now rewrite <- !app_assoc.
      * rewrite Ht, Hcd. cbn [survivors_node]. now rewrite <- app_assoc.
    + specialize (Hc Wc). cbn [walk_spec] in Hc.
      unfold in_subdir at 1. rewrite Ht.
      rewrite lookup_skip, lookup_here by assumption.
      rewrite Hc by reflexivity. cbn [outside temp trace].
      rewrite replace_middle by assumption.
      rewrite (IH HI' HW' (pre ++ [(name, Dir sub)])); [|exact ND'|].
      * cbn [outside temp trace]. rewrite Hcd.
        unfold all_files_below, children_done.
        cbn [flat_map snd map fst].
        fold (all_files sub). rewrite filter_app, !map_app.
        fold (locked_files sub).
        now rewrite <- !app_assoc.
      * cbn [temp]. rewrite Hcd. now rewrite <- app_assoc.
Qed.

(** safe_delete_dir's walk, lines 17-27, on a well-formed tree. *)
Lemma walk_delete_node_ok (n : node) :
  well_formed_node n -> walk_spec (ext := ext) n.
Proof.
  induction n as [l|d IH] using node_induction; intros WF; [exact I|].
  apply (well_formed_split d) in WF. destruct WF as [ND WF].
  cbn [walk_spec]. intros w Ht.
  rewrite walk_delete_node_Dir. unfold bind at 1.
  assert (IH' : Forall (fun e => well_formed_node (snd e) ->
                                 walk_spec (ext := ext) (snd e)) d)
    by exact IH.
  rewrite (subdirs_loop IH' WF [] w ND Ht).
  unfold delete_in_root, bind at 1.
  rewrite <- (file_names_children_done d).
  rewrite (files_loop (children_done d) [] _);
    [|now rewrite app_nil_l, names_children_done|reflexivity].
  rewrite <- (dir_names_kept d).
  rewrite (dirs_loop (keep_files (children_done d)) [] _);
    [| |reflexivity].
  - cbn [outside temp trace app keep_dirs keep_files filter].
    rewrite survivors_filter, own_files_children_done.
    unfold locked_files. rewrite all_files_split, filter_app, !map_app.
    now rewrite <- !app_assoc.
  - rewrite app_nil_l. apply NoDup_filter_names.
    now rewrite names_children_done.
Qed.

End Cleanup.

Section Survivors.

Lemma own_files_survivors (d : directory) :
  own_files (keep_dirs (keep_files (children_done d))) =
  filter snd (own_files d).
Proof.
  unfold own_files, keep_dirs, keep_files, children_done.
  induction d as [|[name c] d IH]; [reflexivity|].
  cbn [map filter fst snd flat_map].
  destruct c as [[|]|sub]; cbn [survivors_node is_removable negb filter snd].
  - cbn [is_empty_dir negb flat_map snd fst app filter]. now rewrite IH.
  - cbn [app filter snd]. exact IH.
  - destruct (is_empty_dir _); cbn [negb flat_map snd app]; exact IH.
Qed.

Lemma all_files_below_survivors (d : directory) :
  Forall (fun e => all_files_node (survivors_node (snd e)) =
                   filter snd (all_files_node (snd e))) d ->
  all_files_below (keep_dirs (keep_files (children_done d))) =
  filter snd (all_files_below d).
Proof.
  unfold all_files_below, keep_dirs, keep_files, children_done.
  induction d as [|[name c] d IH]; intros HF; [reflexivity|].
  inversion HF as [|? ? Hc HF']; subst. cbn [snd] in Hc.
  specialize (IH HF').
  cbn [map filter fst snd flat_map]. rewrite filter_app, <- Hc.
  destruct (survivors_node c) as [[|]|[|x sub]];
    cbn [is_removable is_empty_dir negb filter snd flat_map all_files_node
         own_files app];
    now rewrite IH.
Qed.

(** After the walk the tree holds the locked files and nothing else. *)
Lemma all_files_survivors_node (n : node) :
  all_files_node (survivors_node n) = filter snd (all_files_node n).
Proof.
  induction n as [l|d IH] using node_induction; [reflexivity|].
  change (survivors_node (Dir d)) with (Dir (survivors d)).
  fold (all_files (survivors d)). fold (all_files d).
  rewrite !all_files_split, survivors_filter, filter_app.
  now rewrite all_files_below_survivors, own_files_survivors.
Qed.

Lemma all_files_survivors (d : directory) :
  all_files (survivors d) = filter snd (all_files d).
Proof. exact (all_files_survivors_node (Dir d)). Qed.

End Survivors.

Section Reset.

Context {ext : Type} `{Svc : Services ext}.

Lemma emit_repeat (n : nat) (ev : event) :
  forall w : world ext,
    for_each (repeat tt n) (fun _ => emit ev) w =
    ({| outside := outside w; temp := temp w;
        trace := trace w ++ repeat ev n |}, inr tt).
Proof.
  induction n as [|n IH]; intros w.
  - cbn. rewrite app_nil_r. now destruct w.
  - cbn [repeat for_each]. unfold bind at 1, emit at 1. rewrite IH.
    cbn [outside temp trace]. now rewrite <- app_assoc.
Qed.

(** safe_delete_dir on a well-formed tree: it returns, having warned once
    per locked file; TEMP_DIR is gone if nothing survived and holds the
    survivors otherwise. *)
Lemma safe_delete_dir_ok (w : world ext) (d : directory) :
  temp w = Some d -> well_formed d ->
  safe_delete_dir w =
  ({| outside := outside w;
      temp := match survivors d with
              | [] => None
              | _ :: _ => Some (survivors d)
              end;
      trace := trace w ++ map skipped_warning (locked_files d) |}, inr tt).
Proof.
  intros Ht WF. unfold safe_delete_dir.
  unfold bind at 1, get_temp at 1. rewrite Ht. unfold bind at 1.
  unfold walk_delete.
  pose proof (walk_delete_node_ok (ext := ext) (Dir d) WF) as Hwalk.
  cbn [walk_spec] in Hwalk. rewrite (Hwalk w Ht).
  unfold try_except, bind, get_temp, set_temp, raise, ret.
  cbn [outside temp trace].
  destruct (survivors d); reflexivity.
Qed.

(** C9 (amended). On a tree that holds exactly one locked file, the clean
    button raises nothing, warns exactly once, for that file, and reports
    success; on return TEMP_DIR exists and is not empty: it holds the locked
    file, below the directories that lead to it, and no other file. No
    directory has to be created, so no error of creation can surface. *)
Theorem C9_reset_keeps_locked_file (w : world ext) (d : directory)
  (name : str) (chunk_video_slots : nat) :
  temp w = Some d ->
  well_formed d ->
  locked_files d = [name] ->
  exists w' kept,
    clean_handler chunk_video_slots w = (w', inr tt) /\
    outside w' = outside w /\
    temp w' = Some kept /\
    kept = survivors d /\
    kept <> [] /\
    all_files kept = [(name, true)] /\
    trace w' =
    trace w ++ repeat slot_empty (S chunk_video_slots) ++
    [st_warning ([9888%N] ++ lit " Skipped locked file: " ++ name);
     st_success ([129529%N] ++ lit " Temporary files cleaned.")].
Proof.
  intros Ht WF HL.
  assert (Hall : all_files (survivors d) = [(name, true)]).
  { rewrite all_files_survivors. unfold locked_files in HL.
    destruct (filter snd (all_files d)) as [|[n l] [|y rest]] eqn:F;
      try discriminate.
    assert (Hin : In (n, l) (filter snd (all_files d)))
      by (rewrite F; now left).
    apply filter_In in Hin. destruct Hin as [_ Hl]. cbn in Hl, HL.
    congruence. }
  assert (Hne : survivors d <> []).
  { intros E. rewrite E in Hall. discriminate. }
  exists {| outside := outside w; temp := Some (survivors d);
            trace := trace w ++ repeat slot_empty (S chunk_video_slots) ++
                     [skipped_warning name;
                      st_success ([129529%N] ++
                                    lit " Temporary files cleaned.")] |}.
  exists (survivors d). cbn [outside temp trace].
  repeat split; try assumption.
  unfold clean_handler. unfold bind at 1, emit at 1.
  unfold bind at 1. rewrite emit_repeat. cbn [outside temp trace].
  unfold try_except, bind at 1.
  erewrite safe_delete_dir_ok; [|exact Ht|exact WF].
  cbn [outside temp trace]. rewrite HL.
  destruct (survivors d) as [|e kept] eqn:E; [contradiction|].
  unfold bind at 1, os_makedirs_temp, bind at 1, get_temp at 1.
  cbn [temp]. unfold ret at 1, emit.
  cbn [outside temp trace map]. f_equal. f_equal.
  rewrite <- !app_assoc. cbn [repeat app]. reflexivity.
Qed.

End Reset.

(** ** The clean button on concrete trees *)

Lemma C9_reset_keeps_locked_file_witness :
  let d := [(lit "clips", Dir [(lit "a.mp4", File true);
                               (lit "b.mp4", File false)]);
            (lit "audio.wav", File false);
            (lit "old", Dir [])] in
  let w := Stub.world_of (Some d) in
  exists w',
    clean_handler 0 w = (w', inr tt) /\
    temp w' = Some [(lit "clips", Dir [(lit "a.mp4", File true)])].
Proof.
  intros d w.
  assert (WF : well_formed d).
  { cbn. repeat split; repeat constructor; cbv; intuition discriminate. }
  destruct (C9_reset_keeps_locked_file w (d := d) (name := lit "a.mp4") 0
              eq_refl WF eq_refl)
    as (w' & kept & H & _ & Ht & Hk & _).
  exists w'. split; [exact H|]. rewrite Ht, Hk. reflexivity.
Defined.

(** With one locked file directly in TEMP_DIR, TEMP_DIR is not empty when
    the clean button returns. *)
Lemma C9_counterexample :
  let d := [(lit "a.mp4", File true)] in
  let w := Stub.world_of (Some d) in
  locked_files d = [lit "a.mp4"] /\
  exists w',
    clean_handler 0 w = (w', inr tt) /\
    temp w' = Some d /\
    temp w' <> Some [].
Proof.
  intros d w. split; [reflexivity|].
  exists (fst (clean_handler 0 w)).
  split; [vm_compute; reflexivity|].
  split; [vm_compute; reflexivity|].
  vm_compute. discriminate.
Qed.

(** * Further properties of format_timestamp *)

Lemma field_width (z : Z) :
  (0 <= z < 100)%Z -> List.length (py_format_zero 2 z) = 2.
Proof.
  intros Hz.
  assert (A : forallb (fun k => List.length (py_format_zero 2 (Z.of_nat k))
                                =? 2) (seq 0 100) = true)
    by (vm_compute; reflexivity).
  rewrite forallb_forall in A. specialize (A (Z.to_nat z)).
  rewrite Z2Nat.id in A by lia. apply Nat.eqb_eq, A, in_seq. lia.
Qed.

Lemma field_injective (a b : Z) :
  (0 <= a < 100)%Z -> (0 <= b < 100)%Z ->
  py_format_zero 2 a = py_format_zero 2 b -> a = b.
Proof.
  intros Ha Hb E.
  assert (A : forallb (fun i => forallb (fun j =>
                 implb (str_eqb (py_format_zero 2 (Z.of_nat i))
                                (py_format_zero 2 (Z.of_nat j)))
                       (i =? j)) (seq 0 100)) (seq 0 100) = true)
    by (vm_compute; reflexivity).
  rewrite forallb_forall in A. specialize (A (Z.to_nat a)).
  rewrite forallb_forall in A.
  assert (Ia : In (Z.to_nat a) (seq 0 100)) by (apply in_seq; lia).
  assert (Ib : In (Z.to_nat b) (seq 0 100)) by (apply in_seq; lia).
  specialize (A Ia (Z.to_nat b) Ib).
  rewrite !Z2Nat.id in A by lia. rewrite E, str_eqb_refl in A.
  cbn [implb] in A. apply Nat.eqb_eq in A. lia.
Qed.

Lemma format_timestamp_fields (seconds : Z) :
  format_timestamp seconds =
  py_format_zero 2 (seconds / 60 / 60) ++ lit ":" ++
  py_format_zero 2 ((seconds / 60) mod 60) ++ lit ":" ++
  py_format_zero 2 (seconds mod 60).
Proof. reflexivity. Qed.

Lemma two_chars (s : str) :
  List.length s = 2 -> exists a b, s = [a; b].
Proof. destruct s as [|a [|b [|c s]]]; try discriminate. eauto. Qed.

(** X1. Below a hundred hours the timestamp has exactly eight characters,
    with a colon in third and in sixth place. *)
Theorem format_timestamp_shape (seconds : Z) :
  (0 <= seconds < 360000)%Z ->
  List.length (format_timestamp seconds) = 8 /\
  nth 2 (format_timestamp seconds) 0%N = 58%N /\
  nth 5 (format_timestamp seconds) 0%N = 58%N.
Proof.
  intros H. rewrite format_timestamp_fields.
  assert (Hh : (0 <= seconds / 60 / 60 < 100)%Z).
  { rewrite Z.div_div by lia. split.
    - apply Z.div_pos; lia.
    - apply Z.div_lt_upper_bound; lia. }
  assert (Hm : (0 <= (seconds / 60) mod 60 < 100)%Z)
    by (pose proof (Z.mod_pos_bound (seconds / 60) 60); lia).
  assert (Hs : (0 <= seconds mod 60 < 100)%Z)
    by (pose proof (Z.mod_pos_bound seconds 60); lia).
  destruct (two_chars _ (field_width Hh)) as (h1 & h2 & ->).
  destruct (two_chars _ (field_width Hm)) as (m1 & m2 & ->).
  destruct (two_chars _ (field_width Hs)) as (s1 & s2 & ->).
  repeat split.
Qed.

(** X2. Below a hundred hours two different numbers of seconds never get
    the same timestamp. *)
Theorem format_timestamp_injective (a b : Z) :
  (0 <= a < 360000)%Z -> (0 <= b < 360000)%Z ->
  format_timestamp a = format_timestamp b -> a = b.
Proof.
  intros Ha Hb E. rewrite !format_timestamp_fields in E.
  assert (B : forall x, (0 <= x < 360000)%Z ->
            (0 <= x / 60 / 60 < 100)%Z /\ (0 <= (x / 60) mod 60 < 100)%Z /\
            (0 <= x mod 60 < 100)%Z).
  { intros x Hx. repeat split;
      try (pose proof (Z.mod_pos_bound (x / 60) 60);
           pose proof (Z.mod_pos_bound x 60); lia).
    - rewrite Z.div_div by lia. apply Z.div_pos; lia.
    - rewrite Z.div_div by lia. apply Z.div_lt_upper_bound; lia. }
  destruct (B a Ha) as (Ah & Am & As). destruct (B b Hb) as (Bh & Bm & Bs).
  destruct (two_chars _ (field_width Ah)) as (x1 & x2 & Eh1).
  destruct (two_chars _ (field_width Am)) as (x3 & x4 & Em1).
  destruct (two_chars _ (field_width As)) as (x5 & x6 & Es1).
  destruct (two_chars _ (field_width Bh)) as (y1 & y2 & Eh2).
  destruct (two_chars _ (field_width Bm)) as (y3 & y4 & Em2).
  destruct (two_chars _ (field_width Bs)) as (y5 & y6 & Es2).
  rewrite Eh1, Em1, Es1, Eh2, Em2, Es2 in E. cbn in E.
  injection E as -> -> -> -> -> ->.
  assert (Eh : (a / 60 / 60 = b / 60 / 60)%Z)
    by (apply field_injective; [assumption|assumption|congruence]).
  assert (Em : ((a / 60) mod 60 = (b / 60) mod 60)%Z)
    by (apply field_injective; [assumption|assumption|congruence]).
  assert (Es : (a mod 60 = b mod 60)%Z)
    by (apply field_injective; [assumption|assumption|congruence]).
  rewrite (Z.div_mod a 60), (Z.div_mod b 60) by lia.
  rewrite (Z.div_mod (a / 60) 60), (Z.div_mod (b / 60) 60) by lia.
  lia.
Qed.

Lemma format_timestamp_shape_witness :
  List.length (format_timestamp 3661) = 8 /\
  nth 2 (format_timestamp 3661) 0%N = 58%N /\
  nth 5 (format_timestamp 3661) 0%N = 58%N.
Proof. apply format_timestamp_shape. lia. Defined.

Lemma format_timestamp_injective_witness : (3661 = 3600 + 61)%Z.
Proof. apply format_timestamp_injective; [lia|lia|reflexivity]. Defined.

(** * Further properties of the highlight timeline *)

Lemma py_lstrip_clean (s : str) : starts_clean (py_lstrip s).
Proof.
  induction s as [|c s IH]; [exact I|].
  cbn [py_lstrip]. destruct (py_isspace c) eqn:E; [exact IH|exact E].
Qed.

Lemma py_lstrip_keeps_end (a b : str) (x : char) :
  py_isspace x = false ->
  py_lstrip (a ++ x :: b) = py_lstrip a ++ x :: b.
Proof.
  intros Hx. induction a as [|c a IH]; cbn [app py_lstrip].
  - now rewrite Hx.
  - destruct (py_isspace c); [exact IH|reflexivity].
Qed.

(** What [strip] returns neither starts nor ends with a blank. *)
Lemma py_strip_clean (s : str) :
  starts_clean (py_strip s) /\ starts_clean (rev (py_strip s)).
Proof.
  unfold py_strip, py_rstrip. rewrite rev_involutive.
  split; [|apply py_lstrip_clean].
  pose proof (py_lstrip_clean s) as H.
  destruct (py_lstrip s) as [|x r]; [exact I|].
  cbn [starts_clean] in H. cbn [rev].
  replace (rev r ++ [x]) with (rev r ++ x :: []) by reflexivity.
  rewrite py_lstrip_keeps_end by assumption.
  rewrite rev_app_distr. cbn. exact H.
Qed.

Lemma points_from_clean (ts : Z) (l : list str) :
  forall i s,
    Forall (fun p => starts_clean (summary_text p) /\
                     starts_clean (rev (summary_text p)))
           (points_from ts l i s).
Proof.
  induction l as [|p l IH]; intros i s; cbn [points_from]; constructor.
  - cbn [summary_text]. apply py_strip_clean.
  - apply IH.
Qed.

Lemma format_point_not_empty (p : HighlightPoint) : format_point p <> [].
Proof.
  unfold format_point. intros E.
  apply (f_equal (@List.length char)) in E.
  rewrite !length_app in E. cbn in E. lia.
Qed.

Lemma chunks_of_empty (transcript : str) :
  chunks_of transcript = [] <-> transcript = [].
Proof.
  split.
  - intros E. rewrite <- (chunks_of_concat transcript), E. reflexivity.
  - intros ->. reflexivity.
Qed.

Section MoreTimeline.

Context {ext : Type} `{Svc : Services ext}.

(** X3. No summary of a returned timeline starts or ends with a blank. *)
Theorem summaries_are_stripped (transcript : str) (dur : Z)
  (w w' : world ext) (tl : list HighlightPoint) :
  get_reel_points transcript dur w = (w', inr tl) ->
  Forall (fun p => starts_clean (summary_text p) /\
                   starts_clean (rev (summary_text p))) tl.
Proof.
  intros H. rewrite get_reel_points_spec in H.
  destruct (summarize_chunks (chunks_of transcript) [] w) as [w1 [e|hs]];
    [discriminate|].
  assert (Htl : tl = timeline (final_state hs dur)) by congruence.
  subst tl. unfold final_state. cbn [timeline]. apply points_from_clean.
Qed.

(** X4. A run that returns has called the summarization service exactly
    once per window, in text order and with the decoding parameters of line
    49, also for the windows beyond the fifth, whose summaries are not used;
    it has not touched TEMP_DIR. *)
Theorem one_call_per_window (transcript : str) (dur : Z) (w w' : world ext)
  (out : str) :
  get_reel_segments transcript dur w = (w', inr out) ->
  trace w' =
  trace w ++
  map (fun chunk => summarizer_called {| text := chunk; max_length := 100;
                                         min_length := 30;
                                         do_sample := false |})
      (chunks_of transcript) /\
  List.length (filter is_summarizer_call (skipn (List.length (trace w))
                                            (trace w'))) =
  ceil_div (List.length transcript) 1000 /\
  temp w' = temp w.
Proof.
  intros H. rewrite get_reel_segments_spec in H.
  pose proof (summarize_chunks_spec (chunks_of transcript) [] w) as S.
  destruct (summarize_chunks (chunks_of transcript) [] w) as [w1 [e|hs]];
    [discriminate|].
  assert (w1 = w') by congruence. subst w1.
  destruct S as (_ & Ht & Htr). split; [exact Htr|]. split; [|exact Ht].
  rewrite Htr, skipn_app, Nat.sub_diag, skipn_all. cbn [app skipn].
  fold WINDOW. rewrite <- (chunks_of_length transcript).
  generalize (chunks_of transcript). intros l.
  induction l as [|c l IH]; cbn; [reflexivity|now rewrite IH].
Qed.

(** X5. A run that raises has called the service on the first windows only,
    up to the one at which it stopped; the exception is the fault of the
    service or the IndexError or KeyError of line 50; TEMP_DIR is
    untouched. *)
Theorem calls_stop_at_failure (transcript : str) (dur : Z)
  (w w' : world ext) (e : exn) :
  get_reel_segments transcript dur w = (w', inl e) ->
  from_summary e = true /\
  temp w' = temp w /\
  exists k,
    k < List.length (chunks_of transcript) /\
    trace w' =
    trace w ++
    map (fun chunk => summarizer_called (summary_request_of chunk))
        (firstn (S k) (chunks_of transcript)).
Proof.
  intros H. rewrite get_reel_segments_spec in H.
  pose proof (summarize_chunks_spec (chunks_of transcript) [] w) as S.
  destruct (summarize_chunks (chunks_of transcript) [] w) as [w1 [e1|hs]];
    [|discriminate].
  assert (w1 = w' /\ e1 = e) as [-> ->] by (split; congruence).
  exact S.
Qed.

(** X6. A run that returns gives the empty string exactly when the
    transcript is empty. *)
Theorem empty_output_iff_empty_transcript (transcript : str) (dur : Z)
  (w w' : world ext) (out : str) :
  get_reel_segments transcript dur w = (w', inr out) ->
  (out = [] <-> transcript = []).
Proof.
  intros H. rewrite get_reel_segments_spec in H.
  destruct (summarize_chunks (chunks_of transcript) [] w)
    as [w1 [e|hs]] eqn:E; [discriminate|].
  assert (Hout : out = formatted (final_state hs dur)) by congruence.
  pose proof (summaries_count _ _ E) as Hc.
  pose proof (final_timeline_length hs dur) as Hl.
  rewrite final_formatted in Hout.
  etransitivity; [|apply chunks_of_empty]. subst out.
  destruct (timeline (final_state hs dur)) as [|p tl].
  - split; [|reflexivity]. intros _.
    destruct (chunks_of transcript) as [|c cs]; [reflexivity|].
    cbn [List.length] in Hc, Hl. lia.
  - split.
    + cbn [map concat]. intros E0. apply app_eq_nil in E0.
      destruct E0 as [E0 _]. now apply format_point_not_empty in E0.
    + intros E0. rewrite E0 in Hc. cbn [List.length] in Hc, Hl. lia.
Qed.

Lemma timeline_offsets (hs : list str) (dur : Z) (k : nat) :
  let n := Nat.min 5 (List.length hs) in
  let ts := (dur / (Z.of_nat n + 1))%Z in
  let tl := timeline (final_state hs dur) in
  k < n ->
  nth k (map start_offset tl) 0%Z = (ts + Z.of_nat k * ts)%Z /\
  nth k (map end_offset tl) 0%Z = (ts + Z.of_nat k * ts + 30)%Z.
Proof.
  cbv zeta. intros Hk. unfold final_state. cbn [timeline].
  set (n := Nat.min 5 (List.length hs)) in *.
  set (ts := (dur / (Z.of_nat n + 1))%Z).
  assert (Hlen : List.length (py_prefix hs n) = n)
    by (rewrite py_prefix_length; lia).
  split.
  - rewrite points_from_starts, Hlen. now rewrite nth_map_seq.
  - pose proof (points_from_ends ts (py_prefix hs n) 1 ts) as He.
    pose proof (points_from_starts ts (py_prefix hs n) 1 ts) as Hs.
    rewrite Hlen in Hs.
    assert (Hl : List.length (points_from ts (py_prefix hs n) 1 ts) = n)
      by now rewrite points_from_length.
    set (pts := points_from ts (py_prefix hs n) 1 ts) in *.
    rewrite Forall_forall in He.
    assert (Hin : In (nth k pts {| ordinal := 0; start_offset := 0;
                                   end_offset := 0; summary_text := [] |})
                     pts) by (apply nth_In; lia).
    specialize (He _ Hin).
    rewrite nth_indep with (d' := end_offset {| ordinal := 0;
                                  start_offset := 0; end_offset := 0;
                                  summary_text := [] |})
      by (rewrite length_map; lia).
    rewrite map_nth, He.
    rewrite <- (nth_map_seq (fun k0 => (ts + Z.of_nat k0 * ts)%Z) 0%Z Hk).
    rewrite <- Hs.
    rewrite nth_indep with (d' := start_offset {| ordinal := 0;
                                  start_offset := 0; end_offset := 0;
                                  summary_text := [] |})
      by (rewrite length_map; lia).
    now rewrite map_nth.
Qed.

End MoreTimeline.

Section Spacing.

Context {ext : Type} `{Svc : Services ext}.

Lemma highlights_disjoint (transcript : str) (dur : Z) (w w' : world ext)
  (tl : list HighlightPoint) :
  get_reel_points transcript dur w = (w', inr tl) ->
  (30 * (Z.of_nat (List.length tl) + 1) <= dur)%Z ->
  disjoint_in_time tl.
Proof.
  intros H Hd. rewrite get_reel_points_spec in H.
  destruct (summarize_chunks (chunks_of transcript) [] w) as [w1 [e|hs]];
    [discriminate|].
  assert (Htl : tl = timeline (final_state hs dur)) by congruence.
  subst tl. clear H. rewrite final_timeline_length in *.
  set (n := Nat.min 5 (List.length hs)) in *.
  assert (Hts : (30 <= dur / (Z.of_nat n + 1))%Z)
    by (apply Z.div_le_lower_bound; lia).
  assert (Hmul : ((Z.of_nat n + 1) * (dur / (Z.of_nat n + 1)) <= dur)%Z)
    by (apply Z.mul_div_le; lia).
  intros k Hk. rewrite final_timeline_length in Hk. fold n in Hk.
  destruct (timeline_offsets hs dur (k := k)) as [_ He]; [fold n; lia|].
  destruct (timeline_offsets hs dur (k := S k)) as [Hs _]; [fold n; lia|].
  fold n in He, Hs. rewrite He, Hs. lia.
Qed.

(** X7. When the duration is at least 30 seconds for each of the
    total_segments + 1 steps, the time step is at least 30: each highlight
    ends before the next one starts, and all of them start after 0 and end
    within the duration. *)
Theorem highlights_fit (transcript : str) (dur : Z) (w w' : world ext)
  (tl : list HighlightPoint) :
  get_reel_points transcript dur w = (w', inr tl) ->
  (30 * (Z.of_nat (List.length tl) + 1) <= dur)%Z ->
  disjoint_in_time tl /\
  forall k, k < List.length tl ->
    (0 < nth k (map start_offset tl) 0)%Z /\
    (nth k (map end_offset tl) 0 <= dur)%Z.
Proof.
  intros H Hd. split; [eapply highlights_disjoint; [exact H|exact Hd]|].
  rewrite get_reel_points_spec in H.
  destruct (summarize_chunks (chunks_of transcript) [] w) as [w1 [e|hs]];
    [discriminate|].
  assert (Htl : tl = timeline (final_state hs dur)) by congruence.
  subst tl. clear H. rewrite final_timeline_length in *.
  set (n := Nat.min 5 (List.length hs)) in *.
  assert (Hts : (30 <= dur / (Z.of_nat n + 1))%Z)
    by (apply Z.div_le_lower_bound; lia).
  assert (Hmul : ((Z.of_nat n + 1) * (dur / (Z.of_nat n + 1)) <= dur)%Z)
    by (apply Z.mul_div_le; lia).
  intros k Hk.
  destruct (timeline_offsets hs dur (k := k)) as [Hs He]; [fold n; lia|].
  fold n in He, Hs. rewrite He, Hs. nia.
Qed.

(** X8. At the only call of the program, with the duration of 600 seconds,
    this holds for every transcript: the highlights never overlap, none
    starts before 100 seconds and none ends after 530. *)
Theorem default_highlights_fit (transcript : str) (w w' : world ext)
  (tl : list HighlightPoint) :
  get_reel_points transcript 600 w = (w', inr tl) ->
  disjoint_in_time tl /\
  forall k, k < List.length tl ->
    (100 <= nth k (map start_offset tl) 0)%Z /\
    (nth k (map end_offset tl) 0 <= 530)%Z.
Proof.
  intros H.
  assert (Hn : List.length tl <= 5).
  { rewrite get_reel_points_spec in H.
    destruct (summarize_chunks (chunks_of transcript) [] w) as [w1 [e|hs]];
      [discriminate|].
    assert (Htl : tl = timeline (final_state hs 600)) by congruence.
    subst tl. rewrite final_timeline_length. lia. }
  assert (Hdis : disjoint_in_time tl)
    by (eapply highlights_disjoint; [exact H|lia]).
  split; [exact Hdis|].
  rewrite get_reel_points_spec in H.
  destruct (summarize_chunks (chunks_of transcript) [] w) as [w1 [e|hs]];
    [discriminate|].
  assert (Htl : tl = timeline (final_state hs 600)) by congruence.
  subst tl. clear H Hdis. rewrite final_timeline_length in *.
  intros k Hk.
  destruct (timeline_offsets hs 600 (k := k)) as [Hs He]; [lia|].
  rewrite He, Hs.
  destruct (Nat.min 5 (List.length hs)) as [|[|[|[|[|[|n]]]]]];
    try lia;
    cbn [Z.of_nat]; repeat (destruct k as [|k]; try lia);
    vm_compute; split; discriminate.
Qed.

(** X9. When the duration is below 30 seconds per step and there are at
    least two highlights, the first one is still running when the second
    one starts. *)
Theorem short_duration_overlaps (transcript : str) (dur : Z)
  (w w' : world ext) (tl : list HighlightPoint) :
  get_reel_points transcript dur w = (w', inr tl) ->
  2 <= List.length tl ->
  (dur < 30 * (Z.of_nat (List.length tl) + 1))%Z ->
  (nth 1 (map start_offset tl) 0 < nth 0 (map end_offset tl) 0)%Z.
Proof.
  intros H Hn Hd. rewrite get_reel_points_spec in H.
  destruct (summarize_chunks (chunks_of transcript) [] w) as [w1 [e|hs]];
    [discriminate|].
  assert (Htl : tl = timeline (final_state hs dur)) by congruence.
  subst tl. clear H. rewrite final_timeline_length in *.
  destruct (timeline_offsets hs dur (k := 0)) as [_ He]; [lia|].
  destruct (timeline_offsets hs dur (k := 1)) as [Hs _]; [lia|].
  rewrite He, Hs.
  assert (dur / (Z.of_nat (Nat.min 5 (List.length hs)) + 1) < 30)%Z
    by (apply Z.div_lt_upper_bound; lia).
  lia.
Qed.

Lemma extract_highlights_returns (transcript : str) (w : world ext) :
  exists w', extract_highlights transcript w = (w', inr tt).
Proof.
  unfold extract_highlights, bind at 1, emit at 1.
  set (w1 := {| outside := outside w; temp := temp w; trace := _ |}).
  unfold try_except, bind at 1.
  rewrite get_reel_segments_spec.
  pose proof (summarize_chunks_spec (chunks_of transcript) [] w1) as S.
  destruct (summarize_chunks (chunks_of transcript) [] w1) as [w2 [e|hs]].
  - destruct S as (He & _).
    rewrite (from_summary_is_Exception _ He).
    unfold bind, emit. cbn [outside temp trace]. eexists. reflexivity.
  - unfold bind, emit. cbn [outside temp trace]. eexists. reflexivity.
Qed.

(** X10. The call site never raises, whatever the service does: it ends by
    showing either the text area with the timeline or the error with the
    text of the exception. *)
Theorem extract_highlights_total (transcript : str) (w : world ext) :
  exists w' shown,
    extract_highlights transcript w = (w', inr tt) /\
    (exists pre, trace w' = pre ++ shown) /\
    ((exists out,
         shown = [st_success ([9989%N] ++
                    lit " Highlighted Moments Extracted:");
                  st_text_area ([127775%N] ++ lit " Reel-Worthy Moments")
                    out]) \/
     (exists e,
         shown = [st_error ([10060%N] ++
                    lit " Failed to extract highlight moments.");
                  st_text (exn_str e)])).
Proof.
  unfold extract_highlights, bind at 1, emit at 1.
  set (w1 := {| outside := outside w; temp := temp w; trace := _ |}).
  unfold try_except, bind at 1.
  rewrite get_reel_segments_spec.
  pose proof (summarize_chunks_spec (chunks_of transcript) [] w1) as S.
  destruct (summarize_chunks (chunks_of transcript) [] w1) as [w2 [e|hs]].
  - destruct S as (He & _).
    rewrite (from_summary_is_Exception _ He).
    unfold bind, emit. cbn [outside temp trace].
    eexists. eexists. split; [reflexivity|]. cbn [trace]. split.
    + exists (trace w2). rewrite <- app_assoc. reflexivity.
    + right. exists e. reflexivity.
  - unfold bind, emit. cbn [outside temp trace].
    eexists. eexists. split; [reflexivity|]. cbn [trace]. split.
    + exists (trace w2). rewrite <- app_assoc. reflexivity.
    + left. eexists. reflexivity.
Qed.

End Spacing.

Lemma highlights_fit_witness :
  let t := repeat 97%N 1001 in
  exists w' tl,
    get_reel_points t 90 (Stub.world_of None) = (w', inr tl) /\
    disjoint_in_time tl.
Proof.
  intros t.
  set (r := get_reel_points t 90 (Stub.world_of None)).
  set (tl := match snd r with inr tl => tl | inl _ => [] end).
  assert (E : r = (fst r, inr tl)) by (vm_compute; reflexivity).
  exists (fst r), tl. split; [exact E|].
  edestruct highlights_fit as [Hdis _];
    [exact E|vm_compute; discriminate|exact Hdis].
Defined.

Lemma default_highlights_fit_witness :
  let t := repeat 97%N 4001 in
  exists w' tl,
    get_reel_points t 600 (Stub.world_of None) = (w', inr tl) /\
    disjoint_in_time tl.
Proof.
  intros t.
  set (r := get_reel_points t 600 (Stub.world_of None)).
  set (tl := match snd r with inr tl => tl | inl _ => [] end).
  assert (E : r = (fst r, inr tl)) by (vm_compute; reflexivity).
  exists (fst r), tl. split; [exact E|].
  edestruct default_highlights_fit as [Hdis _]; [exact E|exact Hdis].
Defined.

Lemma short_duration_overlaps_witness :
  let t := repeat 97%N 1001 in
  exists w' tl,
    get_reel_points t 60 (Stub.world_of None) = (w', inr tl) /\
    map start_offset tl = [20; 40]%Z /\
    map end_offset tl = [50; 70]%Z /\
    (nth 1 (map start_offset tl) 0 < nth 0 (map end_offset tl) 0)%Z.
Proof.
  intros t.
  set (r := get_reel_points t 60 (Stub.world_of None)).
  set (tl := match snd r with inr tl => tl | inl _ => [] end).
  assert (E : r = (fst r, inr tl)) by (vm_compute; reflexivity).
  exists (fst r), tl. split; [exact E|].
  split; [vm_compute; reflexivity|]. split; [vm_compute; reflexivity|].
  eapply short_duration_overlaps; [exact E|vm_compute; lia|].
  vm_compute. reflexivity.
Defined.

Lemma summaries_are_stripped_witness :
  let t := repeat 97%N 1001 in
  exists w' tl,
    get_reel_points t 600 (Stub.world_of None) = (w', inr tl) /\
    map summary_text tl = [lit "aaa"; lit "a"] /\
    Forall (fun p => starts_clean (summary_text p) /\
                     starts_clean (rev (summary_text p))) tl.
Proof.
  intros t.
  set (r := get_reel_points t 600 (Stub.world_of None)).
  set (tl := match snd r with inr tl => tl | inl _ => [] end).
  assert (E : r = (fst r, inr tl)) by (vm_compute; reflexivity).
  exists (fst r), tl. split; [exact E|].
  split; [vm_compute; reflexivity|].
  eapply summaries_are_stripped. exact E.
Defined.

Lemma one_call_per_window_witness :
  let t := repeat 97%N (6 * 1000 + 500) in
  exists w' out,
    get_reel_segments t 600 (Stub.world_of None) = (w', inr out) /\
    List.length (filter is_summarizer_call (trace w')) = 7.
Proof.
  intros t.
  set (r := get_reel_segments t 600 (Stub.world_of None)).
  set (out := match snd r with inr o => o | inl _ => [] end).
  assert (E : r = (fst r, inr out)) by (vm_compute; reflexivity).
  exists (fst r), out. split; [exact E|].
  edestruct one_call_per_window as (_ & Hn & _); [exact E|].
  cbn [Stub.world_of trace List.length skipn] in Hn. rewrite Hn.
  vm_compute. reflexivity.
Defined.

Lemma calls_stop_at_failure_witness :
  let t := repeat 97%N 1000 ++ [33%N] ++ repeat 97%N 3000 in
  exists w' e,
    get_reel_segments t 600 (Stub.world_of None) = (w', inl e) /\
    List.length (chunks_of t) = 5 /\
    List.length (trace w') = 2.
Proof.
  intros t.
  set (r := get_reel_segments t 600 (Stub.world_of None)).
  set (e := match snd r with inl e => e | inr _ => IndexError end).
  assert (E : r = (fst r, inl e)) by (vm_compute; reflexivity).
  exists (fst r), e. split; [exact E|].
  edestruct calls_stop_at_failure as (_ & _ & k & _ & _); [exact E|].
  split; vm_compute; reflexivity.
Defined.

Lemma empty_output_iff_empty_transcript_witness :
  exists w' out,
    get_reel_segments (lit "spoken words") 600 (Stub.world_of None) =
    (w', inr out) /\ out <> [].
Proof.
  set (r := get_reel_segments (lit "spoken words") 600 (Stub.world_of None)).
  set (out := match snd r with inr o => o | inl _ => [] end).
  assert (E : r = (fst r, inr out)) by (vm_compute; reflexivity).
  exists (fst r), out. split; [exact E|].
  intros Hout.
  edestruct empty_output_iff_empty_transcript as [Hi _]; [exact E|].
  apply Hi in Hout. discriminate.
Defined.

(** * What a computation raises and what it keeps *)

Section Raises.

Context {ext : Type} `{Svc : Services ext}.

Variable P : exn -> Prop.

Lemma raises_ret {A : Type} (x : A) : raises_only P (ret (ext := ext) x).
Proof. intros w w' e H. discriminate. Qed.

Lemma raises_raise {A : Type} (e : exn) :
  P e -> raises_only P (raise (ext := ext) (A := A) e).
Proof. intros He w w' e' H. unfold raise in H. congruence. Qed.

Lemma raises_emit (ev : event) : raises_only P (emit (ext := ext) ev).
Proof. intros w w' e H. discriminate. Qed.

Lemma raises_get_temp : raises_only P (get_temp (ext := ext)).
Proof. intros w w' e H. discriminate. Qed.

Lemma raises_set_temp (t : option directory) :
  raises_only P (set_temp (ext := ext) t).
Proof. intros w w' e H. discriminate. Qed.

Lemma raises_lift {A : Type} (r : exn + A) :
  (forall e, r = inl e -> P e) -> raises_only P (lift (ext := ext) r).
Proof. intros Hr w w' e H. unfold lift in H. apply Hr. congruence. Qed.

Lemma raises_bind {A B : Type} (m : M ext A) (k : A -> M ext B) :
  raises_only P m -> (forall x, raises_only P (k x)) ->
  raises_only P (bind m k).
Proof.
  intros Hm Hk w w' e H. unfold bind in H.
  destruct (m w) as [w1 [e1|x]] eqn:E.
  - assert (e1 = e) by congruence. subst. eapply Hm. exact E.
  - eapply Hk. exact H.
Qed.

Lemma raises_try {A : Type} (Q : exn -> Prop) (body : M ext A)
  (class : exn -> bool) (handler : exn -> M ext A) :
  raises_only Q body ->
  (forall e, Q e -> class e = false -> P e) ->
  (forall e, raises_only P (handler e)) ->
  raises_only P (try_except body class handler).
Proof.
  intros Hb Hq Hh w w' e H. unfold try_except in H.
  destruct (body w) as [w1 [e1|x]] eqn:E; [|discriminate].
  destruct (class e1) eqn:C.
  - eapply Hh. exact H.
  - assert (e1 = e) by congruence. subst. eapply Hq; [|exact C].
    eapply Hb. exact E.
Qed.

Lemma raises_for_each {A : Type} (l : list A) (body : A -> M ext unit) :
  (forall x, raises_only P (body x)) -> raises_only P (for_each l body).
Proof.
  intros Hb. induction l as [|x l IH]; cbn [for_each].
  - apply raises_ret.
  - apply raises_bind; auto.
Qed.

Lemma raises_call_service {A : Type} (ev : list event)
  (f : ext -> ext * (str + A)) :
  (forall msg, P (ServiceError msg)) -> raises_only P (call_service ev f).
Proof.
  intros HP w w' e H. unfold call_service in H.
  destruct (f (outside w)) as [o [msg|x]]; cbn in H; [|discriminate].
  assert (e = ServiceError msg) by congruence. subst. apply HP.
Qed.

Lemma raises_call_summarizer (req : summary_request) :
  (forall msg, P (ServiceError msg)) -> raises_only P (call_summarizer req).
Proof.
  intros HP w w' e H. unfold call_summarizer in H.
  destruct (summarizer req (outside w)) as [o [msg|x]]; cbn in H;
    [|discriminate].
  assert (e = ServiceError msg) by congruence. subst. apply HP.
Qed.

Lemma raises_call_ffmpeg (req : ffmpeg_request) :
  (forall fe, P (FfmpegError fe)) -> raises_only P (call_ffmpeg req).
Proof.
  intros HP w w' e H. unfold call_ffmpeg in H.
  destruct (ffmpeg_run req (outside w) (temp w)) as [[o t] [fe|x]];
    [|discriminate].
  assert (e = FfmpegError fe) by congruence. subst. apply HP.
Qed.

End Raises.

Section Keeps.

Context {ext : Type} `{Svc : Services ext}.

Variable I : option directory -> Prop.

Lemma keeps_ret {A : Type} (x : A) : keeps I (ret (ext := ext) x).
Proof. intros w H. exact H. Qed.

Lemma keeps_raise {A : Type} (e : exn) :
  keeps I (raise (ext := ext) (A := A) e).
Proof. intros w H. exact H. Qed.

Lemma keeps_lift {A : Type} (r : exn + A) : keeps I (lift (ext := ext) r).
Proof. intros w H. exact H. Qed.

Lemma keeps_emit (ev : event) : keeps I (emit (ext := ext) ev).
Proof. intros w H. exact H. Qed.

Lemma keeps_get_temp : keeps I (get_temp (ext := ext)).
Proof. intros w H. exact H. Qed.

Lemma keeps_bind {A B : Type} (m : M ext A) (k : A -> M ext B) :
  keeps I m -> (forall x, keeps I (k x)) -> keeps I (bind m k).
Proof.
  intros Hm Hk w H. unfold bind. specialize (Hm w H).
  destruct (m w) as [w1 [e|x]]; cbn in *; [exact Hm|].
  apply Hk. exact Hm.
Qed.

Lemma keeps_try {A : Type} (body : M ext A) (class : exn -> bool)
  (handler : exn -> M ext A) :
  keeps I body -> (forall e, keeps I (handler e)) ->
  keeps I (try_except body class handler).
Proof.
  intros Hb Hh w H. unfold try_except. specialize (Hb w H).
  destruct (body w) as [w1 [e|x]]; cbn in *; [|exact Hb].
  destruct (class e); [|exact Hb]. apply Hh. exact Hb.
Qed.

Lemma keeps_for_each {A : Type} (l : list A) (body : A -> M ext unit) :
  (forall x, keeps I (body x)) -> keeps I (for_each l body).
Proof.
  intros Hb. induction l as [|x l IH]; cbn [for_each].
  - apply keeps_ret.
  - apply keeps_bind; auto.
Qed.

Lemma keeps_call_service {A : Type} (ev : list event)
  (f : ext -> ext * (str + A)) :
  keeps I (call_service ev f).
Proof.
  intros w H. unfold call_service.
  destruct (f (outside w)) as [o r]. exact H.
Qed.

Lemma keeps_call_summarizer (req : summary_request) :
  keeps I (call_summarizer req).
Proof.
  intros w H. unfold call_summarizer.
  destruct (summarizer req (outside w)) as [o r]. exact H.
Qed.

End Keeps.

#[global] Hint Resolve raises_ret raises_emit raises_get_temp raises_set_temp
  raises_call_service raises_call_summarizer raises_call_ffmpeg
  keeps_ret keeps_raise keeps_lift keeps_emit keeps_get_temp
  keeps_call_service keeps_call_summarizer : effects.

(** Break computations down for [raises_only] and for [keeps]. *)
Ltac raises_steps :=
  repeat first
    [ solve [auto with effects]
    | apply raises_bind; [|intros]
    | apply raises_for_each; intros
    | match goal with
      | |- raises_only _ (match ?x with _ => _ end) => destruct x
      | |- raises_only _ (if ?x then _ else _) => destruct x
      end ].

Ltac keeps_steps :=
  repeat first
    [ solve [auto with effects]
    | apply keeps_bind; [|intros]
    | apply keeps_try; [|intros]
    | apply keeps_for_each; intros
    | match goal with
      | |- keeps _ (match ?x with _ => _ end) => destruct x
      | |- keeps _ (if ?x then _ else _) => destruct x
      end ].

(** Close a step that raises a named exception or looks a value up. *)
Ltac raises_leaf :=
  first
    [ solve [auto with effects]
    | apply raises_raise; reflexivity
    | apply raises_lift;
      let e := fresh "e" in
      let E := fresh "E" in
      intros e E;
      unfold py_max_key, py_getitem, py_index in E;
      repeat match type of E with
             | context [match ?x with _ => _ end] => destruct x
             end;
      inversion E; reflexivity ].

(** * Further properties of the transcription loop *)

Lemma lookup_none_not_in (d : directory) (name : str) :
  lookup d name = None -> ~ In name (map fst d).
Proof.
  induction d as [|[k m] d IH]; intros H; [tauto|].
  simpl in *. destruct (str_eqb name k) eqn:E; [discriminate|].
  apply str_eqb_neq in E. intros [Hk|Hin]; [congruence|]. now apply IH.
Qed.

Lemma lookup_plain (d : directory) (name : str) (n : node) :
  Forall (fun e => snd e = File false) d ->
  lookup d name = Some n -> n = File false.
Proof.
  induction d as [|[k m] d IH]; intros HF H; [discriminate|].
  inversion HF; subst. simpl in *.
  destruct (str_eqb name k); [congruence|auto].
Qed.

Lemma lookup_app_found (a b : directory) (name : str) (n : node) :
  lookup a name = Some n -> lookup (a ++ b) name = Some n.
Proof.
  induction a as [|[k m] a IH]; intros H; [discriminate|].
  simpl in *. destruct (str_eqb name k); auto.
Qed.

Section Saving.

Context {ext : Type} `{Svc : Services ext}.

(** Saving into a TEMP_DIR of plain files succeeds and leaves a TEMP_DIR of
    plain files that holds the saved name. *)
Lemma write_file_plain (name : str) (w : world ext) :
  only_plain_files (temp w) ->
  exists w',
    write_file name w = (w', inr tt) /\
    outside w' = outside w /\
    only_plain_files (temp w') /\
    holds_file name (temp w').
Proof.
  intros (d & Ht & ND & HF). unfold write_file, bind, get_temp, ret.
  rewrite Ht. destruct (lookup d name) as [n|] eqn:L.
  - rewrite (lookup_plain _ HF L). unfold emit. cbn [outside temp trace].
    eexists. split; [reflexivity|]. cbn [outside temp].
    split; [reflexivity|]. rewrite Ht. split.
    + exists d. auto.
    + exists d. split; [reflexivity|]. rewrite L.
      now rewrite (lookup_plain _ HF L).
  - unfold set_temp, emit. cbn [outside temp trace].
    eexists. split; [reflexivity|]. cbn [outside temp].
    split; [reflexivity|]. split.
    + exists (d ++ [(name, File false)]). split; [reflexivity|]. split.
      * rewrite map_app. cbn [map fst]. apply NoDup_app; [exact ND| |].
        -- repeat constructor. tauto.
        -- intros x Hx [<-|[]]. now apply (lookup_none_not_in _ _ L).
      * apply Forall_app. split; [exact HF|]. now repeat constructor.
    + exists (d ++ [(name, File false)]). split; [reflexivity|].
      rewrite lookup_skip by now apply lookup_none_not_in.
      apply lookup_here.
Qed.

Lemma keeps_plain_write_file (name : str) :
  keeps only_plain_files (write_file (ext := ext) name).
Proof.
  intros w H. destruct (write_file_plain name w H) as (w' & E & _ & Hp & _).
  now rewrite E.
Qed.

Lemma keeps_holds_write_file (kept name : str) :
  keeps (holds_file kept) (write_file (ext := ext) name).
Proof.
  intros w (d & Ht & L). unfold write_file, bind, get_temp, ret.
  rewrite Ht. destruct (lookup d name) as [[[|]|sub]|] eqn:Ln;
    cbn [raise set_temp emit fst temp]; try (exists d; now split).
  exists (d ++ [(name, File false)]). split; [reflexivity|].
  now apply lookup_app_found.
Qed.

Variable I : option directory -> Prop.
Hypothesis write_keeps : forall name, keeps I (write_file (ext := ext) name).

Lemma keeps_summarize_chunks (chunks : list str) :
  forall acc, keeps I (summarize_chunks chunks acc).
Proof.
  induction chunks as [|c rest IH]; intros acc; cbn [summarize_chunks];
    keeps_steps.
Qed.

Lemma keeps_extract_highlights (transcript : str) :
  keeps I (extract_highlights transcript).
Proof.
  pose proof keeps_summarize_chunks as K.
  unfold extract_highlights, get_reel_segments, reel_loop. keeps_steps.
Qed.

Lemma keeps_transcribe_audio (name : str) :
  keeps I (transcribe_audio name).
Proof.
  pose proof keeps_extract_highlights as K.
  unfold transcribe_audio. keeps_steps.
Qed.

End Saving.

Section NeverRaises.

Context {ext : Type} `{Svc : Services ext}.

Lemma raises_summarize_chunks (chunks : list str) :
  forall acc,
    raises_only (fun e => is_Exception e = true)
      (summarize_chunks chunks acc).
Proof.
  induction chunks as [|c rest IH]; intros acc; cbn [summarize_chunks];
    raises_steps; raises_leaf.
Qed.

Lemma raises_extract_highlights (transcript : str) :
  raises_only (fun _ => False) (extract_highlights transcript).
Proof.
  intros w w' e H.
  destruct (extract_highlights_returns transcript w) as (w1 & E).
  congruence.
Qed.

Lemma raises_write_file (name : str) :
  raises_only (fun e => is_Exception e = true)
    (write_file (ext := ext) name).
Proof.
  unfold write_file. raises_steps; raises_leaf.
Qed.

(** Everything after the upload is saved, lines 167-199, raises nothing. *)
Lemma raises_after_save (name : str) :
  raises_only (fun _ => False)
    (emit (st_info ([128221%N] ++ lit " Transcribing " ++ name ++
                      lit " using Whisper...")) ;;
     try_except
       (emit (st_info ([127760%N] ++ lit " Detecting language...")) ;;
        audio_loaded <- call_service [load_audio_called (in_temp name)]
                          (load_audio (in_temp name)) ;;
        audio_loaded <- call_service [] (pad_or_trim audio_loaded) ;;
        mel <- call_service [] (log_mel_spectrogram audio_loaded) ;;
        probs <- call_service [detect_language_called]
                   (detect_language mel) ;;
        detected_lang <- lift (py_max_key probs) ;;
        emit (st_success ([9989%N] ++ lit " Detected Language: " ++
                            detected_lang)) ;;
        let req := transcribe_request_of (in_temp name) in
        result <- call_service [transcribe_called req] (transcribe req) ;;
        transcript <- lift (py_getitem result (lit "text")) ;;
        write_file (name ++ lit ".txt") ;;
        emit (st_success ([9989%N] ++ lit " Transcript for " ++ name ++
                            lit " generated.")) ;;
        emit (st_download_button
                ([11015%N] ++ lit " Download Transcript (" ++ name ++
                 lit ")")
                transcript (name ++ lit ".txt")) ;;
        emit (st_text_area
                ([128220%N] ++ lit " Transcript Preview: " ++ name)
                transcript) ;;
        extract_highlights transcript)
       is_Exception
       (fun e =>
          emit (st_error ([10060%N] ++ lit " Failed to transcribe " ++
                            name)) ;;
          emit (st_text (exn_str e)))).
Proof.
  apply raises_bind; [apply raises_emit|intros _].
  apply raises_try with (Q := fun e => is_Exception e = true).
  - pose proof raises_write_file as RW.
    assert (RX : forall t, raises_only (fun e => is_Exception e = true)
                             (extract_highlights t)).
    { intros t w w' e H. now apply raises_extract_highlights in H. }
    raises_steps; raises_leaf.
  - intros e He Hc. congruence.
  - intros e. raises_steps.
Qed.

(** X11. The only exception that leaves the processing of one audio file is
    the one raised when the upload cannot be saved: whatever whisper and the
    summarizer do is caught and shown. *)
Theorem transcribe_audio_raises_iff (name : str) (w w' : world ext)
  (e : exn) :
  transcribe_audio name w = (w', inl e) <->
  write_file name w = (w', inl e).
Proof.
  unfold transcribe_audio. unfold bind at 1.
  destruct (write_file name w) as [w1 [e1|[]]] eqn:E.
  - tauto.
  - split; [|discriminate]. intros H. exfalso.
    exact (raises_after_save name _ H).
Qed.

Lemma transcribe_all_returns (uploaded_audios : list str) (w : world ext) :
  only_plain_files (temp w) ->
  exists w',
    transcribe_all uploaded_audios w = (w', inr tt) /\
    only_plain_files (temp w').
Proof.
  unfold transcribe_all. revert w.
  induction uploaded_audios as [|name rest IH]; intros w Hp.
  - exists w. split; [reflexivity|exact Hp].
  - cbn [for_each]. unfold bind at 1.
    destruct (write_file_plain name w Hp) as (w1 & Ew & _).
    pose proof (keeps_transcribe_audio keeps_plain_write_file name w Hp)
      as K.
    destruct (transcribe_audio name w) as [w2 [e|[]]] eqn:E.
    + exfalso. revert E. unfold transcribe_audio. unfold bind at 1.
      rewrite Ew. intros E. exact (raises_after_save name _ E).
    + apply IH. exact K.
Qed.

(** X12. When TEMP_DIR holds only removable files, the loop over the
    uploaded audio files returns normally for every list of uploads and
    whatever the services do; afterwards TEMP_DIR still holds only removable
    files, and every upload is among them. *)
Theorem transcribe_all_completes (uploaded_audios : list str)
  (w : world ext) :
  only_plain_files (temp w) ->
  exists w',
    transcribe_all uploaded_audios w = (w', inr tt) /\
    only_plain_files (temp w') /\
    Forall (fun name => holds_file name (temp w')) uploaded_audios.
Proof.
  unfold transcribe_all. revert w.
  induction uploaded_audios as [|name rest IH]; intros w Hp.
  - exists w. repeat split; [exact Hp|constructor].
  - cbn [for_each]. unfold bind at 1.
    destruct (write_file_plain name w Hp) as (w1 & Ew & _ & Hp1 & Hh1).
    destruct (transcribe_audio name w) as [w2 [e|[]]] eqn:E.
    + exfalso. revert E. unfold transcribe_audio. unfold bind at 1.
      rewrite Ew. intros E. exact (raises_after_save name _ E).
    + assert (Hp2 : only_plain_files (temp w2)).
      { pose proof (keeps_transcribe_audio keeps_plain_write_file name w Hp)
          as K. now rewrite E in K. }
      assert (Hh2 : holds_file name (temp w2)).
      { revert E. unfold transcribe_audio. unfold bind at 1. rewrite Ew.
        intros E.
        match type of E with
        | ?rest0 w1 = _ =>
            assert (K1 : keeps (holds_file name) rest0)
        end.
        { assert (KW : forall n, keeps (holds_file name)
                                   (write_file (ext := ext) n))
            by (intros n; apply keeps_holds_write_file).
          assert (KX : forall t, keeps (holds_file name)
                                   (extract_highlights t))
            by (intros t; now apply keeps_extract_highlights).
          keeps_steps. }
        specialize (K1 w1 Hh1). now rewrite E in K1. }
      destruct (IH w2 Hp2) as (w' & E' & Hp' & Hall).
      exists w'. split; [exact E'|]. split; [exact Hp'|].
      constructor; [|exact Hall].
      assert (K : keeps (holds_file name)
                    (for_each rest (transcribe_audio (ext := ext)))).
      { apply keeps_for_each. intros x. apply keeps_transcribe_audio.
        apply keeps_holds_write_file. }
      specialize (K w2 Hh2). now rewrite E' in K.
Qed.

End NeverRaises.

Section Detection.

Context {ext : Type} `{Svc : Services ext}.

Hypothesis ltb_irreflexive : forall a, prob_ltb a a = false.
Hypothesis ltb_transitive :
  forall a b c, prob_ltb a b = true -> prob_ltb b c = true ->
                prob_ltb a c = true.
Hypothesis ltb_linear :
  forall a b c, prob_ltb a c = true ->
                prob_ltb a b = true \/ prob_ltb b c = true.

Lemma max_from_greatest (rest : dict prob) :
  forall (k0 : str) (v0 : prob),
    exists p,
      In (max_from (k0, v0) rest, p) ((k0, v0) :: rest) /\
      forall k v, In (k, v) ((k0, v0) :: rest) -> prob_ltb p v = false.
Proof.
  induction rest as [|[k1 v1] rest IH]; intros k0 v0.
  - exists v0. cbn. split; [now left|].
    intros k v [E|[]]. inversion E; subst. apply ltb_irreflexive.
  - cbn [max_from snd]. destruct (prob_ltb v0 v1) eqn:L.
    + destruct (IH k1 v1) as (p & Hin & Hmax). exists p. split.
      * now right.
      * intros k v [E|Hv]; [|now apply Hmax with (k := k)].
        inversion E; subst.
        destruct (prob_ltb p v) eqn:Lp; [|reflexivity].
        assert (prob_ltb p v1 = true) by (eapply ltb_transitive; eassumption).
        rewrite (Hmax k1 v1) in H by now left. discriminate.
    + destruct (IH k0 v0) as (p & Hin & Hmax). exists p. split.
      * destruct Hin as [E|Hin]; [now left|right; now right].
      * intros k v [E|[E|Hv]].
        -- apply Hmax with (k := k). now left.
        -- inversion E; subst.
           destruct (prob_ltb p v) eqn:Lp; [|reflexivity].
           destruct (ltb_linear p v0 v Lp) as [A|A].
           ++ rewrite (Hmax k0 v0) in A by now left. discriminate.
           ++ congruence.
        -- apply Hmax with (k := k). now right.
Qed.

(** X13. When the probabilities are linearly ordered, the language reported
    as detected is one of the languages of the answer and none has a higher
    probability; the detection raises ValueError exactly when the answer
    lists no language. *)
Theorem detected_language_is_most_probable (probs : dict prob) :
  (py_max_key probs = inl ValueError <-> probs = []) /\
  forall detected,
    py_max_key probs = inr detected ->
    exists p,
      In (detected, p) probs /\
      forall k v, In (k, v) probs -> prob_ltb p v = false.
Proof.
  split.
  - destruct probs; cbn; split; intros; congruence.
  - intros detected H. destruct probs as [|[k0 v0] rest]; [discriminate|].
    cbn [py_max_key] in H. inversion H; subst.
    apply max_from_greatest.
Qed.

End Detection.

Lemma detected_language_is_most_probable_witness :
  exists p,
    In (lit "fr", p) [(lit "en", 1%N); (lit "fr", 9%N); (lit "de", 9%N)] /\
    forall k v, In (k, v) [(lit "en", 1%N); (lit "fr", 9%N); (lit "de", 9%N)]
                -> N.ltb p v = false.
Proof.
  assert (H1 : forall a : N, N.ltb a a = false) by apply N.ltb_irrefl.
  assert (H2 : forall a b c : N, N.ltb a b = true -> N.ltb b c = true ->
                                 N.ltb a c = true)
    by (intros a b c; rewrite !N.ltb_lt; lia).
  assert (H3 : forall a b c : N, N.ltb a c = true ->
                                 N.ltb a b = true \/ N.ltb b c = true)
    by (intros a b c; rewrite !N.ltb_lt; lia).
  exact (proj2 (detected_language_is_most_probable
                  (Svc := Stub.services) H1 H2 H3
                  [(lit "en", 1%N); (lit "fr", 9%N); (lit "de", 9%N)])
           (lit "fr") eq_refl).
Defined.

Section TranscriptKept.

Context {ext : Type} `{Svc : Services ext}.


End TranscriptKept.

Lemma transcribe_audio_raises_iff_witness :
  transcribe_audio (lit "talk.mp3") (Stub.world_of None) =
  (Stub.world_of None, inl (FileNotFoundError (lit "talk.mp3"))).
Proof.
  apply (proj2 (transcribe_audio_raises_iff (lit "talk.mp3")
                  (Stub.world_of None) (Stub.world_of None)
                  (FileNotFoundError (lit "talk.mp3")))).
  reflexivity.
Defined.

Lemma transcribe_all_completes_witness :
  exists w',
    transcribe_all [lit "a.mp3"; lit "b.wav"] (Stub.world_of (Some [])) =
    (w', inr tt) /\
    Forall (fun name => holds_file name (temp w')) [lit "a.mp3"; lit "b.wav"].
Proof.
  assert (Hp : only_plain_files (temp (Stub.world_of (Some [])))).
  { exists []. split; [reflexivity|]. split; constructor. }
  destruct (transcribe_all_completes [lit "a.mp3"; lit "b.wav"] _ Hp)
    as (w' & E & _ & Hall).
  exists w'. split; [exact E|exact Hall].
Defined.


(** * Further properties of the chunk button *)

Lemma fnmatch_star (pat name : str) :
  fnmatch (42%N :: pat) name = true <->
  exists mid rest, name = mid ++ rest /\ fnmatch pat rest = true.
Proof.
  assert (U : forall n, fnmatch (42%N :: pat) n =
                        fnmatch pat n ||
                        match n with
                        | [] => false
                        | _ :: n' => fnmatch (42%N :: pat) n'
                        end)
    by (intros [|x n]; reflexivity).
  split.
  - induction name as [|x name IH]; rewrite U; intros H.
    + rewrite orb_false_r in H. exists [], []. auto.
    + apply orb_true_iff in H. destruct H as [H|H].
      * exists [], (x :: name). auto.
      * destruct (IH H) as (mid & rest & -> & Hr).
        exists (x :: mid), rest. auto.
  - intros (mid & rest & -> & Hr). induction mid as [|x mid IH].
    + rewrite U. cbn [app]. now rewrite Hr.
    + rewrite U. cbn [app]. rewrite IH. apply orb_true_r.
Qed.

Lemma fnmatch_literal (lits pat name : str) :
  Forall (fun c => c <> 42%N) lits ->
  fnmatch (lits ++ pat) name = true <->
  exists rest, name = lits ++ rest /\ fnmatch pat rest = true.
Proof.
  intros HL. revert name. induction HL as [|c lits Hc HL IH]; intros name.
  - cbn [app]. split; [eauto|]. now intros (rest & -> & H).
  - cbn [app fnmatch]. apply N.eqb_neq in Hc. rewrite Hc.
    destruct name as [|x name].
    + split; [discriminate|]. intros (rest & E & _). discriminate.
    + rewrite andb_true_iff, N.eqb_eq, IH. split.
      * intros (-> & rest & -> & H). eauto.
      * intros (rest & E & H). inversion E; subst. eauto.
Qed.

Lemma fnmatch_end (name : str) : fnmatch [] name = true <-> name = [].
Proof. destruct name; cbn; split; intros; congruence. Qed.

(** X15. The pattern of lines 133 and 146 selects exactly the names that
    start with "chunk_" and end in ".mp4", the two not overlapping. *)
Theorem chunk_pattern_names (name : str) :
  fnmatch CHUNK_GLOB name = true <->
  exists mid, name = lit "chunk_" ++ mid ++ lit ".mp4".
Proof.
  change CHUNK_GLOB with (lit "chunk_" ++ 42%N :: lit ".mp4" ++ []).
  rewrite fnmatch_literal
    by (repeat constructor; discriminate).
  split.
  - intros (rest & -> & H). apply fnmatch_star in H.
    destruct H as (mid & rest' & -> & H).
    apply fnmatch_literal in H; [|repeat constructor; discriminate].
    destruct H as (e & -> & H). apply fnmatch_end in H. subst e.
    exists mid. now rewrite app_nil_r.
  - intros (mid & ->). exists (mid ++ lit ".mp4"). split; [reflexivity|].
    apply fnmatch_star. exists mid, (lit ".mp4"). split; [reflexivity|].
    apply fnmatch_literal; [repeat constructor; discriminate|].
    exists []. split; [now rewrite app_nil_r|reflexivity].
Qed.

Lemma chunk_pattern_names_witness :
  exists mid, lit "chunk_007.mp4" = lit "chunk_" ++ mid ++ lit ".mp4".
Proof. apply (proj1 (chunk_pattern_names (lit "chunk_007.mp4"))). reflexivity.
Defined.

Lemma str_leb_total (a b : str) :
  str_leb a b = false -> str_leb b a = true.
Proof.
  revert b. induction a as [|x a IH]; intros [|y b]; cbn; try congruence.
  destruct (x <? y)%N eqn:L1; [discriminate|].
  destruct (y <? x)%N eqn:L2; [reflexivity|]. apply IH.
Qed.

Lemma str_leb_trans (a b c : str) :
  str_leb a b = true -> str_leb b c = true -> str_leb a c = true.
Proof.
  revert b c. induction a as [|x a IH]; intros [|y b] [|z c]; cbn;
    try congruence.
  destruct (x <? y)%N eqn:L1, (y <? x)%N eqn:L2,
           (y <? z)%N eqn:L3, (z <? y)%N eqn:L4,
           (x <? z)%N eqn:L5, (z <? x)%N eqn:L6;
    try reflexivity; try discriminate;
    rewrite ?N.ltb_lt, ?N.ltb_ge in *; try lia.
  apply IH.
Qed.

Lemma insert_sorted_perm (x : str) (l : list str) :
  Permutation (insert_sorted x l) (x :: l).
Proof.
  induction l as [|y l IH]; cbn; [reflexivity|].
  destruct (str_leb x y); [reflexivity|].
  rewrite IH. apply perm_swap.
Qed.

Lemma py_sorted_perm (l : list str) : Permutation (py_sorted l) l.
Proof.
  induction l as [|x l IH]; cbn; [reflexivity|].
  rewrite insert_sorted_perm. now constructor.
Qed.

Lemma insert_sorted_sorted (x : str) (l : list str) :
  StronglySorted (fun a b => str_leb a b = true) l ->
  StronglySorted (fun a b => str_leb a b = true) (insert_sorted x l).
Proof.
  induction l as [|y l IH]; intros HS; cbn.
  - repeat constructor.
  - inversion HS as [|? ? HS' HF]; subst.
    destruct (str_leb x y) eqn:L.
    + constructor; [exact HS|]. constructor; [exact L|].
      eapply Forall_impl; [|exact HF]. intros z Hz.
      eapply str_leb_trans; eassumption.
    + constructor; [now apply IH|].
      apply (Permutation_Forall (Permutation_sym (insert_sorted_perm x l))).
      constructor; [now apply str_leb_total|exact HF].
Qed.

Lemma py_sorted_sorted (l : list str) :
  StronglySorted (fun a b => str_leb a b = true) (py_sorted l).
Proof.
  induction l as [|x l IH]; cbn; [constructor|].
  now apply insert_sorted_sorted.
Qed.

Section ChunkOutcome.

Context {ext : Type} `{Svc : Services ext}.


Lemma raises_os_remove (name : str) :
  raises_only (fun e => is_Exception e = true)
    (os_remove (ext := ext) name).
Proof.
  unfold os_remove, on_temp. raises_steps; try raises_leaf.
  apply raises_lift. intros e E. unfold remove_entry in E.
  destruct (lookup l name) as [[[|]|]|]; inversion E; reflexivity.
Qed.


End ChunkOutcome.



(** * Properties of the extract button *)

Section Extract.

Context {ext : Type} `{Svc : Services ext}.


(** X19. When ffmpeg reports the MP3 conversion as done but there is no
    audio.mp3 in TEMP_DIR, opening the file raises FileNotFoundError, which
    the handler does not catch: the vertical conversion is not attempted. *)
Theorem extract_stops_without_mp3 (input_path : str) (w : world ext)
  (o1 o2 : ext) (t1 t2 : option directory) (r1 : ffmpeg_error + unit) :
  ffmpeg_run (audio_request input_path AUDIO_WAV) (outside w) (temp w) =
  (o1, t1, r1) ->
  ffmpeg_run (audio_request input_path AUDIO_MP3) o1 t1 = (o2, t2, inr tt) ->
  match t2 with
  | Some d2 => lookup d2 AUDIO_MP3_NAME
  | None => None
  end = None ->
  exists w' evs,
    extract_handler input_path w =
    (w', inl (FileNotFoundError AUDIO_MP3_NAME)) /\
    outside w' = o2 /\
    temp w' = t2 /\
    trace w' = trace w ++ evs /\
    filter is_ffmpeg_call evs =
    [ffmpeg_called (audio_request input_path AUDIO_WAV);
     ffmpeg_called (audio_request input_path AUDIO_MP3)].
Proof.
  intros H1 H2 Hno.
  unfold extract_handler, open_read.
  unfold bind, try_except, call_ffmpeg, emit, get_temp, ret, raise.
  cbn [outside temp trace]. rewrite H1.
  destruct r1 as [e1|[]];
    cbn [outside temp trace is_FfmpegError];
    rewrite H2;
    cbn [outside temp trace is_FfmpegError];
    (destruct t2 as [d2|]; try rewrite Hno;
     cbn [outside temp trace is_FfmpegError];
     eexists; eexists;
     (split; [reflexivity|]);
     cbn [outside temp trace];
     (split; [reflexivity|]); (split; [reflexivity|]);
     (split; [rewrite <- !app_assoc; cbn [app]; reflexivity|]);
     reflexivity).
Qed.

End Extract.


Lemma extract_stops_without_mp3_witness :
  let w := Stub.world_of (Some [(lit "clip.mp4", File false)]) in
  exists w' evs,
    extract_handler (Svc := idle_services) (in_temp (lit "clip.mp4")) w =
    (w', inl (FileNotFoundError AUDIO_MP3_NAME)) /\
    trace w' = trace w ++ evs /\
    List.length (filter is_ffmpeg_call evs) = 2.
Proof.
  intros w.
  edestruct (@extract_stops_without_mp3 unit idle_services
               (in_temp (lit "clip.mp4")) w)
    as (w' & evs & E & _ & _ & Htr & Hf);
    [reflexivity|reflexivity|reflexivity|].
  exists w', evs. split; [exact E|]. split; [exact Htr|]. now rewrite Hf.
Defined.

(** * Further properties of the cleanup *)

Lemma filter_same {A : Type} (p : A -> bool) (l : list A) :
  filter p (filter p l) = filter p l.
Proof.
  rewrite filter_twice. apply filter_ext. intros x. now destruct (p x).
Qed.

Lemma filter_all {A : Type} (p : A -> bool) (l : list A) :
  Forall (fun x => p x = true) l -> filter p l = l.
Proof.
  induction 1 as [|x l Hx HF IH]; [reflexivity|].
  cbn. now rewrite Hx, IH.
Qed.

Lemma survivors_entry (d : directory) (e : str * node) :
  In e (survivors d) ->
  exists c, In (fst e, c) d /\ snd e = survivors_node c /\
            is_removable (snd e) = false /\ is_empty_dir (snd e) = false.
Proof.
  rewrite survivors_filter. unfold keep_dirs, keep_files, children_done.
  intros H. apply filter_In in H. destruct H as [H Hd].
  apply filter_In in H. destruct H as [H Hf].
  apply in_map_iff in H. destruct H as ([name c] & <- & Hin).
  cbn [fst snd] in *. exists c.
  rewrite negb_true_iff in Hd, Hf. auto.
Qed.

(** A directory that survives the walk holds a file. *)
Lemma survivors_hold_a_file (n : node) :
  forall x xs, survivors_node n = Dir (x :: xs) ->
               all_files_node (survivors_node n) <> [].
Proof.
  induction n as [l|d IH] using node_induction; [discriminate|].
  intros x xs E.
  change (survivors_node (Dir d)) with (Dir (survivors d)) in *.
  inversion E as [E']. fold (all_files (survivors d)).
  rewrite all_files_split.
  assert (Hin : In x (survivors d)) by (rewrite E'; now left).
  destruct (survivors_entry d x Hin) as (c & Hc & Hs & Hr & He).
  rewrite E'. destruct x as [name c']. cbn [fst snd] in *.
  unfold all_files_below, own_files. cbn [flat_map snd fst].
  rewrite Forall_forall in IH. specialize (IH _ Hc). cbn [snd] in IH.
  destruct c' as [[|]|[|y ys]]; try discriminate.
  - cbn. intros F. apply app_eq_nil in F. destruct F as [_ F].
    discriminate.
  - specialize (IH y ys (eq_sym Hs)). rewrite <- Hs in IH.
    intros F. apply app_eq_nil in F. destruct F as [F _].
    apply app_eq_nil in F. destruct F as [F _]. contradiction.
Qed.

Lemma no_locked_file_no_survivor (d : directory) :
  locked_files d = [] -> survivors d = [].
Proof.
  intros HL. destruct (survivors d) as [|x xs] eqn:E; [reflexivity|].
  exfalso.
  apply (survivors_hold_a_file (Dir d) (x := x) (xs := xs)).
  - change (survivors_node (Dir d)) with (Dir (survivors d)). now rewrite E.
  - change (survivors_node (Dir d)) with (Dir (survivors d)).
    fold (all_files (survivors d)). rewrite all_files_survivors.
    unfold locked_files in HL.
    destruct (filter snd (all_files d)); [reflexivity|discriminate].
Qed.

Section ResetInGeneral.

Context {ext : Type} `{Svc : Services ext}.

(** X20. On every tree in which names are distinct, safe_delete_dir
    returns without raising; it warns once per locked file, in the order of
    the walk and naming the file; the files it leaves are the locked ones,
    all of them and no other; TEMP_DIR itself is removed exactly when no
    file is locked. *)
Theorem safe_delete_dir_leaves_locked_files (w : world ext)
  (d : directory) :
  temp w = Some d ->
  well_formed d ->
  exists w',
    safe_delete_dir w = (w', inr tt) /\
    outside w' = outside w /\
    trace w' =
    trace w ++
    map (fun name => st_warning ([9888%N] ++ lit " Skipped locked file: " ++
                                   name))
        (locked_files d) /\
    all_files (survivors d) = filter snd (all_files d) /\
    (locked_files d = [] -> temp w' = None) /\
    (locked_files d <> [] -> temp w' = Some (survivors d)).
Proof.
  intros Ht WF. eexists. split; [apply safe_delete_dir_ok; eassumption|].
  cbn [outside temp trace]. split; [reflexivity|]. split; [reflexivity|].
  split; [apply all_files_survivors|]. split.
  - intros HL. now rewrite no_locked_file_no_survivor.
  - intros HL. destruct (survivors d) eqn:E; [|reflexivity].
    exfalso. apply HL. unfold locked_files.
    rewrite <- all_files_survivors, E. reflexivity.
Qed.

Lemma safe_delete_dir_without_locks (w : world ext) :
  match temp w with
  | Some d => well_formed d /\ locked_files d = []
  | None => True
  end ->
  safe_delete_dir w =
  ({| outside := outside w; temp := None; trace := trace w |}, inr tt).
Proof.
  intros H. destruct (temp w) as [d|] eqn:Ht.
  - destruct H as [WF HL].
    erewrite safe_delete_dir_ok; [|exact Ht|exact WF].
    rewrite HL, (no_locked_file_no_survivor _ HL). cbn [map].
    now rewrite app_nil_r.
  - unfold safe_delete_dir, bind, get_temp, ret, try_except, raise.
    rewrite Ht. destruct w as [o t tr]. cbn [temp outside trace] in *.
    now subst t.
Qed.

Lemma clean_handler_returns (w : world ext) (chunk_video_slots : nat) :
  match temp w with
  | Some d => well_formed d /\ locked_files d = []
  | None => True
  end ->
  exists w',
    clean_handler chunk_video_slots w = (w', inr tt) /\
    temp w' = (if os_makedirs_fault (outside w) then None else Some []).
Proof.
  intros H. unfold clean_handler. unfold bind at 1, emit at 1.
  unfold bind at 1. rewrite emit_repeat. cbn [outside temp trace].
  unfold try_except, bind at 1.
  rewrite safe_delete_dir_without_locks by exact H.
  cbn [outside temp trace].
  unfold bind at 1, os_makedirs_temp, bind at 1, get_temp at 1.
  cbn [outside temp trace].
  destruct (os_makedirs_fault (outside w)).
  - cbn [is_Exception]. unfold emit. cbn [outside temp trace].
    eexists. split; reflexivity.
  - unfold set_temp, emit. cbn [outside temp trace].
    eexists. split; reflexivity.
Qed.

(** X21. When TEMP_DIR is absent, or holds a tree without any locked file,
    the clean button shows no warning and never raises: if the directory
    can be created, TEMP_DIR is an empty directory afterwards and success
    is reported; if not, TEMP_DIR is absent and the error is shown. *)
Theorem clean_without_locked_files (w : world ext)
  (chunk_video_slots : nat) :
  match temp w with
  | Some d => well_formed d /\ locked_files d = []
  | None => True
  end ->
  exists w',
    clean_handler chunk_video_slots w = (w', inr tt) /\
    temp w' = (if os_makedirs_fault (outside w) then None else Some []) /\
    trace w' =
    trace w ++ repeat slot_empty (S chunk_video_slots) ++
    [if os_makedirs_fault (outside w)
     then st_error ([10060%N] ++ lit " Failed to clean temp files: " ++
                      exn_str (PermissionError TEMP_DIR))
     else st_success ([129529%N] ++ lit " Temporary files cleaned.")].
Proof.
  intros H. unfold clean_handler. unfold bind at 1, emit at 1.
  unfold bind at 1. rewrite emit_repeat. cbn [outside temp trace].
  unfold try_except, bind at 1.
  rewrite safe_delete_dir_without_locks by exact H.
  cbn [outside temp trace].
  unfold bind at 1, os_makedirs_temp, bind at 1, get_temp at 1.
  cbn [outside temp trace].
  destruct (os_makedirs_fault (outside w)).
  - cbn [is_Exception]. unfold emit. cbn [outside temp trace].
    eexists. split; [reflexivity|]. cbn [temp trace].
    split; [reflexivity|]. rewrite <- !app_assoc. reflexivity.
  - unfold set_temp, emit. cbn [outside temp trace].
    eexists. split; [reflexivity|]. cbn [temp trace].
    split; [reflexivity|]. rewrite <- !app_assoc. reflexivity.
Qed.

End ResetInGeneral.

Lemma survivors_node_idempotent (n : node) :
  survivors_node (survivors_node n) = survivors_node n.
Proof.
  induction n as [l|d IH] using node_induction; [reflexivity|].
  change (survivors_node (Dir d)) with (Dir (survivors d)).
  change (survivors_node (Dir (survivors d)))
    with (Dir (survivors (survivors d))).
  f_equal. rewrite (survivors_filter (survivors d)).
  rewrite Forall_forall in IH.
  assert (Hc : children_done (survivors d) = survivors d).
  { unfold children_done. rewrite <- (map_id (survivors d)) at 2.
    apply map_ext_in. intros [name c'] Hin.
    destruct (survivors_entry d _ Hin) as (c & Hc & Hs & _).
    cbn [fst snd] in *. rewrite Hs. f_equal. apply (IH _ Hc). }
  rewrite Hc. unfold keep_dirs, keep_files.
  rewrite (filter_all (fun e => negb (is_removable (snd e)))).
  - apply filter_all. apply Forall_forall. intros e Hin.
    destruct (survivors_entry d _ Hin) as (_ & _ & _ & _ & He).
    now rewrite He.
  - apply Forall_forall. intros e Hin.
    destruct (survivors_entry d _ Hin) as (_ & _ & _ & Hr & _).
    now rewrite Hr.
Qed.

Lemma well_formed_survivors_node (n : node) :
  well_formed_node n -> well_formed_node (survivors_node n).
Proof.
  induction n as [l|d IH] using node_induction; [trivial|].
  intros WF. apply (well_formed_split d) in WF. destruct WF as [ND WF].
  change (survivors_node (Dir d)) with (Dir (survivors d)).
  apply (well_formed_split (survivors d)). split.
  - rewrite survivors_filter. unfold keep_dirs, keep_files.
    apply NoDup_filter_names, NoDup_filter_names.
    now rewrite names_children_done.
  - apply Forall_forall. intros [name c'] Hin.
    destruct (survivors_entry d _ Hin) as (c & Hc & Hs & _).
    cbn [fst snd] in *. rewrite Hs.
    rewrite Forall_forall in IH, WF.
    apply (IH _ Hc). apply (WF _ Hc).
Qed.

Lemma locked_files_survivors (d : directory) :
  locked_files (survivors d) = locked_files d.
Proof.
  unfold locked_files. now rewrite all_files_survivors, filter_same.
Qed.

Section ResetTwice.

Context {ext : Type} `{Svc : Services ext}.

(** X22. Running safe_delete_dir a second time changes nothing: TEMP_DIR
    is as the first run left it, and the same warnings, for the same locked
    files, are shown again. *)
Theorem safe_delete_dir_idempotent (w : world ext) (d : directory) :
  temp w = Some d ->
  well_formed d ->
  exists w1 w2,
    safe_delete_dir w = (w1, inr tt) /\
    safe_delete_dir w1 = (w2, inr tt) /\
    temp w2 = temp w1 /\
    outside w2 = outside w /\
    trace w1 = trace w ++ map skipped_warning (locked_files d) /\
    trace w2 = trace w1 ++ map skipped_warning (locked_files d).
Proof.
  intros Ht WF.
  pose proof (safe_delete_dir_ok w Ht WF) as E1.
  assert (WS : well_formed (survivors d))
    by (apply (well_formed_survivors_node (Dir d)); exact WF).
  assert (Hi : survivors (survivors d) = survivors d).
  { pose proof (survivors_node_idempotent (Dir d)) as Hi.
    change (survivors_node (Dir d)) with (Dir (survivors d)) in Hi.
    change (survivors_node (Dir (survivors d)))
      with (Dir (survivors (survivors d))) in Hi.
    congruence. }
  pose proof (locked_files_survivors d) as HLs.
  destruct (survivors d) as [|x xs] eqn:E.
  - assert (HL : locked_files d = []).
    { unfold locked_files. rewrite <- all_files_survivors, E. reflexivity. }
    rewrite HL in *. cbn [map] in *. rewrite app_nil_r in E1.
    eexists. eexists. split; [exact E1|]. split.
    + unfold safe_delete_dir, bind, get_temp, ret, try_except, raise.
      cbn [temp]. reflexivity.
    + cbn [outside temp trace is_OSError]. rewrite !app_nil_r.
      repeat split.
  - set (w1 := {| outside := outside w; temp := Some (x :: xs);
                  trace := trace w ++
                           map skipped_warning (locked_files d) |}) in *.
    pose proof (safe_delete_dir_ok w1 (d := x :: xs) eq_refl WS) as E2.
    rewrite Hi, HLs in E2.
    eexists. eexists. split; [exact E1|]. split; [exact E2|].
    cbn [outside temp trace]. repeat split.
Qed.

End ResetTwice.

Lemma safe_delete_dir_leaves_locked_files_witness :
  let d := [(lit "clips", Dir [(lit "a.mp4", File true);
                               (lit "b.mp4", File false)]);
            (lit "c.wav", File true);
            (lit "old", Dir [])] in
  exists w',
    safe_delete_dir (Stub.world_of (Some d)) = (w', inr tt) /\
    locked_files d = [lit "a.mp4"; lit "c.wav"] /\
    all_files (survivors d) = [(lit "a.mp4", true); (lit "c.wav", true)] /\
    temp w' = Some (survivors d).
Proof.
  intros d.
  assert (WF : well_formed d).
  { cbn. repeat split; repeat constructor; cbv; intuition discriminate. }
  destruct (safe_delete_dir_leaves_locked_files (Stub.world_of (Some d))
              (d := d) eq_refl WF)
    as (w' & E & _ & _ & Hall & _ & Hsome).
  exists w'. split; [exact E|]. split; [reflexivity|].
  split; [rewrite Hall; reflexivity|].
  apply Hsome. discriminate.
Defined.

Lemma clean_without_locked_files_witness :
  let d := [(lit "clips", Dir [(lit "b.mp4", File false)]);
            (lit "audio.wav", File false)] in
  exists w',
    clean_handler 0 (Stub.world_of (Some d)) = (w', inr tt) /\
    temp w' = Some [].
Proof.
  intros d.
  assert (WF : well_formed d).
  { cbn. repeat split; repeat constructor; cbv; intuition discriminate. }
  destruct (clean_without_locked_files (Stub.world_of (Some d)) 0
              (conj WF eq_refl))
    as (w' & E & Ht & _).
  exists w'. split; [exact E|exact Ht].
Defined.

Lemma safe_delete_dir_idempotent_witness :
  let d := [(lit "clips", Dir [(lit "a.mp4", File true);
                               (lit "b.mp4", File false)])] in
  exists w1 w2,
    safe_delete_dir (Stub.world_of (Some d)) = (w1, inr tt) /\
    safe_delete_dir w1 = (w2, inr tt) /\
    temp w2 = temp w1.
Proof.
  intros d.
  assert (WF : well_formed d).
  { cbn. repeat split; repeat constructor; cbv; intuition discriminate. }
  destruct (safe_delete_dir_idempotent (Stub.world_of (Some d)) (d := d)
              eq_refl WF)
    as (w1 & w2 & E1 & E2 & Ht & _).
  exists w1, w2. auto.
Defined.

(** * Properties of a whole run of the script *)

Lemma plain_tree (d : directory) :
  NoDup (map fst d) ->
  Forall (fun e => snd e = File false) d ->
  well_formed d /\ locked_files d = [].
Proof.
  intros ND HF. split.
  - apply well_formed_split. split; [exact ND|].
    eapply Forall_impl; [|exact HF]. intros e He. now rewrite He.
  - unfold locked_files. rewrite all_files_split.
    assert (B : all_files_below d = []).
    { unfold all_files_below. clear ND. induction HF as [|e l He HF IH];
        [reflexivity|].
      cbn [flat_map]. rewrite He. cbn [all_files_node app]. exact IH. }
    assert (O : filter snd (own_files d) = []).
    { unfold own_files. clear ND B. induction HF as [|e l He HF IH];
        [reflexivity|].
      cbn [flat_map]. rewrite He. cbn. exact IH. }
    rewrite B. cbn [app]. now rewrite O.
Qed.

Section Run.

Context {ext : Type} `{Svc : Services ext} `{Ld : Loaders ext}.

Lemma write_file_trace (name : str) (w w1 : world ext) :
  write_file name w = (w1, inr tt) ->
  outside w1 = outside w /\ trace w1 = trace w ++ [file_written name].
Proof.
  unfold write_file, bind, get_temp, ret, raise, set_temp, emit.
  destruct (temp w) as [d|]; [|discriminate].
  destruct (lookup d name) as [[[|]|sub]|]; cbn [outside temp trace];
    intros H; inversion H; cbn; auto.
Qed.

Lemma write_file_keeps_absent (other name : str) (w w1 : world ext)
  (r : exn + unit) :
  name <> other ->
  match temp w with Some d => lookup d other | None => None end = None ->
  write_file name w = (w1, r) ->
  match temp w1 with Some d => lookup d other | None => None end = None.
Proof.
  intros Hne Ha. unfold write_file, bind, get_temp, ret, raise, set_temp,
    emit.
  destruct (temp w) as [d|] eqn:Ht.
  - destruct (lookup d name) as [[[|]|sub]|] eqn:L; cbn [outside temp trace];
      intros H; inversion H; subst; cbn [temp]; rewrite ?Ht; try exact Ha.
    assert (Hn : ~ In other (map fst d)) by now apply lookup_none_not_in.
    rewrite lookup_skip by assumption. cbn [lookup].
    destruct (str_eqb other name) eqn:E; [|reflexivity].
    apply str_eqb_eq in E. congruence.
  - intros H. inversion H; subst. now rewrite Ht.
Qed.

(** The handler of lines 125-155 with and without the count of slots. *)
Lemma chunk_handler_slots_stops (w : world ext) :
  match temp w with Some d => lookup d VERTICAL_NAME | None => None end
  = None ->
  chunk_handler_slots w =
  ({| outside := outside w; temp := temp w;
      trace := trace w ++
        [st_info ([9986%N] ++
           lit " Splitting vertical video into 30-second chunks...");
         st_error ([10060%N] ++ lit " Reel format video not found. Please run 'Extract Audio & Convert Video to Reel Format' first.")] |},
   inl StopException).
Proof.
  intros H. unfold chunk_handler_slots.
  unfold bind at 1, emit at 1. unfold bind at 1.
  unfold os_path_exists, bind at 1, get_temp at 1, ret at 1.
  cbn [temp].
  assert (P : match temp w with
              | Some d => match lookup d VERTICAL_NAME with
                          | Some _ => true
                          | None => false
                          end
              | None => false
              end = false).
  { destruct (temp w); [now rewrite H|reflexivity]. }
  rewrite P. cbn [negb]. unfold bind at 1, bind at 1, emit at 1, raise.
  cbn [outside temp trace]. now rewrite <- app_assoc.
Qed.

(** X23. When the chunk button is pressed although there is no vertical
    video, st.stop() ends the whole run: after the upload is saved and the
    error is shown nothing else happens, so the uploaded audio files are not
    transcribed in this run and the clean button, were it pressed, has no
    effect. *)
Theorem stop_ends_the_run (name : str) (uploaded_audios : list str)
  (clean_pressed : bool) (w : world ext) (o : ext) :
  load_summarizer (outside w) = (o, inr tt) ->
  only_plain_files (temp w) ->
  match temp w with Some d => lookup d VERTICAL_NAME | None => None end
  = None ->
  name <> VERTICAL_NAME ->
  exists w',
    script (Some name) uploaded_audios false true clean_pressed w =
    (w', inl StopException) /\
    outside w' = o /\
    only_plain_files (temp w') /\
    holds_file name (temp w') /\
    trace w' =
    trace w ++
    [file_written name;
     st_success ([9989%N] ++ lit " File uploaded successfully.");
     st_info ([9986%N] ++
       lit " Splitting vertical video into 30-second chunks...");
     st_error ([10060%N] ++ lit " Reel format video not found. Please run 'Extract Audio & Convert Video to Reel Format' first.")].
Proof.
  intros Hload Hp Hv Hne. unfold script.
  erewrite bind_ok; [|apply call_service_ok; exact Hload].
  set (w0 := {| outside := o; temp := temp w; trace := trace w ++ [] |}).
  assert (Hm : os_makedirs_temp w0 = (w0, inr tt)).
  { unfold os_makedirs_temp, bind, get_temp, ret. cbn [temp w0].
    destruct Hp as (d & -> & _). reflexivity. }
  erewrite bind_ok; [|exact Hm].
  destruct (write_file_plain name w0 Hp) as (w1 & Ew & Ho & Hp1 & Hh1).
  destruct (write_file_trace _ _ Ew) as [_ Htr].
  pose proof (write_file_keeps_absent (other := VERTICAL_NAME) w0 Hne Hv Ew)
    as Hv1.
  unfold bind at 1. unfold upload_block.
  erewrite bind_ok; [|exact Ew].
  unfold bind at 1, emit at 1. unfold bind at 1, ret at 1.
  rewrite chunk_handler_slots_stops by exact Hv1.
  cbn [outside temp trace].
  eexists. split; [reflexivity|]. cbn [outside temp trace].
  split; [exact Ho|]. split; [exact Hp1|]. split; [exact Hh1|].
  rewrite Htr. unfold w0. cbn [trace].
  rewrite app_nil_r, <- !app_assoc. reflexivity.
Qed.

End Run.

Section CleanRun.

Context {ext : Type} `{Svc : Services ext} `{Ld : Loaders ext}.

Hypothesis summarizer_loads :
  forall o, exists o', load_summarizer o = (o', inr tt).
Hypothesis model_loads :
  forall o, exists o', load_model (lit "tiny") o = (o', inr tt).
Hypothesis can_create : forall o, os_makedirs_fault o = false.

(** X24. In a run in which the clean button is the only one pressed, on a
    TEMP_DIR that holds only removable files and with models that load, the
    run returns normally and TEMP_DIR is an empty directory at its end,
    whatever was uploaded and whatever whisper and the summarizer answer:
    the upload, the saved audio files and their transcripts, written earlier
    in the same run, are removed too. *)
Theorem clean_run_empties_workspace (uploaded_file : option str)
  (uploaded_audios : list str) (w : world ext) :
  only_plain_files (temp w) ->
  exists w',
    script uploaded_file uploaded_audios false false true w = (w', inr tt) /\
    temp w' = Some [].
Proof.
  intros Hp. unfold script.
  destruct (summarizer_loads (outside w)) as (o & Hload).
  erewrite bind_ok; [|apply call_service_ok; exact Hload].
  set (w0 := {| outside := o; temp := temp w; trace := trace w ++ [] |}).
  assert (Hp0 : only_plain_files (temp w0)) by exact Hp.
  assert (Hm : os_makedirs_temp w0 = (w0, inr tt)).
  { unfold os_makedirs_temp, bind, get_temp, ret. cbn [temp w0].
    destruct Hp as (d & -> & _). reflexivity. }
  erewrite bind_ok; [|exact Hm].
  assert (U : exists w2,
             match uploaded_file with
             | Some name => upload_block name false false
             | None => ret 0
             end w0 = (w2, inr 0) /\ only_plain_files (temp w2)).
  { destruct uploaded_file as [name|].
    - destruct (write_file_plain name w0 Hp0) as (w1 & Ew & _ & Hp1 & _).
      unfold upload_block. erewrite bind_ok; [|exact Ew].
      unfold bind, emit, ret. cbn [outside temp trace].
      eexists. split; [reflexivity|exact Hp1].
    - exists w0. split; [reflexivity|exact Hp0]. }
  destruct U as (w2 & U & Hp2). erewrite bind_ok; [|exact U].
  assert (A : exists w3,
             audio_section uploaded_audios w2 = (w3, inr tt) /\
             only_plain_files (temp w3)).
  { destruct uploaded_audios as [|a rest].
    - exists w2. split; [reflexivity|exact Hp2].
    - unfold audio_section.
      destruct (model_loads (outside w2)) as (o' & Hmodel).
      erewrite bind_ok; [|apply call_service_ok; exact Hmodel].
      match goal with
      | |- context [transcribe_all _ ?w0] =>
          destruct (transcribe_all_returns (a :: rest) w0 Hp2)
            as (w3 & E & Hp3)
      end.
      exists w3. split; [exact E|exact Hp3]. }
  destruct A as (w3 & A & Hp3). erewrite bind_ok; [|exact A].
  destruct (clean_handler_returns w3 0) as (w' & E & Ht).
  { destruct Hp3 as (d & -> & ND & HF). now apply plain_tree. }
  exists w'. split; [exact E|]. now rewrite Ht, can_create.
Qed.

End CleanRun.

Lemma stop_ends_the_run_witness :
  exists w',
    script (Some (lit "clip.mp4")) [lit "talk.mp3"] false true true
      (Stub.world_of (Some [])) = (w', inl StopException) /\
    holds_file (lit "clip.mp4") (temp w').
Proof.
  assert (Hp : only_plain_files (temp (Stub.world_of (Some [])))).
  { exists []. split; [reflexivity|]. split; constructor. }
  edestruct (@stop_ends_the_run unit Stub.services stub_loaders
               (lit "clip.mp4") [lit "talk.mp3"] true
               (Stub.world_of (Some [])))
    as (w' & E & _ & _ & Hh & _);
    [reflexivity|exact Hp|reflexivity|discriminate|].
  exists w'. split; [exact E|exact Hh].
Defined.

Lemma clean_run_empties_workspace_witness :
  exists w',
    script (Some (lit "clip.mp4")) [lit "talk.mp3"] false false true
      (Stub.world_of (Some [(lit "old.txt", File false)])) = (w', inr tt) /\
    temp w' = Some [].
Proof.
  assert (Hp : only_plain_files
                 (temp (Stub.world_of (Some [(lit "old.txt", File false)])))).
  { eexists. split; [reflexivity|].
    split; repeat constructor. cbv. tauto. }
  apply (@clean_run_empties_workspace unit Stub.services stub_loaders).
  - intros o. exists o. reflexivity.
  - intros o. exists o. reflexivity.
  - intros o. reflexivity.
  - exact Hp.
Defined.

(** * The slots of the chunk videos *)

Section Slots.

Context {ext : Type} `{Svc : Services ext}.

Local Notation quiet m := (adds_only (fun e => is_video e = false) m).

Lemma videos_shown_app (l l' : list event) :
  videos_shown (l ++ l') = videos_shown l + videos_shown l'.
Proof. unfold videos_shown. now rewrite filter_app, length_app. Qed.

Lemma videos_shown_quiet (l : list event) :
  Forall (fun e => is_video e = false) l -> videos_shown l = 0.
Proof.
  unfold videos_shown. induction 1 as [|e l He _ IH]; [reflexivity|].
  cbn [filter]. now rewrite He.
Qed.

Lemma videos_shown_all (paths : list str) :
  videos_shown (map st_video paths) = List.length paths.
Proof.
  unfold videos_shown. induction paths as [|p l IH]; [reflexivity|].
  cbn [map filter is_video List.length]. now rewrite IH.
Qed.


Lemma counts_after_quiet {A : Type} (m : M ext A) (k : A -> M ext nat) :
  quiet m -> (forall x, counts_videos (k x)) -> counts_videos (bind m k).
Proof.
  intros Hm Hk w. unfold bind. destruct (Hm w) as (evs & E & F).
  destruct (m w) as [w1 [e|x]]; cbn [fst snd] in *.
  - rewrite E, videos_shown_app, (videos_shown_quiet F). lia.
  - rewrite (Hk x w1), E, videos_shown_app, (videos_shown_quiet F). lia.
Qed.

Lemma counts_try (body : M ext nat) (class : exn -> bool)
  (handler : exn -> M ext nat) :
  counts_videos body -> (forall e, counts_videos (handler e)) ->
  counts_videos (try_except body class handler).
Proof.
  intros Hb Hh w. unfold try_except. specialize (Hb w).
  destruct (body w) as [w1 [e|n]]; cbn [fst snd] in *.
  - destruct (class e); cbn [fst snd].
    + rewrite (Hh e w1). lia.
    + lia.
  - exact Hb.
Qed.

Lemma counts_shown (chunks : list str) :
  counts_videos
    (for_each chunks
       (fun chunk => emit (ext := ext) (st_video (in_temp chunk))) ;;
     ret (List.length chunks)).
Proof.
  intros w. unfold bind. rewrite emit_loop. cbn [ret fst snd trace].
  rewrite videos_shown_app.
  rewrite <- (map_map in_temp st_video), videos_shown_all.
  now rewrite length_map.
Qed.

Lemma quiet_call_ffmpeg (req : ffmpeg_request) : quiet (call_ffmpeg req).
Proof.
  intros w. exists [ffmpeg_called req]. unfold call_ffmpeg.
  destruct (ffmpeg_run req (outside w) (temp w)) as [[o t] r].
  cbn. auto.
Qed.

Lemma quiet_os_remove (name : str) : quiet (os_remove (ext := ext) name).
Proof. unfold os_remove, on_temp. adds_steps; auto with trace. Qed.

Lemma quiet_glob (pattern : str) : quiet (glob (ext := ext) pattern).
Proof. unfold glob. adds_steps; auto with trace. Qed.

(** X25. The chunk button keeps one slot for each chunk video it shows, and
    none when it stops or when splitting fails: the number of slots it
    leaves to the clean button is the number of st.video calls it made. *)
Theorem one_slot_per_chunk_shown (w : world ext) :
  videos_shown (trace (fst (chunk_handler_slots w))) =
  videos_shown (trace w) +
  match snd (chunk_handler_slots w) with inr n => n | inl _ => 0 end.
Proof.
  revert w. change (counts_videos chunk_handler_slots).
  unfold chunk_handler_slots.
  apply counts_after_quiet; [auto with trace|intros _].
  apply counts_after_quiet;
    [unfold os_path_exists; adds_steps; auto with trace|intros present].
  apply counts_after_quiet;
    [destruct (negb present); adds_steps; auto with trace|intros _].
  apply counts_try.
  - apply counts_after_quiet; [apply quiet_glob|intros old].
    apply counts_after_quiet.
    { apply adds_for_each. intros f. apply adds_try; [apply quiet_os_remove|].
      intros e. auto with trace. }
    intros _.
    apply counts_after_quiet; [apply quiet_call_ffmpeg|intros _].
    apply counts_after_quiet; [apply quiet_glob|intros found].
    apply counts_after_quiet; [auto with trace|intros _].
    apply counts_shown.
  - intros e.
    apply counts_after_quiet; [auto with trace|intros _].
    apply counts_after_quiet; [auto with trace|intros _].
    intros w. cbn. lia.
Qed.

Lemma same_effect_bind {A B : Type} (m : M ext A) (k : A -> M ext unit)
  (k' : A -> M ext B) :
  (forall x, same_effect (k x) (k' x)) ->
  same_effect (bind m k) (bind m k').
Proof.
  intros H w. unfold bind. destruct (m w) as [w1 [e|x]]; [reflexivity|].
  apply H.
Qed.

Lemma same_effect_try {A : Type} (body : M ext unit) (body' : M ext A)
  (class : exn -> bool) (handler : exn -> M ext unit)
  (handler' : exn -> M ext A) :
  same_effect body body' ->
  (forall e, same_effect (handler e) (handler' e)) ->
  same_effect (try_except body class handler)
    (try_except body' class handler').
Proof.
  intros Hb Hh w. unfold try_except. rewrite (Hb w).
  destruct (body' w) as [w1 [e|x]]; cbn [fst snd]; [|reflexivity].
  destruct (class e); [apply Hh|reflexivity].
Qed.

Lemma same_effect_ret {A : Type} (m : M ext unit) (x : A) :
  same_effect m (m ;; ret x).
Proof.
  intros w. unfold bind, ret.
  destruct (m w) as [w1 [e|[]]]; reflexivity.
Qed.

(** The two renderings of lines 125-155 differ in the returned count of
    slots only. *)
Lemma chunk_handler_slots_agrees :
  same_effect (chunk_handler (ext := ext)) chunk_handler_slots.
Proof.
  unfold chunk_handler, chunk_handler_slots.
  apply same_effect_bind; intros _.
  apply same_effect_bind; intros present.
  apply same_effect_bind; intros _.
  apply same_effect_try.
  - apply same_effect_bind; intros old.
    apply same_effect_bind; intros _.
    apply same_effect_bind; intros _.
    apply same_effect_bind; intros found.
    apply same_effect_bind; intros _.
    apply same_effect_ret.
  - intros e. apply same_effect_bind; intros _. apply same_effect_ret.
Qed.

End Slots.

(** * Models that do not load *)

Section LoadFailure.

Context {ext : Type} `{Svc : Services ext} `{Ld : Loaders ext}.

(** X26. When the summarization pipeline cannot be loaded, the run ends at
    line 37 with that exception: TEMP_DIR is not created, no upload is saved
    and nothing is shown, whatever was uploaded and whichever button was
    pressed. *)
Theorem summarizer_failure_ends_the_run (uploaded_file : option str)
  (uploaded_audios : list str)
  (extract_pressed chunk_pressed clean_pressed : bool) (w : world ext)
  (o : ext) (msg : str) :
  load_summarizer (outside w) = (o, inl msg) ->
  script uploaded_file uploaded_audios extract_pressed chunk_pressed
    clean_pressed w =
  ({| outside := o; temp := temp w; trace := trace w |},
   inl (ServiceError msg)).
Proof.
  intros H. unfold script, bind at 1, call_service. rewrite H.
  cbn [service_result]. now rewrite app_nil_r.
Qed.

(** X27. When audio files but no video were uploaded and the whisper model
    cannot be loaded, the run ends at line 160 with that exception: none of
    the audio files is saved or transcribed, and the clean button, were it
    pressed, does not run, so TEMP_DIR keeps what it held. *)
Theorem model_failure_skips_the_rest (a : str) (rest : list str)
  (clean_pressed : bool) (w : world ext) (d : directory) (o o' : ext)
  (msg : str) :
  temp w = Some d ->
  load_summarizer (outside w) = (o, inr tt) ->
  load_model (lit "tiny") o = (o', inl msg) ->
  script None (a :: rest) false false clean_pressed w =
  ({| outside := o'; temp := Some d; trace := trace w |},
   inl (ServiceError msg)).
Proof.
  intros Ht Hs Hm. unfold script.
  erewrite bind_ok; [|apply call_service_ok; exact Hs].
  unfold bind at 1, os_makedirs_temp, bind at 1, get_temp, ret.
  cbn [outside temp trace]. rewrite Ht.
  unfold bind at 1. unfold audio_section, bind at 1, call_service.
  unfold bind at 1. cbn [outside temp trace].
  rewrite Hm. cbn [service_result]. now rewrite !app_nil_r.
Qed.

End LoadFailure.

Lemma summarizer_failure_ends_the_run_witness :
  @script unit Stub.services offline_loaders (Some (lit "clip.mp4"))
    [lit "talk.mp3"] true true true (Stub.world_of None) =
  (Stub.world_of None, inl (ServiceError (lit "offline"))).
Proof.
  apply (@summarizer_failure_ends_the_run unit Stub.services offline_loaders
           (Some (lit "clip.mp4")) [lit "talk.mp3"] true true true
           (Stub.world_of None) tt (lit "offline")).
  reflexivity.
Defined.

Lemma model_failure_skips_the_rest_witness :
  @script unit Stub.services no_whisper_loaders None
    [lit "talk.mp3"] false false true
    (Stub.world_of (Some [(lit "old.txt", File false)])) =
  (Stub.world_of (Some [(lit "old.txt", File false)]),
   inl (ServiceError (lit "offline"))).
Proof.
  apply (@model_failure_skips_the_rest unit Stub.services no_whisper_loaders
           (lit "talk.mp3") [] true
           (Stub.world_of (Some [(lit "old.txt", File false)]))
           [(lit "old.txt", File false)] tt tt (lit "offline"));
    reflexivity.
Defined.
